(** * LufyKMS core: a shallow embedding of the retrieval core

    The development follows the TypeScript sources of [packages/core]:
    - [utils/textSplitter.ts]            (module [TextSplitter])
    - [utils/similarity.ts]              (module [SimilarityCalculator])
    - [embeddings/baseEmbeddingProvider.ts], [googleEmbeddingProvider.ts]
    - [search/baseSearchProvider.ts], [search/vectorSearchProvider.ts]
    - [knowledgeManagementSystem.ts]     (the facade)
    - [storage/baseStorageProvider.ts]   (the methods built on the store)

    Modelling conventions.
    - A JavaScript string is the list of its UTF-16 code units ([list N]).
    - Lengths and positions are integers ([Z]); a JavaScript [number] that
      carries a measured quantity (similarity, limit, vector component) is an
      IEEE 754 binary64 value, taken from [SpecFloat] with [prec = 53] and
      [emax = 1024], so that NaN, signed zeros and infinities behave as in
      the running program.
    - A [Map] is a [gmap]; a plain object used as a dictionary is a [gmap].
    - Asynchronous methods run sequentially: they are state transformers
      that may throw. [console.*] output is not part of the state; the
      calls that leave the core (backend, store) are recorded in a trace.
    - What the core does not implement - the clock, timers, the md5 digest,
      JSON and string built-ins, the embedding backend, the document
      store - is a field of the class [Platform]. *)

From Stdlib Require Import ZArith List Bool Lia String Ascii.
From Stdlib Require Import Sorted Permutation.
From Stdlib Require Import Floats.SpecFloat.
From stdpp Require Import base option list gmap.

Local Open Scope Z_scope.

(* ===================================================================== *)
(** * JavaScript strings                                                  *)
(* ===================================================================== *)

Module JSString.

(** A string is its sequence of UTF-16 code units. *)
Abbreviation jsstring := (list N).

(** Literals of the sources are written as Rocq strings. *)
Definition str (s : string) : jsstring :=
  map N_of_ascii (list_ascii_of_string s).

Definition len (s : jsstring) : Z := Z.of_nat (length s).

(** The code units removed by [String.prototype.trim]: WhiteSpace and
    LineTerminator of ECMA-262. *)
Definition isWhiteSpace (c : N) : bool :=
  match c with
  | 9%N | 10%N | 11%N | 12%N | 13%N | 32%N | 160%N => true
  | 5760%N => true                                   (* U+1680 *)
  | 8232%N | 8233%N | 8239%N | 8287%N => true        (* U+2028/9, 202F, 205F *)
  | 12288%N | 65279%N => true                        (* U+3000, U+FEFF *)
  | _ => (8192 <=? c)%N && (c <=? 8202)%N            (* U+2000 .. U+200A *)
  end.

Fixpoint trimStart (s : jsstring) : jsstring :=
  match s with
  | c :: s' => if isWhiteSpace c then trimStart s' else s
  | [] => []
  end.

Definition trimEnd (s : jsstring) : jsstring := rev (trimStart (rev s)).

Definition trim (s : jsstring) : jsstring := trimEnd (trimStart s).

Definition clamp (lo hi x : Z) : Z := Z.min (Z.max x lo) hi.

(** [s.substring(start, end)]: both ends are clamped to [0, length] and
    swapped when out of order. *)
Definition substring (s : jsstring) (start finish : Z) : jsstring :=
  let a := clamp 0 (len s) start in
  let b := clamp 0 (len s) finish in
  let from := Z.min a b in
  let to := Z.max a b in
  take (Z.to_nat (to - from)) (drop (Z.to_nat from) s).

(** Scan [i, i-1, ..., 0] for the code unit [ch]. *)
Fixpoint scanDown (s : jsstring) (ch : N) (i : nat) : Z :=
  match nth_error s i with
  | Some c =>
      if (c =? ch)%N then Z.of_nat i
      else match i with O => -1 | S j => scanDown s ch j end
  | None => match i with O => -1 | S j => scanDown s ch j end
  end.

(** [s.lastIndexOf(ch, position)] for a one-unit search string: the
    start is [position] clamped to [0, length - 1]; the match may sit AT
    the start index. *)
Definition lastIndexOf (s : jsstring) (ch : N) (position : Z) : Z :=
  if len s <? 1 then -1
  else scanDown s ch (Z.to_nat (clamp 0 (len s - 1) position)).

End JSString.
Import JSString.

(* ===================================================================== *)
(** * utils/textSplitter.ts                                               *)
(* ===================================================================== *)

Module TextSplitter.

Definition PERIOD : N := 46%N.
Definition NEWLINE : N := 10%N.
Definition SPACE : N := 32%N.

(** The cut chosen by one iteration of the [while] loop, lines 22-34.
    [bestCutPoint > currentPos + maxChars * 0.8] is compared exactly, as
    [4 * maxChars < 5 * (bestCutPoint - currentPos)]. *)
Definition nextEndPos (text : jsstring) (maxChars currentPos : Z) : Z :=
  let endPos := Z.min (currentPos + maxChars) (len text) in
  if endPos <? len text then
    let lastPeriod := lastIndexOf text PERIOD endPos in
    let lastNewline := lastIndexOf text NEWLINE endPos in
    let lastSpace := lastIndexOf text SPACE endPos in
    let bestCutPoint := Z.max (Z.max lastPeriod lastNewline) lastSpace in
    if 4 * maxChars <? 5 * (bestCutPoint - currentPos)
    then bestCutPoint + 1
    else endPos
  else endPos.

(** The [while (currentPos < text.length)] loop. [fuel] bounds the number
    of loop tests; [None] means the bound was reached. [maxChars] is a
    number of characters, an integer. *)
Fixpoint splitLoop (fuel : nat) (text : jsstring) (maxChars : Z)
         (currentPos : Z) (chunks : list jsstring) : option (list jsstring) :=
  match fuel with
  | O => None
  | S fuel' =>
      if currentPos <? len text then
        let endPos := nextEndPos text maxChars currentPos in
        let chunk := trim (substring text currentPos endPos) in
        let chunks' := if 0 <? len chunk then chunks ++ [chunk] else chunks in
        splitLoop fuel' text maxChars endPos chunks'
      else Some chunks
  end.

(** [TextSplitter.splitIntoChunks(text, maxChars)]. With [maxChars >= 1]
    every iteration moves the cursor forward, so the loop ends within
    [length text + 1] tests ([splitIntoChunks_returns]); for any [maxChars]
    a loop that has not ended by then never ends
    ([splitIntoChunks_adequate]): [None] is a call that does not return. *)
Definition splitIntoChunks (text : jsstring) (maxChars : Z)
  : option (list jsstring) :=
  splitLoop (S (length text)) text maxChars 0 [].

(** A maximal run without ['.'], newline or space. *)
Definition isBoundary (c : N) : bool :=
  (c =? PERIOD)%N || (c =? NEWLINE)%N || (c =? SPACE)%N.

Fixpoint longestToken_aux (s : jsstring) (cur best : nat) : nat :=
  match s with
  | [] => Nat.max cur best
  | c :: s' =>
      if isBoundary c then longestToken_aux s' 0%nat (Nat.max cur best)
      else longestToken_aux s' (S cur) best
  end.

Definition longestToken (s : jsstring) : Z :=
  Z.of_nat (longestToken_aux s 0 0).

(** Does the text begin with a boundary character? *)
Definition startsWithBoundary (text : jsstring) : bool :=
  match text with
  | c :: _ => isBoundary c
  | [] => false
  end.

End TextSplitter.

(* ===================================================================== *)
(** * JavaScript numbers: IEEE 754 binary64                               *)
(* ===================================================================== *)

Module JSNumber.

Definition prec : Z := 53.
Definition emax : Z := 1024.

Abbreviation number := spec_float.

Definition add : number -> number -> number := SFadd prec emax.
Definition sub : number -> number -> number := SFsub prec emax.
Definition mul : number -> number -> number := SFmul prec emax.
Definition div : number -> number -> number := SFdiv prec emax.
Definition sqrt : number -> number := SFsqrt prec emax.

(** [x < y], [x > y], [x <= y], [x >= y]: all false when NaN is involved. *)
Definition ltb (x y : number) : bool := SFltb x y.
Definition gtb (x y : number) : bool := SFltb y x.
Definition leb (x y : number) : bool := SFleb x y.
Definition geb (x y : number) : bool := SFleb y x.

Definition NaN : number := S754_nan.
Definition zero : number := S754_zero false.

(** The number denoted by an integer literal, and by a quotient of two. *)
Definition ofZ (z : Z) : number := binary_normalize prec emax z 0 false.
Definition ofNat (n : nat) : number := ofZ (Z.of_nat n).
Definition ratio (p q : Z) : number := div (ofZ p) (ofZ q).

Definition isNaN (x : number) : bool :=
  match x with S754_nan => true | _ => false end.

Definition isZero (x : number) : bool :=
  match x with S754_zero _ => true | _ => false end.

Definition isInfinite (x : number) : bool :=
  match x with S754_infinity _ => true | _ => false end.

(** The values an accumulator takes when it only ever sees zeros. *)
Definition zeroOrNaN (x : number) : bool := isZero x || isNaN x.

(** ToBoolean on a number: [0], [-0] and NaN are falsy. *)
Definition truthy (x : number) : bool :=
  match x with
  | S754_zero _ | S754_nan => false
  | _ => true
  end.

(** [x || d] on an optional number. *)
Definition orDefault (x : option number) (d : number) : number :=
  match x with
  | Some v => if truthy v then v else d
  | None => d
  end.

End JSNumber.
Import JSNumber.
Arguments ofZ : simpl never.
Arguments ofNat : simpl never.
Arguments ratio : simpl never.

Abbreviation vector := (list number).

(* ===================================================================== *)
(** * Outcomes of a call                                                  *)
(* ===================================================================== *)

(** The errors the core raises, one constructor per [throw new Error(..)]
    of the sources, and [External] for whatever a collaborator (embedding
    backend, document store) throws. *)
Inductive Error : Type :=
| VectorsLengthMismatch        (* 'Vectors must have the same length' *)
| EmptyEmbeddingsArray         (* 'Cannot average empty embeddings array' *)
| EmbeddingDimensionMismatch   (* 'All embeddings must have the same dimension' *)
| EmptyQuery                   (* 'Search query cannot be empty' *)
| QueryTooLong                 (* 'Search query is too long (max 10,000 characters)' *)
| LimitOutOfRange              (* 'Search limit must be between 1 and 100' *)
| MinSimilarityOutOfRange      (* 'Minimum similarity must be between 0 and 1' *)
| DocumentNotFound (id : jsstring)   (* `Document not found: ${id}` *)
| NotIterable                  (* TypeError of [for ... of] over a non-iterable *)
| External (code : N).

(** [Hang] is the outcome of a call whose loop never ends. *)
Inductive Result (A : Type) : Type :=
| Ok (a : A)
| Throw (e : Error)
| Hang.
Arguments Ok {A} a.
Arguments Throw {A} e.
Arguments Hang {A}.

Definition isValidationError (e : Error) : bool :=
  match e with
  | EmptyQuery | QueryTooLong | LimitOutOfRange | MinSimilarityOutOfRange => true
  | _ => false
  end.

(* ===================================================================== *)
(** * utils/similarity.ts                                                 *)
(* ===================================================================== *)

Module SimilarityCalculator.

(** The body of the [for] loop of [cosineSimilarity], run over both
    vectors in step; the accumulator is [(dotProduct, normA, normB)]. *)
Fixpoint cosineLoop (vecA vecB : vector) (acc : number * number * number)
  : number * number * number :=
  match vecA, vecB with
  | a :: vecA', b :: vecB' =>
      let '(dotProduct, normA, normB) := acc in
      cosineLoop vecA' vecB'
        (add dotProduct (mul a b), add normA (mul a a), add normB (mul b b))
  | _, _ => acc
  end.

Definition cosineSimilarity (vecA vecB : vector) : Result number :=
  if negb (length vecA =? length vecB)%nat then Throw VectorsLengthMismatch
  else
    let '(dotProduct, normA, normB) := cosineLoop vecA vecB (zero, zero, zero) in
    Ok (div dotProduct (mul (sqrt normA) (sqrt normB))).

(** [avgEmbedding[i] += embedding[i]] for [i < dimension]; both lists have
    [dimension] elements when this is reached. *)
Definition addInto (avgEmbedding embedding : vector) : vector :=
  zip_with add avgEmbedding embedding.

Fixpoint sumLoop (embeddings : list vector) (dimension : nat)
         (avgEmbedding : vector) : Result vector :=
  match embeddings with
  | [] => Ok avgEmbedding
  | embedding :: rest =>
      if negb (length embedding =? dimension)%nat
      then Throw EmbeddingDimensionMismatch
      else sumLoop rest dimension (addInto avgEmbedding embedding)
  end.

Definition averageEmbeddings (embeddings : list vector) : Result vector :=
  match embeddings with
  | [] => Throw EmptyEmbeddingsArray
  | [only] => Ok only
  | first :: _ =>
      let dimension := length first in
      match sumLoop embeddings dimension (replicate dimension zero) with
      | Ok total => Ok (map (fun x => div x (ofNat (length embeddings))) total)
      | Throw e => Throw e
      | Hang => Hang
      end
  end.

(** A vector all of whose components are [0] or [-0]: the vectors of
    norm zero. *)
Definition zeroVector (v : vector) : bool := forallb isZero v.

(** The sum of squares as the loop accumulates it, from [acc] on. *)
Definition sumOfSquares (v : vector) (acc : number) : number :=
  fold_left (fun n x => add n (mul x x)) v acc.

End SimilarityCalculator.
Import SimilarityCalculator.

Import TextSplitter.

(* ===================================================================== *)
(** * types/index.ts                                                      *)
(* ===================================================================== *)

(** The values a metadata field holds ([any] in the sources). *)
Inductive jsvalue : Type :=
| VUndefined
| VNull
| VBool (b : bool)
| VNumber (x : number)
| VString (s : jsstring).

(** [DocumentMetadata], an object read as a dictionary. *)
Abbreviation Metadata := (gmap jsstring jsvalue).

Record Document : Type := mkDocument {
  doc_id : jsstring;
  doc_content : jsstring;
  doc_metadata : Metadata;
  doc_embedding : option vector;        (* [embedding?: number[]] *)
}.

Record SearchResult : Type := mkSearchResult {
  res_id : jsstring;
  res_content : jsstring;
  res_metadata : Metadata;
  similarity : number;
}.

(** [SearchOptions]; [None] is a property that is missing or [undefined]. *)
Record SearchOptions : Type := mkSearchOptions {
  limit : option number;
  minSimilarity : option number;
  includeMetadata : option bool;
}.

Definition noOptions : SearchOptions := mkSearchOptions None None None.

(** An options object as a caller writes it: a property is missing, or it
    is there with a value that may be [undefined]. Reading the property
    gives [undefined] in the first case and the value in the second; only
    an object spread tells the two apart. *)
Inductive Property (A : Type) : Type :=
| Missing
| Holds (value : option A).
Arguments Missing {A}.
Arguments Holds {A} value.

Record OptionsObject : Type := mkOptionsObject {
  limitProperty : Property number;
  minSimilarityProperty : Property number;
  includeMetadataProperty : Property bool;
}.

Definition emptyObject : OptionsObject := mkOptionsObject Missing Missing Missing.

(** [object.key] *)
Definition readProperty {A : Type} (p : Property A) : option A :=
  match p with
  | Missing => None
  | Holds value => value
  end.

(** The options as the search provider reads them. *)
Definition readOptions (object : OptionsObject) : SearchOptions :=
  mkSearchOptions (readProperty (limitProperty object))
                  (readProperty (minSimilarityProperty object))
                  (readProperty (includeMetadataProperty object)).

(** [{key: d, ...object}.key]: the default stands only when the object
    does not carry the property. *)
Definition spreadOver {A : Type} (d : A) (p : Property A) : option A :=
  match p with
  | Missing => Some d
  | Holds value => value
  end.

Record EmbeddingConfig : Type := mkEmbeddingConfig {
  maxCharsPerChunk : Z;
  cacheSize : Z;
}.

(** [KnowledgeBaseConfig], numeric fields only. *)
Record KnowledgeBaseConfig : Type := mkKnowledgeBaseConfig {
  maxCacheSize : Z;
  searchCacheTTL : Z;
  documentCacheTTL : Z;
}.

(* ===================================================================== *)
(** * search/baseSearchProvider.ts: the pure part                         *)
(* ===================================================================== *)

Module BaseSearchProvider.

(** One iteration of the [for (const doc of documents)] loop: a document
    without embedding is skipped, an error of [cosineSimilarity] is caught
    and the document skipped, a similarity below the floor is dropped. *)
Definition scoreDocument (minSimilarityThreshold : number)
           (queryEmbedding : vector) (doc : Document) : option SearchResult :=
  match doc_embedding doc with
  | None => None
  | Some embedding =>
      match cosineSimilarity queryEmbedding embedding with
      | Ok sim =>
          if geb sim minSimilarityThreshold
          then Some (mkSearchResult (doc_id doc) (doc_content doc)
                                    (doc_metadata doc) sim)
          else None
      | _ => None
      end
  end.

Definition calculateSimilarities (minSimilarityThreshold : number)
           (queryEmbedding : vector) (documents : list Document)
  : list SearchResult :=
  omap (scoreDocument minSimilarityThreshold queryEmbedding) documents.

(** The comparator [(a, b) => b.similarity - a.similarity]. *)
Definition comparefn (a b : SearchResult) : number :=
  sub (similarity b) (similarity a).

(** [Array.prototype.sort] moves [b] in front of an earlier [a] only when
    [comparefn(a, b) > 0]; a NaN verdict counts as [+0]. The sort is
    stable, so an insertion sort that keeps the earlier of two elements
    first unless the comparator says otherwise computes its result. This
    holds for a consistent comparator; with a NaN among the similarities
    the comparator is not consistent and ECMA-262 leaves the order to the
    implementation. [calculateSimilarities] returns no NaN
    ([calculateSimilarities_never_NaN]). *)
Definition mustFollow (a b : SearchResult) : bool := gtb (comparefn a b) zero.

Fixpoint insertSorted (a : SearchResult) (sorted : list SearchResult)
  : list SearchResult :=
  match sorted with
  | [] => [a]
  | b :: rest =>
      if mustFollow a b then b :: insertSorted a rest else a :: sorted
  end.

Fixpoint sortResultsBySimilarity (results : list SearchResult)
  : list SearchResult :=
  match results with
  | [] => []
  | a :: rest => insertSorted a (sortResultsBySimilarity rest)
  end.

(** The comparator never asks for two neighbours of a list to be swapped. *)
Definition inOrder (l : list SearchResult) : Prop :=
  Sorted (fun a b => mustFollow a b = false) l.

(** ToIntegerOrInfinity followed by the clamping of [slice(0, end)]:
    the number of leading elements kept from a list of [n]. A finite
    [end] is truncated towards zero to the integer [relativeEnd], so that
    an [end] in [(-1, 0)] counts as [0]; a negative [relativeEnd] counts
    from the end of the list. *)
Definition sliceCount (n : nat) (finish : number) : nat :=
  match finish with
  | S754_nan | S754_zero _ => 0%nat
  | S754_infinity negative => if negative then 0%nat else n
  | S754_finite negative m e =>
      let k := Z.shiftl (Zpos m) e in            (* truncation of |finish| *)
      let relativeEnd := if negative then - k else k in
      if relativeEnd <? 0 then Z.to_nat (Z.max (Z.of_nat n + relativeEnd) 0)
      else Z.to_nat (Z.min relativeEnd (Z.of_nat n))
  end.

Definition slice0 {A} (l : list A) (finish : number) : list A :=
  take (sliceCount (length l) finish) l.

Definition stripMetadata (r : SearchResult) : SearchResult :=
  mkSearchResult (res_id r) (res_content r) ∅ (similarity r).

Definition applySearchOptions (results : list SearchResult)
           (options : SearchOptions) : list SearchResult :=
  let filteredResults :=
    match minSimilarity options with
    | Some floor => filter (fun r => geb (similarity r) floor = true) results
    | None => results
    end in
  let filteredResults := sortResultsBySimilarity filteredResults in
  let filteredResults :=
    match limit options with
    | Some n => slice0 filteredResults n
    | None => filteredResults
    end in
  match includeMetadata options with
  | Some false => map stripMetadata filteredResults
  | _ => filteredResults
  end.

(** [!query || query.trim().length === 0], then the length bound. *)
Definition validateQuery (query : jsstring) : Result unit :=
  if (len query =? 0) || (len (trim query) =? 0) then Throw EmptyQuery
  else if 10000 <? len query then Throw QueryTooLong
  else Ok tt.

Definition checkLimit (options : SearchOptions) : Result unit :=
  match limit options with
  | Some n =>
      if ltb n (ofZ 1) || gtb n (ofZ 100) then Throw LimitOutOfRange else Ok tt
  | None => Ok tt
  end.

Definition checkMinSimilarity (options : SearchOptions) : Result unit :=
  match minSimilarity options with
  | Some m =>
      if ltb m (ofZ 0) || gtb m (ofZ 1) then Throw MinSimilarityOutOfRange
      else Ok tt
  | None => Ok tt
  end.

Definition validateOptions (options : SearchOptions) : Result unit :=
  match checkLimit options with
  | Ok _ => checkMinSimilarity options
  | failure => failure
  end.

(** The test of [checkLimit] and [checkMinSimilarity] on a value that is
    present: [v < lo || v > hi]. *)
Definition belowOrAbove (lo hi : Z) (x : option number) : bool :=
  match x with
  | Some v => ltb v (ofZ lo) || gtb v (ofZ hi)
  | None => false
  end.

(** A value that is present and NaN. *)
Definition presentNaN (x : option number) : bool :=
  match x with
  | Some v => isNaN v
  | None => false
  end.

(** The requests the specification rejects, in its own words: a query
    that is empty or white space only, a query of more than 10,000
    characters, a [limit] that is present and not in [[1, 100]], a
    [minSimilarity] that is present and not in [[0, 1]]. A number is in
    [[lo, hi]] when [lo <= v] and [v <= hi]: NaN is in no interval. *)
Definition spec_inInterval (lo hi : Z) (v : number) : bool :=
  leb (ofZ lo) v && leb v (ofZ hi).

Definition spec_outside (lo hi : Z) (x : option number) : bool :=
  match x with
  | Some v => negb (spec_inInterval lo hi v)
  | None => false
  end.

Definition spec_blank (query : jsstring) : bool := forallb isWhiteSpace query.

Definition spec_invalidRequest (query : jsstring) (options : SearchOptions)
  : bool :=
  spec_blank query || (10000 <? len query)
  || spec_outside 1 100 (limit options)
  || spec_outside 0 1 (minSimilarity options).

End BaseSearchProvider.
Import BaseSearchProvider.

(* ===================================================================== *)
(** * The running system                                                  *)
(* ===================================================================== *)

(** What the document cache of [VectorSearchProvider] holds: the document
    snapshot under ['all_documents'], a [Date.now()] reading under every
    key that ends in ['_timestamp'] ([Map<string, any>]). *)
Inductive CacheValue : Type :=
| CDocs (documents : list Document)
| CTime (timestamp : Z).

(** Calls that leave the core, recorded in the order they are made. *)
Inductive Event : Type :=
| CallGenerateEmbedding (text : jsstring)   (* EmbeddingProvider.generateEmbedding *)
| CallBackend (text : jsstring)             (* generateSingleEmbedding *)
| CallGetDocument (id : jsstring)           (* StorageProvider.getDocument *)
| CallGetAllDocuments                       (* StorageProvider.getAllDocuments *)
| CallSaveDocument (doc : Document).        (* StorageProvider.saveDocument *)

(** The mutable state: the world outside the core ([W]: clock, backend,
    store), the three caches, and the record of outgoing calls. The
    embedding cache is the [new Map()] that the README and the examples
    hand to the provider as its [EmbeddingCache]. *)
Record System (W : Type) : Type := mkSystem {
  world : W;
  trace : list Event;
  embeddingCache : gmap jsstring vector;
  documentCache : gmap jsstring CacheValue;
  searchCache : gmap jsstring (list SearchResult);
}.
Arguments mkSystem {W}.
Arguments world {W}.
Arguments trace {W}.
Arguments embeddingCache {W}.
Arguments documentCache {W}.
Arguments searchCache {W}.

Definition setWorld {W : Type} (w : W) (s : System W) : System W :=
  mkSystem w (trace s) (embeddingCache s) (documentCache s) (searchCache s).
Definition record {W : Type} (e : Event) (s : System W) : System W :=
  mkSystem (world s) (trace s ++ [e]) (embeddingCache s) (documentCache s)
           (searchCache s).
Definition setEmbeddingCache {W : Type} (c : gmap jsstring vector)
           (s : System W) : System W :=
  mkSystem (world s) (trace s) c (documentCache s) (searchCache s).
Definition setDocumentCache {W : Type} (c : gmap jsstring CacheValue)
           (s : System W) : System W :=
  mkSystem (world s) (trace s) (embeddingCache s) c (searchCache s).
Definition setSearchCache {W : Type} (c : gmap jsstring (list SearchResult))
           (s : System W) : System W :=
  mkSystem (world s) (trace s) (embeddingCache s) (documentCache s) c.

(** Two states with the same three caches. *)
Definition sameCaches {W : Type} (s s' : System W) : Prop :=
  embeddingCache s' = embeddingCache s /\
  documentCache s' = documentCache s /\
  searchCache s' = searchCache s.

(** A method body: a state transformer with an outcome. *)
Definition M (W A : Type) : Type := System W -> Result A * System W.

Definition ret {W A : Type} (a : A) : M W A := fun s => (Ok a, s).
Definition throw {W A : Type} (e : Error) : M W A := fun s => (Throw e, s).
Definition hang {W A : Type} : M W A := fun s => (Hang, s).
Definition bind {W A B : Type} (m : M W A) (k : A -> M W B) : M W B :=
  fun s =>
    match m s with
    | (Ok a, s') => k a s'
    | (Throw e, s') => (Throw e, s')
    | (Hang, s') => (Hang, s')
    end.
Definition gets {W A : Type} (f : System W -> A) : M W A := fun s => (Ok (f s), s).
Definition modify {W : Type} (f : System W -> System W) : M W unit :=
  fun s => (Ok tt, f s).
Definition liftResult {W A : Type} (r : Result A) : M W A := fun s => (r, s).
(** A call to a collaborator: it acts on the world only. *)
Definition external {W A : Type} (op : W -> Result A * W) : M W A :=
  fun s => let '(r, w) := op (world s) in (r, setWorld w s).

Notation "'let*' x ':=' m 'in' k" := (bind m (fun x => k))
  (at level 10, x name, m at level 100, k at level 200).

(** The collaborators of the core and its construction-time constants:
    the JavaScript runtime ([Date], timers, string and JSON built-ins, the
    md5 digest), the abstract [generateSingleEmbedding] of the embedding
    provider, the [StorageProvider] in use, the [EmbeddingConfig] and the
    similarity floor of the search provider. [W] is the state of the world
    outside the core. *)
Class Platform (W : Type) : Type := {
  Date_now : W -> Z * W;                  (* Date.now(), in ms since the epoch *)
  toISOString : Z -> jsstring;            (* Date.prototype.toISOString *)
  sleep : number -> W -> W;               (* the setTimeout behind delay(ms) *)
  md5hex : jsstring -> jsstring;          (* createHash('md5')...digest('hex') *)
  toLowerCase : jsstring -> jsstring;     (* String.prototype.toLowerCase *)
  JSON_stringify : number -> number -> bool -> jsstring;
                           (* JSON.stringify({limit, minSimilarity, includeMetadata}) *)
  generateSingleEmbedding : jsstring -> W -> Result vector * W;
  getDocument : jsstring -> W -> Result (option Document) * W;
  getAllDocuments : W -> Result (list Document) * W;
  saveDocument : Document -> W -> Result jsstring * W;
  config : EmbeddingConfig;
  minSimilarityThreshold : number;
}.

Section Core.

Context {W : Type} `{Platform W}.

Definition now : M W Z :=
  fun s => let '(t, w) := Date_now (world s) in (Ok t, setWorld w s).

Definition delay (ms : number) : M W unit :=
  modify (fun s => setWorld (sleep ms (world s)) s).

(** ** embeddings/baseEmbeddingProvider.ts *)

Definition createTextHash (text : jsstring) : jsstring := md5hex text.

Definition callBackend (text : jsstring) : M W vector :=
  let* _ := modify (record (CallBackend text)) in
  external (generateSingleEmbedding text).

(** The [for] loop of [generateMultiChunkEmbedding] from index [i] on;
    [total] is [chunks.length]. A failing chunk ends the loop with its
    error (the [catch] logs and rethrows). *)
Fixpoint embedChunks (chunks : list jsstring) (i total : nat)
         (embeddings : list vector) : M W (list vector) :=
  match chunks with
  | [] => ret embeddings
  | chunk :: rest =>
      let* chunkEmbedding := callBackend chunk in
      let* _ := (if (i <? total - 1)%nat then delay (ofZ 100) else ret tt) in
      embedChunks rest (S i) total (embeddings ++ [chunkEmbedding])
  end.

Definition generateMultiChunkEmbedding (text : jsstring) : M W vector :=
  match splitIntoChunks text (maxCharsPerChunk config) with
  | None => hang
  | Some chunks =>
      let* embeddings := embedChunks chunks 0 (length chunks) [] in
      liftResult (averageEmbeddings embeddings)
  end.

(** The body of the [if] only logs: no entry is removed. *)
Definition manageCacheSize : M W unit :=
  let* cache := gets embeddingCache in
  if cacheSize config <? Z.of_nat (size cache) then ret tt else ret tt.

Definition storeEmbedding (textHash : jsstring) (embedding : vector)
  : M W unit :=
  modify (fun s =>
    setEmbeddingCache (<[textHash := embedding]> (embeddingCache s)) s).

(** Lines 38-46: one backend call, or the chunked path for a long text. *)
Definition embedText (text : jsstring) : M W vector :=
  if len text <=? maxCharsPerChunk config
  then callBackend text
  else generateMultiChunkEmbedding text.

Definition generateEmbedding (text : jsstring) : M W vector :=
  let* _ := modify (record (CallGenerateEmbedding text)) in
  let textHash := createTextHash text in
  let* cache := gets embeddingCache in
  match cache !! textHash with
  | Some cached => ret cached
  | None =>
      let* _ := now in                            (* startTime *)
      let* embedding := embedText text in
      let* _ := now in                            (* endTime *)
      let* _ := storeEmbedding textHash embedding in
      let* _ := manageCacheSize in
      ret embedding
  end.

(** The state in which the embedding work of a miss starts: the call is
    on record and [startTime] has been read. *)
Definition missStart (text : jsstring) (s : System W) : System W :=
  setWorld (Date_now (world s)).2 (record (CallGenerateEmbedding text) s).

(** ** search/vectorSearchProvider.ts *)

(** [private cacheTTL = 30 * 60 * 1000], used for both caches. *)
Definition cacheTTL : Z := 30 * 60 * 1000.

Definition ALL_DOCUMENTS : jsstring := str "all_documents".
Definition timestampKey (cacheKey : jsstring) : jsstring :=
  cacheKey ++ str "_timestamp".

Definition createSearchCacheKey (query : jsstring) (options : SearchOptions)
  : jsstring :=
  let optionsKey :=
    JSON_stringify
      (orDefault (limit options) (ofZ 5))
      (orDefault (minSimilarity options) minSimilarityThreshold)
      (match includeMetadata options with Some false => false | _ => true end)
  in
  str "search_" ++ trim (toLowerCase query) ++ str "_" ++ optionsKey.

(** [if (!timestamp) return false; return Date.now() - timestamp < TTL].
    A timestamp [0] is falsy. A stored array is truthy; subtracting it
    gives NaN, or subtracts [0] when the array is empty. *)
Definition isCacheValid (cacheKey : jsstring) : M W bool :=
  let* cache := gets documentCache in
  match cache !! timestampKey cacheKey with
  | None => ret false
  | Some (CTime timestamp) =>
      if timestamp =? 0 then ret false
      else let* t := now in ret (t - timestamp <? cacheTTL)
  | Some (CDocs []) => let* t := now in ret (t <? cacheTTL)
  | Some (CDocs (_ :: _)) => let* _ := now in ret false
  end.

Definition setCacheTimestamp (cacheKey : jsstring) : M W unit :=
  let* t := now in
  modify (fun s =>
    setDocumentCache (<[timestampKey cacheKey := CTime t]> (documentCache s)) s).

Definition hasEmbedding (doc : Document) : bool :=
  match doc_embedding doc with Some _ => true | None => false end.

Definition storeSnapshot (documents : list Document) : M W unit :=
  modify (fun s =>
    setDocumentCache (<[ALL_DOCUMENTS := CDocs documents]> (documentCache s)) s).

(** Lines 100-111 of [getDocumentsWithCache]: the miss. *)
Definition refreshDocuments : M W CacheValue :=
  let* _ := modify (record CallGetAllDocuments) in
  let* documents := external getAllDocuments in
  let documentsWithEmbeddings := List.filter hasEmbedding documents in
  let* _ := storeSnapshot documentsWithEmbeddings in
  let* _ := setCacheTimestamp ALL_DOCUMENTS in
  ret (CDocs documentsWithEmbeddings).

(** On a hit it returns what [documentCache.get] returns (typed [any]). *)
Definition getDocumentsWithCache : M W CacheValue :=
  let* cache := gets documentCache in
  match cache !! ALL_DOCUMENTS with
  | Some cached =>
      let* valid := isCacheValid ALL_DOCUMENTS in
      if valid : bool then ret cached else refreshDocuments
  | None => refreshDocuments
  end.

Definition storeResults (cacheKey : jsstring) (results : list SearchResult)
  : M W unit :=
  modify (fun s =>
    setSearchCache (<[cacheKey := results]> (searchCache s)) s).

(** Lines 48-82 of [searchSimilar]: the query cache missed. *)
Definition searchFresh (query : jsstring) (options : SearchOptions)
           (cacheKey : jsstring) : M W (list SearchResult) :=
  let* _ := now in                                (* embeddingStartTime *)
  let* queryEmbedding := generateEmbedding query in
  let* _ := now in
  let* _ := now in                                (* documentsStartTime *)
  let* cached := getDocumentsWithCache in
  let* _ := now in
  let* _ := now in                                (* similarityStartTime *)
  match cached with
  | CTime _ => throw NotIterable
  | CDocs documents =>
      let results :=
        calculateSimilarities minSimilarityThreshold queryEmbedding documents in
      let* _ := now in
      let finalResults := applySearchOptions results options in
      let* _ := storeResults cacheKey finalResults in
      let* _ := setCacheTimestamp cacheKey in
      let* _ := now in                            (* totalTime *)
      ret finalResults
  end.

(** The shape of the document cache in every state the system reaches:
    what sits under a key ending in ['_timestamp'] is a reading of the
    clock ([boot_stamped], [searchSimilar_stamped],
    [updateDocument_stamped]). *)
Definition stampedCache (cache : gmap jsstring CacheValue) : Prop :=
  forall cacheKey v,
    cache !! timestampKey cacheKey = Some v -> exists t, v = CTime t.

Definition stamped (s : System W) : Prop := stampedCache (documentCache s).

(** The state after a reading of the clock, such as the [startTime]
    reading that opens [searchSimilar]. *)
Definition started (s : System W) : System W :=
  setWorld (Date_now (world s)).2 s.

(** Lines 37-82 of [searchSimilar]: the request has passed validation. *)
Definition answerQuery (query : jsstring) (options : SearchOptions)
  : M W (list SearchResult) :=
  let cacheKey := createSearchCacheKey query options in
  let* cache := gets searchCache in
  match cache !! cacheKey with
  | Some cachedResults =>
      let* valid := isCacheValid cacheKey in
      if valid : bool then ret cachedResults
      else searchFresh query options cacheKey
  | None => searchFresh query options cacheKey
  end.

Definition searchSimilar (query : jsstring) (options : SearchOptions)
  : M W (list SearchResult) :=
  let* _ := now in                                (* startTime *)
  let* _ := liftResult (validateQuery query) in
  let* _ := liftResult (validateOptions options) in
  answerQuery query options.

(** [invalidateDocumentCache()] *)
Definition invalidateDocumentCache : M W unit :=
  modify (fun s =>
    setSearchCache ∅
      (setDocumentCache
         (delete (timestampKey ALL_DOCUMENTS)
                 (delete ALL_DOCUMENTS (documentCache s))) s)).

(** ** knowledgeManagementSystem.ts *)

(** The defaults of the constructor. *)
Definition defaultConfig : KnowledgeBaseConfig :=
  mkKnowledgeBaseConfig 100 1800 3600.

(** [{limit: 5, minSimilarity: 0.1, includeMetadata: true, ...options}]:
    a property that [options] carries replaces the default, also when its
    value is [undefined]. *)
Definition withSearchDefaults (options : OptionsObject) : SearchOptions :=
  mkSearchOptions
    (spreadOver (ofZ 5) (limitProperty options))
    (spreadOver (ratio 1 10) (minSimilarityProperty options))
    (spreadOver true (includeMetadataProperty options)).

Definition search (query : jsstring) (options : OptionsObject)
  : M W (list SearchResult) :=
  searchSimilar query (withSearchDefaults options).

Definition UPDATED_AT : jsstring := str "updatedAt".

(** A string argument is taken as given when it is truthy, that is when
    it is present and not empty. *)
Definition provided (content : option jsstring) : option jsstring :=
  match content with
  | Some c => if 0 <? len c then Some c else None
  | None => None
  end.

(** [{...existingDoc.metadata, ...metadata, updatedAt: <now>}] *)
Definition mergeMetadata (stored : Metadata) (supplied : option Metadata)
           (stamp : jsstring) : Metadata :=
  <[UPDATED_AT := VString stamp]> (default ∅ supplied ∪ stored).

(** The document [updateDocument] hands to the store when the content is
    left as it is. *)
Definition metadataUpdate (id : jsstring) (existingDoc : Document)
           (metadata : option Metadata) (stamp : jsstring) : Document :=
  mkDocument id (doc_content existingDoc)
             (mergeMetadata (doc_metadata existingDoc) metadata stamp)
             (doc_embedding existingDoc).

Definition updateDocument (id : jsstring) (content : option jsstring)
           (metadata : option Metadata) : M W unit :=
  let* _ := modify (record (CallGetDocument id)) in
  let* existing := external (getDocument id) in
  match existing with
  | None => throw (DocumentNotFound id)
  | Some existingDoc =>
      let updatedContent := default (doc_content existingDoc) (provided content) in
      let* t := now in                            (* new Date() *)
      let updatedMetadata :=
        mergeMetadata (doc_metadata existingDoc) metadata (toISOString t) in
      let* embedding :=
        match provided content with
        | Some c =>
            if bool_decide (c = doc_content existingDoc)
            then ret (doc_embedding existingDoc)
            else let* e := generateEmbedding updatedContent in ret (Some e)
        | None => ret (doc_embedding existingDoc)
        end in
      let updatedDoc := mkDocument id updatedContent updatedMetadata embedding in
      let* _ := modify (record (CallSaveDocument updatedDoc)) in
      let* _ := external (saveDocument updatedDoc) in
      invalidateDocumentCache
  end.

End Core.

(* ===================================================================== *)
(** * embeddings/googleEmbeddingProvider.ts                               *)
(* ===================================================================== *)

Section GoogleEmbeddingProvider.

Context {W A : Type}.
Variable sleep : number -> W -> W.

(** The [for (attempt = 1; attempt <= maxRetries; attempt++)] loop of
    [retryWrapper]; [remaining] counts the attempts still to make. A
    failed attempt that is not the last one waits [delayMs] and
    multiplies it by 1.5; when the loop runs out it throws the last
    error. *)
Fixpoint retryLoop (operation : W -> Result A * W) (remaining : nat)
         (delayMs : number) (lastError : Error) (w : W) : Result A * W :=
  match remaining with
  | O => (Throw lastError, w)
  | S remaining' =>
      match operation w with
      | (Ok a, w') => (Ok a, w')
      | (Hang, w') => (Hang, w')
      | (Throw e, w') =>
          match remaining' with
          | O => retryLoop operation remaining' delayMs e w'
          | S _ =>
              retryLoop operation remaining' (mul delayMs (ratio 3 2)) e
                        (sleep delayMs w')
          end
      end
  end.

(** [retryWrapper(operation)] with the defaults [maxRetries = 3] and
    [delayMs = 1000]. The error thrown with no attempt made ([undefined]
    in the sources) cannot arise with three attempts. *)
Definition retryWrapper (operation : W -> Result A * W) : W -> Result A * W :=
  retryLoop operation 3 (ofZ 1000) (External 0).

End GoogleEmbeddingProvider.

(** [GoogleEmbeddingProvider.generateSingleEmbedding]: [embedContent] is one
    attempt at the backend, the race against the 30 s timer included. *)
Definition googleGenerateSingleEmbedding {W : Type} (sleep : number -> W -> W)
           (embedContent : jsstring -> W -> Result vector * W)
           (text : jsstring) : W -> Result vector * W :=
  retryWrapper sleep (embedContent text).

(* ===================================================================== *)
(** * A small world to run the system in                                  *)
(* ===================================================================== *)

(** A clock that advances by one millisecond at every reading, a store
    held in a list, and a backend that embeds a text as
    [(length, number of spaces)] and rejects the texts of [rejected]. *)
Module Lab.

Record World : Type := mkWorld {
  clock : Z;
  stored : list Document;
  rejected : list jsstring;
}.

Definition readClock (w : World) : Z * World :=
  (clock w, mkWorld (clock w + 1) (stored w) (rejected w)).

Definition pause (ms : number) (w : World) : World := w.

Definition isoStamp (t : Z) : jsstring := [N.of_nat (Z.to_nat t)].

Definition digest (text : jsstring) : jsstring := text.

Definition lower (c : N) : N :=
  if (65 <=? c)%N && (c <=? 90)%N then (c + 32)%N else c.
Definition lowerCase (s : jsstring) : jsstring := map lower s.

Definition digit (x : number) : N :=
  match x with
  | S754_finite false m e => N.of_nat (Z.to_nat (Z.shiftl (Zpos m) e))
  | _ => 0%N
  end.
Definition optionsKey (limit minSimilarity : number) (meta : bool)
  : jsstring :=
  [digit limit; digit (mul minSimilarity (ofZ 1000)); if meta then 1%N else 0%N].

Definition countSpaces (s : jsstring) : nat :=
  length (List.filter (fun c => (c =? 32)%N) s).

Definition embedContent (text : jsstring) (w : World)
  : Result vector * World :=
  if bool_decide (text ∈ rejected w) then (Throw (External 503), w)
  else (Ok [ofNat (length text); ofNat (countSpaces text)], w).

Definition embedOnce := googleGenerateSingleEmbedding pause embedContent.

Definition fetch (id : jsstring) (w : World)
  : Result (option Document) * World :=
  (Ok (List.find (fun d => bool_decide (doc_id d = id)) (stored w)), w).

Definition fetchAll (w : World) : Result (list Document) * World :=
  (Ok (stored w), w).

Definition persist (doc : Document) (w : World)
  : Result jsstring * World :=
  (Ok (doc_id doc),
   mkWorld (clock w)
           (List.filter (fun d => negb (bool_decide (doc_id d = doc_id doc)))
                        (stored w) ++ [doc])
           (rejected w)).

Definition boot (w : World) : System World := mkSystem w [] ∅ ∅ ∅.

Definition platform (cfg : EmbeddingConfig) (floor : number) : Platform World := {|
  Date_now := readClock;
  toISOString := isoStamp;
  sleep := pause;
  md5hex := digest;
  toLowerCase := lowerCase;
  JSON_stringify := optionsKey;
  generateSingleEmbedding := embedOnce;
  getDocument := fetch;
  getAllDocuments := fetchAll;
  saveDocument := persist;
  config := cfg;
  minSimilarityThreshold := floor;
|}.

Definition stdConfig : EmbeddingConfig := mkEmbeddingConfig 8000 100.

(** A deployment with chunks of four characters and a cache bound of one. *)
Definition tiny : Platform World := platform (mkEmbeddingConfig 4 1) (ratio 1 10).

(** The same, with a store of six documents and the usual chunk size. *)
Definition usual : Platform World := platform stdConfig (ratio 1 10).

Definition threeWords : jsstring := str "aaaa bbbb cccc".
Definition blanks : jsstring := str "      ".

(** A world whose backend rejects the chunk ["bbbb"]. *)
Definition flaky : World := mkWorld 1000 [] [str "bbbb"].
Definition calm : World := mkWorld 1000 [] [].

Definition plainDoc (name : string) (text : string) : Document :=
  mkDocument (str name) (str text) ∅
             (Some [ofNat (length (str text)); ofNat (countSpaces (str text))]).

Definition six : list Document :=
  [plainDoc "d1" "a b"; plainDoc "d2" "a bc"; plainDoc "d3" "ab cd";
   plainDoc "d4" "a b c"; plainDoc "d5" "abc de"; plainDoc "d6" "a bcdef"].

Definition library : World := mkWorld 1000 six [].
Definition question : jsstring := str "x y".

(** A first search over the six documents, with no option given. *)
Definition firstSearch : Result (list SearchResult) * System World :=
  searchSimilar (H := usual) question noOptions (boot library).

Definition firstResults : list SearchResult :=
  match firstSearch.1 with Ok results => results | _ => [] end.

(** The same question asked again, now with [limit: 5]. *)
Definition limitFive : SearchOptions := mkSearchOptions (Some (ofZ 5)) None None.
Definition secondSearch : Result (list SearchResult) * System World :=
  searchSimilar (H := usual) question limitFive firstSearch.2.

(** The document snapshot is taken at 1000 ms and asked for again 1800 s
    later. *)
Definition snapshotTaken : System World :=
  (getDocumentsWithCache (H := usual) (boot library)).2.
Definition halfAnHourLater : System World :=
  setWorld (mkWorld (1000 + 1800 * 1000) six []) snapshotTaken.
Definition snapshotAskedAgain : Result CacheValue * System World :=
  getDocumentsWithCache (H := usual) halfAnHourLater.

(** A stored note and an update that supplies a title and no content. *)
Definition TIMESTAMP : jsstring := str "timestamp".
Definition TITLE : jsstring := str "title".
Definition noteMetadata : Metadata := {[ TIMESTAMP := VString (str "2024") ]}.
Definition note : Document :=
  mkDocument (str "n1") (str "hello world") noteMetadata (Some [ofZ 11; ofZ 1]).
Definition newTitle : Metadata := {[ TITLE := VString (str "Greeting") ]}.
Definition desk : World := mkWorld 1000 [note] [].
Definition titleUpdate : Result unit * System World :=
  updateDocument (H := usual) (str "n1") None (Some newTitle) (boot desk).

(** Three texts embedded one after the other with [cacheSize = 1]. *)
Definition threeTexts : System World :=
  let s1 := (generateEmbedding (H := tiny) (str "a") (boot calm)).2 in
  let s2 := (generateEmbedding (H := tiny) (str "b") s1).2 in
  (generateEmbedding (H := tiny) (str "c") s2).2.

(** Embedding three words while the backend rejects the second chunk. *)
Definition flakyRun : Result vector * System World :=
  generateEmbedding (H := tiny) threeWords (boot flaky).

End Lab.

(* ===================================================================== *)
(** * utils/textSplitter.ts: the other methods                            *)
(* ===================================================================== *)

Record TextChunk : Type := mkTextChunk {
  content : jsstring;
  index : Z;
  startPosition : Z;
  endPosition : Z;
}.

(** The [while] loop of [splitIntoDetailedChunks], lines 55-81: the loop
    of [splitIntoChunks] with a counter of the chunks pushed so far. *)
Fixpoint detailedLoop (fuel : nat) (text : jsstring) (maxChars : Z)
         (currentPos chunkIndex : Z) (chunks : list TextChunk)
  : option (list TextChunk) :=
  match fuel with
  | O => None
  | S fuel' =>
      if currentPos <? len text then
        let endPos := nextEndPos text maxChars currentPos in
        let content := trim (substring text currentPos endPos) in
        if 0 <? len content then
          detailedLoop fuel' text maxChars endPos (chunkIndex + 1)
            (chunks ++ [mkTextChunk content chunkIndex currentPos endPos])
        else detailedLoop fuel' text maxChars endPos chunkIndex chunks
      else Some chunks
  end.

Definition splitIntoDetailedChunks (text : jsstring) (maxChars : Z)
  : option (list TextChunk) :=
  detailedLoop (S (length text)) text maxChars 0 0 [].

(** The characters of the class [[.!?]]. *)
Definition isSentenceEnd (c : N) : bool :=
  (c =? 46)%N || (c =? 33)%N || (c =? 63)%N.

(** [s.split(/[p]+/)] for a character class [p]: the pieces between the
    maximal runs of class characters. A run at the start or at the end of
    the string leaves an empty piece there. [piece] is the piece being
    read, [inRun] tells that the previous character belonged to a run. *)
Fixpoint splitAtRuns (p : N -> bool) (s : jsstring) (piece : jsstring)
         (inRun : bool) : list jsstring :=
  match s with
  | [] => [piece]
  | c :: s' =>
      if p c then
        if inRun then splitAtRuns p s' [] true
        else piece :: splitAtRuns p s' [] true
      else splitAtRuns p s' (piece ++ [c]) false
  end.

(** [s.split('\n\n')]: the occurrences of the separator are taken from
    left to right and do not overlap. *)
Fixpoint splitAtBlankLines (s : jsstring) (piece : jsstring)
  : list jsstring :=
  match s with
  | [] => [piece]
  | c :: s' =>
      match s' with
      | c' :: rest =>
          if (c =? NEWLINE)%N && (c' =? NEWLINE)%N
          then piece :: splitAtBlankLines rest []
          else splitAtBlankLines s' (piece ++ [c])
      | [] => [piece ++ [c]]
      end
  end.

(** [s => s.trim().length > 0] *)
Definition notBlank (s : jsstring) : bool := 0 <? len (trim s).

Definition calculateAverageSentenceLength (text : jsstring) : number :=
  let sentences := List.filter notBlank (splitAtRuns isSentenceEnd text [] false) in
  if (length sentences =? 0)%nat then zero
  else
    let totalLength := fold_left (fun sum sentence => sum + len sentence) sentences 0 in
    div (ofZ totalLength) (ofNat (length sentences)).

Definition hasLongParagraphs (text : jsstring) : bool :=
  let paragraphs := List.filter notBlank (splitAtBlankLines text []) in
  existsb (fun paragraph => 1000 <? len paragraph) paragraphs.

Definition estimateOptimalChunkSize (text : jsstring) : Z :=
  let avgSentenceLength := calculateAverageSentenceLength text in
  let optimalSize :=
    if gtb avgSentenceLength (ofZ 200) then 10000
    else if ltb avgSentenceLength (ofZ 50) then 6000
    else 8000 in
  let optimalSize :=
    if hasLongParagraphs text then optimalSize + 2000 else optimalSize in
  Z.min optimalSize 12000.

(** The characters a chunk keeps of its window: all but white space at
    the two ends. *)
Definition visible (s : jsstring) : jsstring :=
  List.filter (fun c => negb (isWhiteSpace c)) s.

(* ===================================================================== *)
(** * utils/similarity.ts: the other methods                              *)
(* ===================================================================== *)

(** [Math.abs] *)
Definition abs : number -> number := SFabs.

(** [x === 0] on numbers: true of [0] and [-0] only. *)
Definition isExactlyZero (x : number) : bool := SFeqb x zero.

(** [Number.isFinite]: neither NaN nor an infinity. *)
Definition isFiniteNumber (x : number) : bool :=
  match x with
  | S754_zero _ | S754_finite _ _ _ => true
  | _ => false
  end.

Fixpoint euclideanLoop (vecA vecB : vector) (sum : number) : number :=
  match vecA, vecB with
  | a :: vecA', b :: vecB' =>
      let diff := sub a b in
      euclideanLoop vecA' vecB' (add sum (mul diff diff))
  | _, _ => sum
  end.

Definition euclideanDistance (vecA vecB : vector) : Result number :=
  if negb (length vecA =? length vecB)%nat then Throw VectorsLengthMismatch
  else Ok (sqrt (euclideanLoop vecA vecB zero)).

Fixpoint manhattanLoop (vecA vecB : vector) (sum : number) : number :=
  match vecA, vecB with
  | a :: vecA', b :: vecB' =>
      manhattanLoop vecA' vecB' (add sum (abs (sub a b)))
  | _, _ => sum
  end.

Definition manhattanDistance (vecA vecB : vector) : Result number :=
  if negb (length vecA =? length vecB)%nat then Throw VectorsLengthMismatch
  else Ok (manhattanLoop vecA vecB zero).

Definition normalize (vec : vector) : vector :=
  let magnitude := sqrt (sumOfSquares vec zero) in
  if isExactlyZero magnitude then vec
  else map (fun val => div val magnitude) vec.

(** The errors of [weightedAverageEmbeddings] and of the methods that
    follow, beside those of [Error]. *)
Inductive Failure : Type :=
| Core (e : Error)
| WeightsLengthMismatch  (* 'Embeddings and weights arrays must have the same length' *)
| ZeroTotalWeight        (* 'Total weight cannot be zero' *)
| EmptyContent           (* 'Document content cannot be empty' *)
| DocumentIdRequired     (* 'Document ID is required' *)
| DocumentTimestampRequired.   (* 'Document timestamp is required' *)

Inductive Outcome (A : Type) : Type :=
| Returns (a : A)
| Fails (f : Failure)
| Diverges.
Arguments Returns {A} a.
Arguments Fails {A} f.
Arguments Diverges {A}.

Definition outcome {A : Type} (r : Result A) : Outcome A :=
  match r with
  | Ok a => Returns a
  | Throw e => Fails (Core e)
  | Hang => Diverges
  end.

(** [weightedEmbedding[j] += embedding[j] * weight] for [j < dimension]. *)
Definition addWeighted (weightedEmbedding embedding : vector) (weight : number)
  : vector :=
  zip_with (fun acc x => add acc (mul x weight)) weightedEmbedding embedding.

(** The loop over [i]; both arrays have the same length when it starts. *)
Fixpoint weightedLoop (embeddings : list vector) (weights : list number)
         (dimension : nat) (weightedEmbedding : vector) : Outcome vector :=
  match embeddings, weights with
  | embedding :: embeddings', weight :: weights' =>
      if negb (length embedding =? dimension)%nat
      then Fails (Core EmbeddingDimensionMismatch)
      else weightedLoop embeddings' weights' dimension
             (addWeighted weightedEmbedding embedding weight)
  | _, _ => Returns weightedEmbedding
  end.

Definition weightedAverageEmbeddings (embeddings : list vector)
           (weights : list number) : Outcome vector :=
  if negb (length embeddings =? length weights)%nat
  then Fails WeightsLengthMismatch
  else
    match embeddings with
    | [] => Fails (Core EmptyEmbeddingsArray)
    | first :: _ =>
        let dimension := length first in
        let totalWeight := fold_left add weights zero in
        if isExactlyZero totalWeight then Fails ZeroTotalWeight
        else
          match weightedLoop embeddings weights dimension
                             (replicate dimension zero) with
          | Returns total => Returns (map (fun x => div x totalWeight) total)
          | failure => failure
          end
    end.

(* ===================================================================== *)
(** * Metadata as the providers read it                                   *)
(* ===================================================================== *)

(** ToBoolean on a metadata value. *)
Definition toBoolean (v : jsvalue) : bool :=
  match v with
  | VUndefined | VNull => false
  | VBool b => b
  | VNumber x => truthy x
  | VString s => 0 <? len s
  end.

(** [a === b] on metadata values: NaN differs from itself, [0] equals
    [-0]. The values are the primitive ones of [jsvalue]; an object or an
    array, which [===] compares by identity, is not among them. *)
Definition strictEquals (a b : jsvalue) : bool :=
  match a, b with
  | VUndefined, VUndefined => true
  | VNull, VNull => true
  | VBool x, VBool y => Bool.eqb x y
  | VNumber x, VNumber y => SFeqb x y
  | VString x, VString y => bool_decide (x = y)
  | _, _ => false
  end.

(** [object[key]]: [undefined] when the property is missing. *)
Definition getProperty (object : Metadata) (key : jsstring) : jsvalue :=
  default VUndefined (object !! key).

(** [Object.entries(wanted).every(([key, value]) => metadata[key] === value)] *)
Definition matchesAll (wanted metadata : Metadata) : bool :=
  forallb (fun entry => strictEquals (getProperty metadata entry.1) entry.2)
          (map_to_list wanted).

Definition TIMESTAMP : jsstring := str "timestamp".


(* ===================================================================== *)
(** * The other methods of the providers                                  *)
(* ===================================================================== *)

Section Providers.

Context {W : Type} `{Platform W}.

(** The state [invalidateDocumentCache] leaves: no query result and no
    document snapshot is cached. *)
Definition invalidated (s : System W) : Prop :=
  searchCache s = ∅ /\
  documentCache s !! ALL_DOCUMENTS = None /\
  documentCache s !! timestampKey ALL_DOCUMENTS = None.

(** The search provider's two caches are in [s'] what they are in [s]. *)
Definition searchCachesKept (s s' : System W) : Prop :=
  documentCache s' = documentCache s /\ searchCache s' = searchCache s.

(** [VectorSearchProvider.clearCache()] *)
Definition clearCache : M W unit :=
  modify (fun s => setSearchCache ∅ (setDocumentCache ∅ s)).


(** [BaseStorageProvider.updateDocumentMetadata]: the stored document is
    saved again with its metadata replaced. *)
Definition updateDocumentMetadata (id : jsstring) (metadata : Metadata)
  : M W unit :=
  let* _ := modify (record (CallGetDocument id)) in
  let* found := external (getDocument id) in
  match found with
  | None => throw (DocumentNotFound id)
  | Some document =>
      let* t := now in                            (* new Date() *)
      let document' :=
        mkDocument (doc_id document) (doc_content document)
                   (mergeMetadata (doc_metadata document) (Some metadata)
                                  (toISOString t))
                   (doc_embedding document) in
      let* _ := modify (record (CallSaveDocument document')) in
      let* _ := external (saveDocument document') in
      ret tt
  end.

(** [BaseStorageProvider.searchByMetadata] *)
Definition searchByMetadata (query : Metadata) : M W (list Document) :=
  let* _ := modify (record CallGetAllDocuments) in
  let* allDocuments := external getAllDocuments in
  ret (List.filter (fun doc => matchesAll query (doc_metadata doc)) allDocuments).

End Providers.

(* ===================================================================== *)
(** * knowledgeManagementSystem.ts: the other methods                     *)
(* ===================================================================== *)

(** [{ success: boolean; deletedCount: number }] *)
Record ClearResult : Type := mkClearResult {
  success : bool;
  deletedCount : Z;
}.

(** What the facade uses beside [Platform]: [v4] of the uuid package and
    the two remaining methods of the [StorageProvider]. Their calls act
    on the world; the trace keeps to the calls of [Event]. *)
Class Store (W : Type) : Type := {
  uuidv4 : W -> jsstring * W;
  storeDeleteDocument : jsstring -> W -> Result unit * W;
  storeClearAllDocuments : W -> Result ClearResult * W;
}.

Section Facade.

Context {W : Type} `{Platform W} {store : Store W}.

Definition generateDocumentId : M W jsstring :=
  fun s => let '(id, w) := uuidv4 (world s) in (Ok id, setWorld w s).

(** [metadata.timestamp || new Date().toISOString()]: the clock is read
    only when the supplied timestamp is missing or falsy. *)
Definition timestampOrNow (metadata : Metadata) : M W jsvalue :=
  if toBoolean (getProperty metadata TIMESTAMP)
  then ret (getProperty metadata TIMESTAMP)
  else let* t := now in ret (VString (toISOString t)).

(** The document of lines 64-72. *)
Definition newDocument (id content : jsstring) (metadata : Metadata)
           (timestamp : jsvalue) (embedding : vector) : Document :=
  mkDocument id content (<[TIMESTAMP := timestamp]> metadata) (Some embedding).

(** Lines 56-84 of [addDocument]: the content has passed the test. *)
Definition addDocumentBody (content : jsstring) (metadata : Metadata)
  : M W jsstring :=
  let* _ := now in                                (* embeddingStartTime *)
  let* embedding := generateEmbedding content in
  let* _ := now in
  let* id := generateDocumentId in
  let* timestamp := timestampOrNow metadata in
  let document := newDocument id content metadata timestamp embedding in
  let* _ := modify (record (CallSaveDocument document)) in
  let* docId := external (saveDocument document) in
  let* _ := invalidateDocumentCache in
  ret docId.

(** [addDocument(content, metadata = {})] *)
Definition addDocument (content : jsstring) (metadata : Metadata)
  : System W -> Outcome jsstring * System W :=
  fun s =>
    if (len content =? 0) || (len (trim content) =? 0)
    then (Fails EmptyContent, s)
    else let '(r, s') := addDocumentBody content metadata s in (outcome r, s').

Definition deleteDocument (id : jsstring) : M W unit :=
  let* _ := external (storeDeleteDocument id) in
  invalidateDocumentCache.

Definition clearAllDocuments : M W ClearResult :=
  let* result := external storeClearAllDocuments in
  let* _ := clearCache in
  ret result.

End Facade.

(* ===================================================================== *)
(** * A store for the small world                                         *)
(* ===================================================================== *)

(** Identifiers made from the clock, and a store that deletes from the
    list of [Lab.World]. *)
Module Bench.

Definition newId (w : Lab.World) : jsstring * Lab.World :=
  (str "doc-" ++ Lab.isoStamp (Lab.clock w), w).

Definition remove (id : jsstring) (w : Lab.World) : Result unit * Lab.World :=
  (Ok tt,
   Lab.mkWorld (Lab.clock w)
     (List.filter (fun d => negb (bool_decide (doc_id d = id))) (Lab.stored w))
     (Lab.rejected w)).

Definition removeAll (w : Lab.World) : Result ClearResult * Lab.World :=
  (Ok (mkClearResult true (Z.of_nat (length (Lab.stored w)))),
   Lab.mkWorld (Lab.clock w) [] (Lab.rejected w)).

Definition store : Store Lab.World := {|
  uuidv4 := newId;
  storeDeleteDocument := remove;
  storeClearAllDocuments := removeAll;
|}.

(** A search with [limit: NaN] over the six documents of [Lab.library],
    and the same question asked afterwards with no option. *)
Definition limitNaN : SearchOptions := mkSearchOptions (Some NaN) None None.
Definition nanSearch : Result (list SearchResult) * System Lab.World :=
  searchSimilar (H := Lab.usual) Lab.question limitNaN (Lab.boot Lab.library).
Definition searchAfterNaN : Result (list SearchResult) * System Lab.World :=
  searchSimilar (H := Lab.usual) Lab.question noOptions nanSearch.2.


End Bench.

(* ===================================================================== *)
(** * Properties of the string operations                                 *)
(* ===================================================================== *)

Section StringFacts.

Lemma len_nonneg (s : jsstring) : 0 <= len s.
Proof. unfold len. lia. Qed.

Lemma trimStart_length (s : jsstring) : (length (trimStart s) <= length s)%nat.
Proof.
  induction s as [|c s IH]; simpl; [lia|].
  destruct (isWhiteSpace c); simpl; lia.
Qed.

Lemma trim_length (s : jsstring) : (length (trim s) <= length s)%nat.
Proof.
  unfold trim, trimEnd. rewrite length_rev.
  etransitivity; [apply trimStart_length|]. rewrite length_rev.
  apply trimStart_length.
Qed.

Lemma trimStart_whitespace (s : jsstring) :
  forallb isWhiteSpace s = true -> trimStart s = [].
Proof.
  induction s as [|c s IH]; simpl; [reflexivity|].
  intros [Hc Hs]%andb_prop. rewrite Hc. auto.
Qed.

Lemma trim_whitespace (s : jsstring) :
  forallb isWhiteSpace s = true -> trim s = [].
Proof.
  intros H. unfold trim, trimEnd. rewrite (trimStart_whitespace s H).
  reflexivity.
Qed.

Lemma substring_length (s : jsstring) (a b : Z) :
  0 <= a -> a <= b -> b <= len s ->
  len (substring s a b) = b - a.
Proof.
  intros Ha Hab Hb. unfold substring, clamp, len in *.
  rewrite length_take, length_drop. lia.
Qed.

Lemma substring_length_le (s : jsstring) (a b : Z) :
  0 <= a -> a <= b -> len (substring s a b) <= b - a.
Proof.
  intros Ha Hab. unfold substring, clamp, len in *.
  rewrite length_take, length_drop. lia.
Qed.

Lemma forallb_take {A} (f : A -> bool) (n : nat) (l : list A) :
  forallb f l = true -> forallb f (take n l) = true.
Proof.
  revert n. induction l as [|x l IH]; intros [|n]; simpl; auto.
  intros [Hx Hl]%andb_prop. rewrite Hx. simpl. auto.
Qed.

Lemma forallb_drop {A} (f : A -> bool) (n : nat) (l : list A) :
  forallb f l = true -> forallb f (drop n l) = true.
Proof.
  revert n. induction l as [|x l IH]; intros [|n]; simpl; auto.
  intros [Hx Hl]%andb_prop. auto.
Qed.

Lemma substring_whitespace (s : jsstring) (a b : Z) :
  forallb isWhiteSpace s = true ->
  forallb isWhiteSpace (substring s a b) = true.
Proof.
  intros H. unfold substring. apply forallb_take, forallb_drop, H.
Qed.

Lemma scanDown_bounds (s : jsstring) (ch : N) (i : nat) :
  -1 <= scanDown s ch i <= Z.of_nat i.
Proof.
  induction i as [|i IH]; cbn [scanDown]; repeat case_match; lia.
Qed.

(** [lastIndexOf] answers [-1] or an index not beyond the start
    position, and the start position itself is a possible answer. *)
Lemma lastIndexOf_bounds (s : jsstring) (ch : N) (p : Z) :
  -1 <= lastIndexOf s ch p /\
  lastIndexOf s ch p <= Z.max p 0 /\
  lastIndexOf s ch p < Z.max (len s) 0.
Proof.
  unfold lastIndexOf. pose proof (len_nonneg s) as Hl.
  destruct (len s <? 1) eqn:E.
  - lia.
  - apply Z.ltb_ge in E.
    pose proof (scanDown_bounds s ch (Z.to_nat (clamp 0 (len s - 1) p))) as Hb.
    unfold clamp in *. lia.
Qed.

End StringFacts.

(* ===================================================================== *)
(** * Properties of [TextSplitter]                                        *)
(* ===================================================================== *)

Section SplitterFacts.

Variable text : jsstring.
Variable maxChars : Z.

(** The boundary rule: the cut is either one past an accepted boundary,
    which lies beyond [currentPos + 0.8 * maxChars], or the hard cut
    [min (currentPos + maxChars) length]. *)
Lemma nextEndPos_cases (currentPos : Z) :
  (exists bestCutPoint,
      nextEndPos text maxChars currentPos = bestCutPoint + 1 /\
      4 * maxChars < 5 * (bestCutPoint - currentPos) /\
      currentPos + maxChars < len text /\
      bestCutPoint <= Z.max (currentPos + maxChars) 0)
  \/ nextEndPos text maxChars currentPos
     = Z.min (currentPos + maxChars) (len text).
Proof.
  unfold nextEndPos.
  destruct (Z.min (currentPos + maxChars) (len text) <? len text) eqn:E;
    [|right; reflexivity].
  apply Z.ltb_lt in E.
  match goal with |- context [4 * maxChars <? ?x] =>
    destruct (4 * maxChars <? x) eqn:E2 end; [|right; reflexivity].
  apply Z.ltb_lt in E2. left. eexists. split; [reflexivity|].
  split; [exact E2|].
  set (e := Z.min (currentPos + maxChars) (len text)) in *.
  pose proof (lastIndexOf_bounds text PERIOD e) as (_ & H1 & _).
  pose proof (lastIndexOf_bounds text NEWLINE e) as (_ & H2 & _).
  pose proof (lastIndexOf_bounds text SPACE e) as (_ & H3 & _).
  subst e. lia.
Qed.

Hypothesis maxChars_pos : 1 <= maxChars.

(** Every iteration moves the cursor forward, by [maxChars + 1] at most,
    and never past the end. *)
Lemma nextEndPos_bounds (currentPos : Z) :
  0 <= currentPos < len text ->
  currentPos < nextEndPos text maxChars currentPos <= len text /\
  nextEndPos text maxChars currentPos <= currentPos + maxChars + 1.
Proof.
  intros Hc. unfold nextEndPos.
  destruct (Z.min (currentPos + maxChars) (len text) <? len text) eqn:E;
    [|lia].
  apply Z.ltb_lt in E.
  set (e := Z.min (currentPos + maxChars) (len text)) in *.
  pose proof (lastIndexOf_bounds text PERIOD e) as (_ & H1 & H1').
  pose proof (lastIndexOf_bounds text NEWLINE e) as (_ & H2 & H2').
  pose proof (lastIndexOf_bounds text SPACE e) as (_ & H3 & H3').
  match goal with |- context [4 * maxChars <? ?x] =>
    destruct (4 * maxChars <? x) eqn:E2 end.
  - apply Z.ltb_lt in E2. subst e. lia.
  - subst e. lia.
Qed.

(** The loop ends within [length - currentPos + 1] tests, and every chunk
    it adds satisfies any property that holds of all trimmed windows. *)
Lemma splitLoop_returns (P : jsstring -> Prop) :
  (forall currentPos, 0 <= currentPos < len text ->
      let chunk := trim (substring text currentPos
                                   (nextEndPos text maxChars currentPos)) in
      0 < len chunk -> P chunk) ->
  forall fuel currentPos chunks,
    0 <= currentPos <= len text ->
    len text - currentPos < Z.of_nat fuel ->
    exists added,
      splitLoop fuel text maxChars currentPos chunks = Some (chunks ++ added)
      /\ Forall P added.
Proof.
  intros HP. induction fuel as [|fuel IH]; intros currentPos chunks Hc Hf.
  - lia.
  - simpl. destruct (currentPos <? len text) eqn:E.
    + apply Z.ltb_lt in E.
      destruct (nextEndPos_bounds currentPos) as [Hn Hn']; [lia|].
      specialize (HP currentPos (conj (proj1 Hc) E)). simpl in HP.
      set (chunk := trim (substring text currentPos
                                    (nextEndPos text maxChars currentPos))) in *.
      destruct (0 <? len chunk) eqn:E3.
      * apply Z.ltb_lt in E3.
        destruct (IH (nextEndPos text maxChars currentPos) (chunks ++ [chunk]))
          as (added & Hs & Ha); [lia|lia|].
        exists (chunk :: added). split.
        -- rewrite Hs. f_equal. rewrite <- app_assoc. reflexivity.
        -- constructor; auto.
      * destruct (IH (nextEndPos text maxChars currentPos) chunks)
          as (added & Hs & Ha); [lia|lia|].
        exists added. auto.
    + exists []. rewrite app_nil_r. auto.
Qed.

(** With a positive [maxChars], [splitIntoChunks] returns. *)
Lemma splitIntoChunks_returns :
  exists chunks, splitIntoChunks text maxChars = Some chunks.
Proof.
  destruct (splitLoop_returns (fun _ => True) (fun _ _ _ => I)
              (S (length text)) 0 []) as (added & H & _).
  - pose proof (len_nonneg text). lia.
  - unfold len. lia.
  - exists added. exact H.
Qed.

(** No chunk is longer than [maxChars + 1]. *)
Lemma splitIntoChunks_chunk_bound (chunks : list jsstring) :
  splitIntoChunks text maxChars = Some chunks ->
  Forall (fun chunk => len chunk <= maxChars + 1) chunks.
Proof.
  intros H.
  destruct (splitLoop_returns (fun chunk => len chunk <= maxChars + 1))
    with (fuel := S (length text)) (currentPos := 0) (chunks := @nil jsstring)
    as (added & Hs & Ha).
  - intros currentPos Hc chunk _. subst chunk.
    destruct (nextEndPos_bounds currentPos Hc) as [Hn Hn'].
    pose proof (trim_length (substring text currentPos
                               (nextEndPos text maxChars currentPos))) as Ht.
    pose proof (substring_length text currentPos
                  (nextEndPos text maxChars currentPos)) as Hl.
    unfold len in *. lia.
  - pose proof (len_nonneg text). lia.
  - unfold len. lia.
  - unfold splitIntoChunks in H. rewrite Hs in H. simpl in H.
    injection H as <-. exact Ha.
Qed.

(** A text of white space only yields no chunk at all. *)
Lemma splitIntoChunks_whitespace :
  forallb isWhiteSpace text = true ->
  splitIntoChunks text maxChars = Some [].
Proof.
  intros Hw.
  destruct (splitLoop_returns (fun _ => False))
    with (fuel := S (length text)) (currentPos := 0) (chunks := @nil jsstring)
    as (added & Hs & Ha).
  - intros currentPos Hc chunk Hlen. subst chunk.
    rewrite trim_whitespace in Hlen by (apply substring_whitespace, Hw).
    unfold len in Hlen. simpl in Hlen. lia.
  - pose proof (len_nonneg text). lia.
  - unfold len. lia.
  - unfold splitIntoChunks. rewrite Hs. destruct Ha; [reflexivity|tauto].
Qed.

End SplitterFacts.

(** More loop tests never change an answer already reached. *)
Lemma splitLoop_fuel_mono (text : jsstring) (maxChars : Z) (fuel fuel' : nat) :
  (fuel <= fuel')%nat ->
  forall currentPos chunks result,
    splitLoop fuel text maxChars currentPos chunks = Some result ->
    splitLoop fuel' text maxChars currentPos chunks = Some result.
Proof.
  revert fuel'. induction fuel as [|fuel IH]; intros fuel' Hle cur chunks r H.
  - discriminate.
  - destruct fuel' as [|fuel']; [lia|]. simpl in *.
    destruct (cur <? len text); [|exact H].
    eapply IH; [lia|exact H].
Qed.

(** With [maxChars = 0] the cursor never moves: the loop over a non-empty
    text has no end. *)
Lemma splitLoop_zero_hangs (text : jsstring) (fuel : nat) :
  forall currentPos chunks,
    0 <= currentPos < len text ->
    splitLoop fuel text 0 currentPos chunks = None.
Proof.
  induction fuel as [|fuel IH]; intros cur chunks Hc; [reflexivity|].
  simpl. destruct (cur <? len text) eqn:E; [|apply Z.ltb_ge in E; lia].
  assert (Hn : nextEndPos text 0 cur = cur).
  { destruct (nextEndPos_cases text 0 cur) as [(b & _ & H1 & _ & H2)|H]; lia. }
  rewrite Hn. apply IH. exact Hc.
Qed.

(** With [maxChars = 0] the splitter never returns on a text that is not
    empty, however long it is left to run. *)
Remark splitIntoChunks_zero_hangs (text : jsstring) (fuel : nat) :
  text <> [] -> splitLoop fuel text 0 0 [] = None.
Proof.
  intros Hne. apply splitLoop_zero_hangs.
  destruct text; [contradiction|]. unfold len. simpl. lia.
Qed.

(* ===================================================================== *)
(** * The loop bound of [splitIntoChunks] is enough                       *)
(* ===================================================================== *)

Section SplitterBound.

Variable text : jsstring.

Lemma lastIndexOf_from_start (ch : N) (p : Z) :
  p <= 0 -> 1 <= len text ->
  lastIndexOf text ch p
  = match text with
    | c :: _ => if (c =? ch)%N then 0 else -1
    | [] => -1
    end.
Proof.
  intros Hp Hlen. unfold lastIndexOf.
  destruct (len text <? 1) eqn:E; [apply Z.ltb_lt in E; lia|].
  replace (Z.to_nat (clamp 0 (len text - 1) p)) with 0%nat
    by (unfold clamp; lia).
  destruct text as [|c rest]; [reflexivity|]. simpl.
  destruct (c =? ch)%N; reflexivity.
Qed.

Lemma bestCutPoint_from_start (p : Z) :
  p <= 0 -> 1 <= len text ->
  Z.max (Z.max (lastIndexOf text PERIOD p) (lastIndexOf text NEWLINE p))
        (lastIndexOf text SPACE p)
  = if startsWithBoundary text then 0 else -1.
Proof.
  intros Hp Hlen. rewrite !lastIndexOf_from_start by assumption.
  unfold startsWithBoundary, isBoundary.
  destruct text as [|c rest]; [reflexivity|].
  destruct (c =? PERIOD)%N, (c =? NEWLINE)%N, (c =? SPACE)%N; reflexivity.
Qed.

Variable maxChars : Z.
Hypothesis maxChars_neg : maxChars < 0.

(** With a negative [maxChars] the cursor never gets beyond 1, and never
    beyond 0 when the text does not begin with a boundary. *)
Lemma nextEndPos_negative (currentPos : Z) :
  currentPos <= 1 -> 1 <= len text ->
  nextEndPos text maxChars currentPos <= 1 /\
  (startsWithBoundary text = false -> currentPos <= 0 ->
   nextEndPos text maxChars currentPos <= 0) /\
  (startsWithBoundary text = true -> currentPos = 0 ->
   nextEndPos text maxChars currentPos = 1).
Proof.
  intros Hc Hlen. unfold nextEndPos.
  replace (Z.min (currentPos + maxChars) (len text))
    with (currentPos + maxChars) by lia.
  replace (currentPos + maxChars <? len text) with true
    by (symmetry; apply Z.ltb_lt; lia).
  rewrite bestCutPoint_from_start by lia.
  destruct (startsWithBoundary text);
    match goal with |- context [4 * maxChars <? ?x] =>
      destruct (4 * maxChars <? x) eqn:E end;
    try apply Z.ltb_lt in E; try apply Z.ltb_ge in E;
    repeat split; intros; try discriminate; lia.
Qed.

Lemma splitLoop_negative_hangs (fuel : nat) :
  forall currentPos chunks,
    (2 <= len text /\ currentPos <= 1) \/
    (1 <= len text /\ startsWithBoundary text = false /\ currentPos <= 0) ->
    splitLoop fuel text maxChars currentPos chunks = None.
Proof.
  induction fuel as [|fuel IH]; intros cur chunks Hinv; [reflexivity|].
  simpl. destruct (cur <? len text) eqn:E; [|apply Z.ltb_ge in E; lia].
  apply IH.
  destruct Hinv as [[Hlen Hc]|(Hlen & Hb & Hc)].
  - left. split; [exact Hlen|]. apply nextEndPos_negative; lia.
  - right. split; [exact Hlen|]. split; [exact Hb|].
    apply nextEndPos_negative; (lia || assumption).
Qed.

End SplitterBound.

(** [length text + 1] loop tests are enough: whatever the loop returns
    with more, it returns with these; what [splitIntoChunks] leaves
    unanswered, the loop never answers. *)
Lemma splitIntoChunks_adequate (text : jsstring) (maxChars : Z) (fuel : nat)
      (chunks : list jsstring) :
  splitLoop fuel text maxChars 0 [] = Some chunks ->
  splitIntoChunks text maxChars = Some chunks.
Proof.
  intros Hrun. unfold splitIntoChunks.
  destruct (splitLoop (S (length text)) text maxChars 0 []) as [chunks'|] eqn:E.
  - destruct (Nat.le_ge_cases fuel (S (length text))) as [Hle|Hge].
    + rewrite (splitLoop_fuel_mono _ _ _ _ Hle _ _ _ Hrun) in E. exact (eq_sym E).
    + rewrite (splitLoop_fuel_mono _ _ _ _ Hge _ _ _ E) in Hrun. exact Hrun.
  - exfalso.
    destruct (Z.lt_trichotomy maxChars 0) as [Hneg|[Hzero|Hpos]].
    + destruct text as [|c rest] eqn:Etext; [discriminate E|].
      destruct rest as [|c' rest'].
      * destruct (startsWithBoundary [c]) eqn:Eb.
        -- simpl in E.
           destruct (nextEndPos_negative [c] maxChars Hneg 0) as (_ & _ & Hone);
             [lia|unfold len; simpl; lia|].
           rewrite (Hone Eb eq_refl) in E.
           destruct (0 <? len _) in E; discriminate E.
        -- rewrite splitLoop_negative_hangs in Hrun; [discriminate|assumption|].
           right. unfold len. simpl. repeat split; (lia || assumption).
      * rewrite splitLoop_negative_hangs in Hrun; [discriminate|assumption|].
        left. unfold len. simpl. lia.
    + subst maxChars. destruct text as [|c rest]; [discriminate E|].
      rewrite splitIntoChunks_zero_hangs in Hrun; discriminate.
    + destruct (splitIntoChunks_returns text maxChars) as [r Hr]; [lia|].
      unfold splitIntoChunks in Hr. congruence.
Qed.

(** C1. A chunk can be one character longer than [maxChars] although no
    token is: the backward search starts AT the hard cut, so a period
    sitting there is accepted as boundary and kept in the chunk
    (["Hello world."], twelve characters for [maxChars = 11]). *)
Theorem splitIntoChunks_chunk_longer_than_maxChars :
  splitIntoChunks (str "Hello world. Bye") 11
  = Some [str "Hello world."; str "Bye"] /\
  len (str "Hello world.") = 12 /\
  longestToken (str "Hello world. Bye") = 5 /\
  lastIndexOf (str "Hello world. Bye") PERIOD 11 = 11.
Proof. repeat split; vm_compute; reflexivity. Qed.

(* ===================================================================== *)
(** * Properties of [SimilarityCalculator]                                *)
(* ===================================================================== *)

Section SimilarityFacts.

Lemma mul_zero_l (x y : number) : isZero x = true -> zeroOrNaN (mul x y) = true.
Proof. destruct x, y; simpl; intros H; try discriminate; reflexivity. Qed.

Lemma mul_zero_r (x y : number) : isZero y = true -> zeroOrNaN (mul x y) = true.
Proof. destruct x, y; simpl; intros H; try discriminate; reflexivity. Qed.

Lemma mul_zeroOrNaN_l (x y : number) :
  zeroOrNaN x = true -> zeroOrNaN (mul x y) = true.
Proof. destruct x, y; simpl; intros H; try discriminate; reflexivity. Qed.

Lemma mul_zeroOrNaN_r (x y : number) :
  zeroOrNaN y = true -> zeroOrNaN (mul x y) = true.
Proof. destruct x, y; simpl; intros H; try discriminate; reflexivity. Qed.

Lemma add_zeroOrNaN (x y : number) :
  zeroOrNaN x = true -> zeroOrNaN y = true -> zeroOrNaN (add x y) = true.
Proof.
  destruct x as [[]| | |], y as [[]| | |]; simpl; intros Hx Hy;
    try discriminate; reflexivity.
Qed.

Lemma sqrt_zeroOrNaN (x : number) :
  zeroOrNaN x = true -> zeroOrNaN (sqrt x) = true.
Proof. destruct x as [[]|[]| |[]]; simpl; intros H; try discriminate; reflexivity. Qed.

Lemma div_zeroOrNaN (x y : number) :
  zeroOrNaN x = true -> zeroOrNaN y = true -> div x y = NaN.
Proof.
  destruct x, y; simpl; intros Hx Hy; try discriminate; reflexivity.
Qed.

(** NaN fails every comparison. *)
Lemma geb_NaN (t : number) : geb NaN t = false.
Proof. destruct t; reflexivity. Qed.

Lemma geb_true_not_NaN (x t : number) : geb x t = true -> isNaN x = false.
Proof. destruct x; [reflexivity..|rewrite geb_NaN; discriminate|reflexivity]. Qed.

(** If the first vector is a zero vector, the dot product and its norm
    stay among the zeros and NaN. *)
Lemma cosineLoop_zero_l (vecA vecB : vector) :
  zeroVector vecA = true ->
  forall dotProduct normA normB,
    zeroOrNaN dotProduct = true -> zeroOrNaN normA = true ->
    let '(d, na, _) := cosineLoop vecA vecB (dotProduct, normA, normB) in
    zeroOrNaN d = true /\ zeroOrNaN na = true.
Proof.
  revert vecB. induction vecA as [|a vecA IH]; intros vecB Hz d na nb Hd Hna.
  - simpl. auto.
  - simpl in Hz. apply andb_prop in Hz as [Ha Hz].
    destruct vecB as [|b vecB]; simpl; [auto|].
    apply IH; [exact Hz| |].
    + apply add_zeroOrNaN; [exact Hd|]. apply mul_zero_l, Ha.
    + apply add_zeroOrNaN; [exact Hna|]. apply mul_zero_l, Ha.
Qed.

Lemma cosineLoop_zero_r (vecA vecB : vector) :
  zeroVector vecB = true ->
  forall dotProduct normA normB,
    zeroOrNaN dotProduct = true -> zeroOrNaN normB = true ->
    let '(d, _, nb) := cosineLoop vecA vecB (dotProduct, normA, normB) in
    zeroOrNaN d = true /\ zeroOrNaN nb = true.
Proof.
  revert vecA. induction vecB as [|b vecB IH]; intros vecA Hz d na nb Hd Hnb.
  - destruct vecA; simpl; auto.
  - simpl in Hz. apply andb_prop in Hz as [Hb Hz].
    destruct vecA as [|a vecA]; simpl; [auto|].
    apply IH; [exact Hz| |].
    + apply add_zeroOrNaN; [exact Hd|]. apply mul_zero_r, Hb.
    + apply add_zeroOrNaN; [exact Hnb|]. apply mul_zero_l, Hb.
Qed.

Lemma cosineSimilarity_zero_vector (vecA vecB : vector) :
  length vecA = length vecB ->
  zeroVector vecA = true \/ zeroVector vecB = true ->
  cosineSimilarity vecA vecB = Ok NaN.
Proof.
  intros Hlen Hz. unfold cosineSimilarity.
  rewrite Hlen, Nat.eqb_refl. simpl.
  destruct Hz as [Hz|Hz].
  - pose proof (cosineLoop_zero_l vecA vecB Hz zero zero zero eq_refl eq_refl) as H.
    destruct (cosineLoop vecA vecB (zero, zero, zero)) as [[d na] nb].
    destruct H as [Hd Hna]. f_equal.
    apply div_zeroOrNaN; [exact Hd|].
    apply mul_zeroOrNaN_l, sqrt_zeroOrNaN, Hna.
  - pose proof (cosineLoop_zero_r vecA vecB Hz zero zero zero eq_refl eq_refl) as H.
    destruct (cosineLoop vecA vecB (zero, zero, zero)) as [[d na] nb].
    destruct H as [Hd Hnb]. f_equal.
    apply div_zeroOrNaN; [exact Hd|].
    apply mul_zeroOrNaN_r, sqrt_zeroOrNaN, Hnb.
Qed.

(** Whatever [calculateSimilarities] returns has passed [>=], so it is not
    NaN. *)
Lemma calculateSimilarities_never_NaN (floor : number) (queryEmbedding : vector)
      (documents : list Document) (r : SearchResult) :
  In r (calculateSimilarities floor queryEmbedding documents) ->
  isNaN (similarity r) = false.
Proof.
  unfold calculateSimilarities. intros H.
  apply list_elem_of_In, list_elem_of_omap in H as (doc & _ & H).
  unfold scoreDocument in H.
  destruct (doc_embedding doc) as [e|]; [|discriminate].
  destruct (cosineSimilarity queryEmbedding e) as [sim| |]; try discriminate.
  destruct (geb sim floor) eqn:E; [|discriminate].
  injection H as <-. simpl. eapply geb_true_not_NaN, E.
Qed.

End SimilarityFacts.

(* ===================================================================== *)
(** * Norms that are zero in binary64                                     *)
(* ===================================================================== *)

Section ZeroNormFacts.

Lemma cosineLoop_norms (vecA vecB : vector) :
  length vecA = length vecB ->
  forall dotProduct normA normB,
    let '(_, na, nb) := cosineLoop vecA vecB (dotProduct, normA, normB) in
    na = sumOfSquares vecA normA /\ nb = sumOfSquares vecB normB.
Proof.
  revert vecB. induction vecA as [|a vecA IH]; intros [|b vecB] Hlen d na nb;
    try discriminate; simpl; [auto|].
  apply IH. simpl in Hlen. lia.
Qed.

Lemma div_by_zeroOrNaN (x y : number) :
  zeroOrNaN y = true -> isNaN (div x y) || isInfinite (div x y) = true.
Proof. destruct x, y; simpl; intros Hy; try discriminate; reflexivity. Qed.

(** When the accumulated sum of squares of one vector is zero - for a zero
    vector, or by underflow - the quotient is NaN or infinite: never a
    finite sentinel. *)
Lemma cosineSimilarity_zero_norm (vecA vecB : vector) :
  length vecA = length vecB ->
  isZero (sumOfSquares vecA zero) = true \/
  isZero (sumOfSquares vecB zero) = true ->
  exists r, cosineSimilarity vecA vecB = Ok r /\
            isNaN r || isInfinite r = true.
Proof.
  intros Hlen Hzero. unfold cosineSimilarity.
  rewrite Hlen, Nat.eqb_refl. simpl.
  pose proof (cosineLoop_norms vecA vecB Hlen zero zero zero) as Hn.
  destruct (cosineLoop vecA vecB (zero, zero, zero)) as [[d na] nb].
  destruct Hn as [-> ->]. eexists. split; [reflexivity|].
  apply div_by_zeroOrNaN. destruct Hzero as [Hz|Hz].
  - apply mul_zeroOrNaN_l, sqrt_zeroOrNaN. unfold zeroOrNaN. rewrite Hz.
    reflexivity.
  - apply mul_zeroOrNaN_r, sqrt_zeroOrNaN. unfold zeroOrNaN. rewrite Hz.
    reflexivity.
Qed.

(** The square of [2^-600] underflows to zero: against [[1]] the
    similarity is [+Infinity], which passes every finite floor. *)
Remark cosineSimilarity_underflow :
  let tiny := S754_finite false 4503599627370496 (-652) in
  valid_binary prec emax tiny = true /\
  cosineSimilarity [tiny] [ofZ 1] = Ok (S754_infinity false) /\
  geb (S754_infinity false) (ratio 1 10) = true.
Proof. repeat split; vm_compute; reflexivity. Qed.

End ZeroNormFacts.

(** C3, as stated, fails: for two vectors of equal length one of which has
    norm zero the result is NaN, not the sentinel 0. *)
Lemma cosineSimilarity_zero_norm_is_not_zero :
  length [zero; zero] = length [ofZ 1; ofZ 2] /\
  zeroVector [zero; zero] = true /\
  cosineSimilarity [zero; zero] [ofZ 1; ofZ 2] = Ok NaN /\
  cosineSimilarity [zero; zero] [ofZ 1; ofZ 2] <> Ok zero.
Proof. repeat split; try (vm_compute; reflexivity). vm_compute. discriminate. Qed.

(** C3 (as amended). For two vectors of equal length one of which has norm
    zero, [cosineSimilarity] does not return a sentinel 0: the quotient is
    NaN or infinite, and it is NaN whenever the vector is a zero vector.
    Every comparison with NaN being false, [calculateSimilarities] drops
    such a document, and no result it returns has a NaN similarity. *)
Theorem cosineSimilarity_zero_norm_NaN_dropped (vecA vecB : vector) :
  length vecA = length vecB ->
  isZero (sumOfSquares vecA zero) = true \/
  isZero (sumOfSquares vecB zero) = true ->
  (exists r, cosineSimilarity vecA vecB = Ok r /\
             isNaN r || isInfinite r = true) /\
  (zeroVector vecA = true \/ zeroVector vecB = true ->
   cosineSimilarity vecA vecB = Ok NaN /\
   forall floor doc,
     doc_embedding doc = Some vecB -> scoreDocument floor vecA doc = None) /\
  (forall floor queryEmbedding documents r,
      In r (calculateSimilarities floor queryEmbedding documents) ->
      isNaN (similarity r) = false).
Proof.
  intros Hlen Hnorm.
  split; [apply cosineSimilarity_zero_norm; assumption|]. split.
  - intros Hzero.
    pose proof (cosineSimilarity_zero_vector vecA vecB Hlen Hzero) as Hnan.
    split; [exact Hnan|].
    intros floor doc Hemb. unfold scoreDocument. rewrite Hemb, Hnan.
    rewrite geb_NaN. reflexivity.
  - intros floor q documents r. apply calculateSimilarities_never_NaN.
Qed.

(** C3, at the zero vector of dimension two against [(1, 2)]. *)
Lemma cosineSimilarity_zero_norm_witness :
  (length [zero; zero] = length [ofZ 1; ofZ 2] /\
   isZero (sumOfSquares [zero; zero] zero) = true) /\
  cosineSimilarity [zero; zero] [ofZ 1; ofZ 2] = Ok NaN.
Proof.
  split; [split; reflexivity|].
  destruct (cosineSimilarity_zero_norm_NaN_dropped [zero; zero] [ofZ 1; ofZ 2])
    as (_ & Hnan & _); [reflexivity|left; reflexivity|].
  apply Hnan. left. reflexivity.
Defined.

(* ===================================================================== *)
(** * The retry policy of the Google provider                             *)
(* ===================================================================== *)

Section RetryFacts.

Context {W A : Type}.
Variable pause : number -> W -> W.
Variable operation : W -> Result A * W.

Lemma retryWrapper_success (w w' : W) (a : A) :
  operation w = (Ok a, w') ->
  retryWrapper pause operation w = (Ok a, w').
Proof. intros Hop. unfold retryWrapper. simpl. rewrite Hop. reflexivity. Qed.

(** Three failed attempts, with waits of 1000 ms and 1500 ms between them,
    exhaust the policy: the error of the last attempt is thrown. *)
Lemma retryWrapper_exhausted (w0 w1 w2 w3 : W) (e1 e2 e3 : Error) :
  operation w0 = (Throw e1, w1) ->
  operation (pause (ofZ 1000) w1) = (Throw e2, w2) ->
  operation (pause (mul (ofZ 1000) (ratio 3 2)) w2) = (Throw e3, w3) ->
  retryWrapper pause operation w0 = (Throw e3, w3).
Proof.
  intros H1 H2 H3. unfold retryWrapper. cbn [retryLoop].
  rewrite H1, H2, H3. reflexivity.
Qed.

(** The second wait is 1500 ms. *)
Lemma retry_backoff : mul (ofZ 1000) (ratio 3 2) = ofZ 1500.
Proof. vm_compute. reflexivity. Qed.

End RetryFacts.

(* ===================================================================== *)
(** * Properties of the embedding provider                                *)
(* ===================================================================== *)

Ltac same_caches := repeat split; reflexivity.

Section EmbeddingFacts.

Context {W : Type} `{Platform W}.

Lemma sameCaches_refl (s : System W) : sameCaches s s.
Proof. repeat split. Qed.

Lemma sameCaches_trans (s1 s2 s3 : System W) :
  sameCaches s1 s2 -> sameCaches s2 s3 -> sameCaches s1 s3.
Proof. unfold sameCaches. intros (-> & -> & ->) (-> & -> & ->). auto. Qed.

Lemma now_run (s : System W) :
  now s = (Ok (Date_now (world s)).1, setWorld (Date_now (world s)).2 s).
Proof. unfold now. destruct (Date_now (world s)). reflexivity. Qed.

Lemma callBackend_run (text : jsstring) (s : System W) :
  callBackend text s =
  ((generateSingleEmbedding text (world s)).1,
   setWorld (generateSingleEmbedding text (world s)).2 (record (CallBackend text) s)).
Proof.
  unfold callBackend, bind, modify, external. simpl.
  destruct (generateSingleEmbedding text (world s)) as [[v|e|] w]; reflexivity.
Qed.

Lemma callBackend_caches (text : jsstring) (s : System W) :
  sameCaches s (callBackend text s).2.
Proof. rewrite callBackend_run. same_caches. Qed.

Lemma embedChunks_caches (chunks : list jsstring) :
  forall i total embeddings (s : System W),
    sameCaches s (embedChunks chunks i total embeddings s).2.
Proof.
  induction chunks as [|chunk rest IH]; intros i total embeddings s; simpl.
  - apply sameCaches_refl.
  - unfold bind at 1. rewrite callBackend_run.
    destruct (generateSingleEmbedding chunk (world s)) as [[v|e|] w]; simpl;
      try same_caches.
    unfold bind at 1.
    destruct (i <? total - 1)%nat; simpl;
      (eapply sameCaches_trans; [|apply IH]); same_caches.
Qed.

(** The loop over [done ++ rest] is the loop over [done] followed by the
    loop over [rest]. *)
Lemma embedChunks_app (done rest : list jsstring) :
  forall i total embeddings (s : System W),
    embedChunks (done ++ rest) i total embeddings s =
    match embedChunks done i total embeddings s with
    | (Ok embeddings', s') =>
        embedChunks rest (i + length done) total embeddings' s'
    | (Throw e, s') => (Throw e, s')
    | (Hang, s') => (Hang, s')
    end.
Proof.
  induction done as [|chunk done IH]; intros i total embeddings s; simpl.
  - rewrite Nat.add_0_r. reflexivity.
  - unfold bind.
    destruct (callBackend chunk s) as [[v|e|] s1]; try reflexivity.
    destruct ((if (i <? total - 1)%nat then delay (ofZ 100) else ret tt) s1)
      as [[[]|e|] s2]; try reflexivity.
    rewrite IH. replace (S i + length done)%nat with (i + S (length done))%nat by lia.
    reflexivity.
Qed.

(** A loop that ends normally has embedded every chunk. *)
Lemma embedChunks_length (chunks : list jsstring) :
  forall i total embeddings (s s' : System W) result,
    embedChunks chunks i total embeddings s = (Ok result, s') ->
    length result = (length embeddings + length chunks)%nat.
Proof.
  induction chunks as [|chunk rest IH]; intros i total embeddings s s' result; simpl.
  - unfold ret. intros [= <- <-]. lia.
  - unfold bind at 1.
    destruct (callBackend chunk s) as [[v|e|] s1]; try discriminate.
    unfold bind at 1.
    destruct ((if (i <? total - 1)%nat then delay (ofZ 100) else ret tt) s1)
      as [[[]|e|] s2]; try discriminate.
    intros Hrun. apply IH in Hrun. rewrite length_app in Hrun. simpl in Hrun. lia.
Qed.

(** [manageCacheSize] leaves the state as it is, whatever the size. *)
Lemma manageCacheSize_noop (s : System W) : manageCacheSize s = (Ok tt, s).
Proof.
  unfold manageCacheSize, bind, gets, ret.
  destruct (cacheSize config <? Z.of_nat (size (embeddingCache s))); reflexivity.
Qed.

Lemma generateEmbedding_hit (text : jsstring) (s : System W) (cached : vector) :
  embeddingCache s !! createTextHash text = Some cached ->
  generateEmbedding text s = (Ok cached, record (CallGenerateEmbedding text) s).
Proof.
  intros Hhit. unfold generateEmbedding, bind, modify, gets, ret. simpl.
  rewrite Hhit. reflexivity.
Qed.

Lemma generateEmbedding_miss (text : jsstring) (s : System W) :
  embeddingCache s !! createTextHash text = None ->
  generateEmbedding text s =
  match embedText text (missStart text s) with
  | (Ok embedding, s1) =>
      (Ok embedding,
       setEmbeddingCache (<[createTextHash text := embedding]> (embeddingCache s1))
                         (setWorld (Date_now (world s1)).2 s1))
  | (Throw e, s1) => (Throw e, s1)
  | (Hang, s1) => (Hang, s1)
  end.
Proof.
  intros Hmiss. unfold generateEmbedding.
  unfold bind at 1. unfold modify at 1.
  unfold bind at 1. unfold gets at 1. simpl. rewrite Hmiss.
  unfold bind at 1. rewrite now_run. simpl.
  unfold bind at 1. fold (missStart text s).
  destruct (embedText text (missStart text s)) as [[v|e|] s1]; try reflexivity.
  unfold bind at 1. rewrite now_run.
  unfold bind at 1. unfold storeEmbedding, modify.
  unfold bind. rewrite manageCacheSize_noop. reflexivity.
Qed.

Lemma missStart_caches (text : jsstring) (s : System W) :
  sameCaches s (missStart text s).
Proof. same_caches. Qed.

Lemma generateMultiChunkEmbedding_caches (text : jsstring) (s : System W) :
  sameCaches s (generateMultiChunkEmbedding text s).2.
Proof.
  unfold generateMultiChunkEmbedding.
  destruct (splitIntoChunks text (maxCharsPerChunk config)) as [chunks|];
    [|apply sameCaches_refl].
  unfold bind, liftResult.
  pose proof (embedChunks_caches chunks 0 (length chunks) [] s) as Hc.
  destruct (embedChunks chunks 0 (length chunks) [] s) as [[v|e|] s1]; exact Hc.
Qed.

Lemma embedText_caches (text : jsstring) (s : System W) :
  sameCaches s (embedText text s).2.
Proof.
  unfold embedText. destruct (len text <=? maxCharsPerChunk config).
  - apply callBackend_caches.
  - apply generateMultiChunkEmbedding_caches.
Qed.

End EmbeddingFacts.

Section EmbeddingClaims.

Context {W : Type} `{Platform W}.

(** C4. For a text longer than [maxCharsPerChunk]: (a) when the backend
    call of some chunk fails - the chunks before it having been embedded -
    [generateEmbedding] throws that very error and leaves all caches as they
    were; (b) whenever a run changes the embedding cache, every chunk was
    embedded, the vectors were aggregated by [averageEmbeddings], and the
    one entry written is the aggregate under the hash of the full text. *)
Theorem generateEmbedding_chunk_failure_writes_nothing
        (text : jsstring) (s s' : System W) (r : Result vector) :
  maxCharsPerChunk config < len text ->
  generateEmbedding text s = (r, s') ->
  (forall done chunk rest embeddings s1 e w2,
      embeddingCache s !! createTextHash text = None ->
      splitIntoChunks text (maxCharsPerChunk config) = Some (done ++ chunk :: rest) ->
      embedChunks done 0 (length (done ++ chunk :: rest)) [] (missStart text s)
        = (Ok embeddings, s1) ->
      generateSingleEmbedding chunk (world s1) = (Throw e, w2) ->
      r = Throw e /\ sameCaches s s' /\
      s' = setWorld w2 (record (CallBackend chunk) s1))
  /\
  (embeddingCache s' <> embeddingCache s ->
   exists chunks embeddings aggregate s1,
     splitIntoChunks text (maxCharsPerChunk config) = Some chunks /\
     embedChunks chunks 0 (length chunks) [] (missStart text s)
       = (Ok embeddings, s1) /\
     length embeddings = length chunks /\
     averageEmbeddings embeddings = Ok aggregate /\
     r = Ok aggregate /\
     embeddingCache s' = <[createTextHash text := aggregate]> (embeddingCache s)).
Proof.
  intros Hlong Hrun.
  assert (Hpath : (len text <=? maxCharsPerChunk config) = false)
    by (apply Z.leb_gt; exact Hlong).
  split.
  - intros done chunk rest embeddings s1 e w2 Hmiss Hsplit Hdone Hfail.
    rewrite (generateEmbedding_miss text s Hmiss) in Hrun.
    unfold embedText in Hrun. rewrite Hpath in Hrun.
    unfold generateMultiChunkEmbedding in Hrun. rewrite Hsplit in Hrun.
    unfold bind at 1 in Hrun. rewrite embedChunks_app, Hdone in Hrun.
    cbn [embedChunks] in Hrun. unfold bind at 1 in Hrun.
    rewrite callBackend_run, Hfail in Hrun. cbn in Hrun.
    injection Hrun as <- <-. split; [reflexivity|]. split; [|reflexivity].
    pose proof (embedChunks_caches done 0 (length (done ++ chunk :: rest)) []
                  (missStart text s)) as Hc.
    rewrite Hdone in Hc. simpl in Hc.
    eapply sameCaches_trans; [apply missStart_caches|].
    eapply sameCaches_trans; [exact Hc|]. same_caches.
  - intros Hchanged.
    destruct (embeddingCache s !! createTextHash text) as [cached|] eqn:Hlook.
    { rewrite (generateEmbedding_hit text s cached Hlook) in Hrun.
      injection Hrun as <- <-. contradiction Hchanged. reflexivity. }
    rewrite (generateEmbedding_miss text s Hlook) in Hrun.
    pose proof (embedText_caches text (missStart text s)) as Hc.
    unfold embedText in Hrun, Hc. rewrite Hpath in Hrun, Hc.
    unfold generateMultiChunkEmbedding in Hrun, Hc.
    destruct (splitIntoChunks text (maxCharsPerChunk config)) as [chunks|];
      [|unfold hang in Hrun; injection Hrun as <- <-;
        contradiction Hchanged; reflexivity].
    unfold bind, liftResult in Hrun, Hc.
    destruct (embedChunks chunks 0 (length chunks) [] (missStart text s))
      as [[embeddings|e|] s1] eqn:Hloop;
      try (injection Hrun as <- <-; contradiction Hchanged; apply Hc).
    destruct (averageEmbeddings embeddings) as [aggregate|e|] eqn:Havg;
      try (injection Hrun as <- <-; contradiction Hchanged; apply Hc).
    injection Hrun as <- <-.
    exists chunks, embeddings, aggregate, s1.
    split; [reflexivity|]. split; [exact Hloop|].
    split; [apply (embedChunks_length _ _ _ _ _ _ _ Hloop)|].
    split; [exact Havg|]. split; [reflexivity|].
    simpl in Hc |- *. destruct Hc as [-> _]. reflexivity.
Qed.

(** A miss that ends normally adds one entry, whatever [cacheSize] says. *)
Lemma generateEmbedding_grows_cache (text : jsstring) (s s' : System W)
      (embedding : vector) :
  embeddingCache s !! createTextHash text = None ->
  generateEmbedding text s = (Ok embedding, s') ->
  size (embeddingCache s') = S (size (embeddingCache s)).
Proof.
  intros Hmiss Hrun. rewrite (generateEmbedding_miss text s Hmiss) in Hrun.
  pose proof (embedText_caches text (missStart text s)) as Hc.
  destruct (embedText text (missStart text s)) as [[v|e|] s1]; try discriminate.
  injection Hrun as <- <-. simpl in Hc |- *. destruct Hc as [-> _]. simpl.
  apply map_size_insert_None. exact Hmiss.
Qed.

(** C10. With a positive chunk size, a text of white space only that is
    longer than [maxCharsPerChunk] and not in the cache makes
    [generateEmbedding] throw the empty-input error of [averageEmbeddings]:
    the splitter returns no chunk, no backend call is made, no entry is
    written. *)
Theorem generateEmbedding_whitespace_throws (text : jsstring) (s : System W) :
  1 <= maxCharsPerChunk config ->
  forallb isWhiteSpace text = true ->
  maxCharsPerChunk config < len text ->
  embeddingCache s !! createTextHash text = None ->
  splitIntoChunks text (maxCharsPerChunk config) = Some [] /\
  averageEmbeddings [] = Throw EmptyEmbeddingsArray /\
  generateEmbedding text s = (Throw EmptyEmbeddingsArray, missStart text s) /\
  trace (missStart text s) = trace s ++ [CallGenerateEmbedding text] /\
  sameCaches s (missStart text s).
Proof.
  intros Hpos Hws Hlong Hmiss.
  pose proof (splitIntoChunks_whitespace text _ Hpos Hws) as Hsplit.
  split; [exact Hsplit|]. split; [reflexivity|].
  split; [|split; [reflexivity|same_caches]].
  rewrite (generateEmbedding_miss text s Hmiss).
  unfold embedText. replace (len text <=? maxCharsPerChunk config) with false
    by (symmetry; apply Z.leb_gt; exact Hlong).
  unfold generateMultiChunkEmbedding. rewrite Hsplit. reflexivity.
Qed.

End EmbeddingClaims.

(* ===================================================================== *)
(** * The embedding provider at work                                      *)
(* ===================================================================== *)

(** C4, at a run where the backend rejects the second of three chunks: the
    call fails with the error of the backend and no cache changes. *)
Lemma generateEmbedding_chunk_failure_witness :
  maxCharsPerChunk (config (Platform := Lab.tiny)) < len Lab.threeWords /\
  Lab.flakyRun.1 = Throw (External 503) /\
  sameCaches (Lab.boot Lab.flaky) Lab.flakyRun.2.
Proof.
  split; [reflexivity|].
  destruct (generateEmbedding_chunk_failure_writes_nothing
              (H := Lab.tiny) Lab.threeWords (Lab.boot Lab.flaky)
              Lab.flakyRun.2 Lab.flakyRun.1)
    as [Hfail _].
  - reflexivity.
  - apply surjective_pairing.
  - destruct (Hfail [str "aaaa"] (str "bbbb") [str "cccc"]
                    [[ofZ 4; ofZ 0]]
                    (record (CallBackend (str "aaaa"))
                       (missStart (H := Lab.tiny) Lab.threeWords
                                  (Lab.boot Lab.flaky)))
                    (External 503) (Lab.mkWorld 1001 [] [str "bbbb"]))
      as (Hr & Hc & _).
    + reflexivity.
    + vm_compute. reflexivity.
    + vm_compute. reflexivity.
    + vm_compute. reflexivity.
    + split; assumption.
Defined.

(** C10, at six blanks with chunks of four: the splitter returns nothing
    and the average over nothing throws. *)
Lemma generateEmbedding_whitespace_witness :
  (1 <= 4 /\ forallb isWhiteSpace Lab.blanks = true /\ 4 < len Lab.blanks) /\
  generateEmbedding (H := Lab.tiny) Lab.blanks (Lab.boot Lab.calm)
  = (Throw EmptyEmbeddingsArray,
     missStart (H := Lab.tiny) Lab.blanks (Lab.boot Lab.calm)).
Proof.
  split; [split; [lia|split; reflexivity]|].
  apply (generateEmbedding_whitespace_throws (H := Lab.tiny)
           Lab.blanks (Lab.boot Lab.calm));
    [simpl; lia|reflexivity|reflexivity|reflexivity].
Defined.

(** C5. The cache does not stay within [cacheSize]: with [cacheSize = 1],
    three texts embedded one after the other leave three entries. *)
Theorem embedding_cache_outgrows_cacheSize :
  cacheSize (config (Platform := Lab.tiny)) = 1 /\
  size (embeddingCache Lab.threeTexts) = 3%nat.
Proof. split; vm_compute; reflexivity. Qed.

(* ===================================================================== *)
(** * Properties of the search provider                                   *)
(* ===================================================================== *)

Section ValidationFacts.

Lemma trimStart_empty (s : jsstring) :
  trimStart s = [] <-> forallb isWhiteSpace s = true.
Proof.
  split; [|apply trimStart_whitespace].
  induction s as [|c s IH]; simpl; [reflexivity|].
  destruct (isWhiteSpace c); [exact IH|discriminate].
Qed.

Lemma trimStart_head (s rest : jsstring) (c : N) :
  trimStart s = c :: rest -> isWhiteSpace c = false.
Proof.
  induction s as [|d s IH]; simpl; [discriminate|].
  destruct (isWhiteSpace d) eqn:E; [exact IH|].
  intros [= <- _]. exact E.
Qed.

Lemma forallb_rev {A} (f : A -> bool) (l : list A) :
  forallb f (rev l) = forallb f l.
Proof.
  induction l as [|x l IH]; simpl; [reflexivity|].
  rewrite forallb_app, IH. simpl. rewrite andb_true_r. apply andb_comm.
Qed.

(** [query.trim().length === 0] holds exactly of the queries that are
    empty or white space only. *)
Lemma trim_empty (s : jsstring) :
  trim s = [] <-> spec_blank s = true.
Proof.
  unfold spec_blank. split; [|apply trim_whitespace].
  unfold trim, trimEnd. intros Hrev.
  assert (Hall : forallb isWhiteSpace (trimStart s) = true).
  { rewrite <- forallb_rev. apply trimStart_empty.
    destruct (trimStart (rev (trimStart s))); [reflexivity|].
    simpl in Hrev. destruct (rev l); discriminate. }
  apply trimStart_empty.
  destruct (trimStart s) as [|c rest] eqn:E; [reflexivity|].
  apply trimStart_head in E. simpl in Hall. rewrite E in Hall. discriminate.
Qed.

Lemma validateQuery_spec (query : jsstring) :
  validateQuery query =
  if spec_blank query then Throw EmptyQuery
  else if 10000 <? len query then Throw QueryTooLong
  else Ok tt.
Proof.
  unfold validateQuery.
  destruct (spec_blank query) eqn:Hb.
  - apply trim_empty in Hb. rewrite Hb. rewrite orb_true_r. reflexivity.
  - assert (Hne : trim query <> []).
    { intros Ht. apply trim_empty in Ht. congruence. }
    assert (Hq : (len query =? 0) = false).
    { destruct query; [discriminate Hb|reflexivity]. }
    assert (Ht : (len (trim query) =? 0) = false).
    { destruct (trim query); [congruence|reflexivity]. }
    rewrite Hq, Ht. reflexivity.
Qed.

(** Comparing the other way round gives the opposite verdict. *)
Lemma SFcompare_swap (x y : number) :
  SFcompare y x = option_map CompOpp (SFcompare x y).
Proof.
  destruct x as [sx|sx| |sx mx ex], y as [sy|sy| |sy my ey];
    try solve [ try destruct sx; try destruct sy; reflexivity ].
  unfold SFcompare.
  rewrite (Z.compare_antisym ex ey), !Pos.compare_cont_spec,
    (Pos.compare_antisym mx my).
  destruct sx, sy, (ex ?= ey), (mx ?= my)%positive; reflexivity.
Qed.

Lemma SFcompare_None (x y : number) :
  SFcompare x y = None <-> isNaN x || isNaN y = true.
Proof.
  destruct x as [sx|sx| |sx mx ex], y as [sy|sy| |sy my ey]; simpl;
    split; intros Hx; try discriminate; reflexivity.
Qed.

(** On numbers, [a <= b] is the negation of [b < a]. *)
Lemma leb_not_ltb (a b : number) :
  isNaN a = false -> isNaN b = false -> leb a b = negb (ltb b a).
Proof.
  intros Ha Hb. unfold leb, ltb, SFleb, SFltb. rewrite (SFcompare_swap a b).
  destruct (SFcompare a b) as [[]|] eqn:E; try reflexivity.
  apply SFcompare_None in E. rewrite Ha, Hb in E. discriminate.
Qed.

(** NaN is outside every interval, though it compares neither below nor
    above its ends. *)
Lemma spec_outside_NaN (lo hi : Z) (x : option number) :
  presentNaN x = true ->
  spec_outside lo hi x = true /\ belowOrAbove lo hi x = false.
Proof.
  destruct x as [[| | |]|]; try discriminate. intros _.
  unfold spec_outside, spec_inInterval, belowOrAbove, leb, ltb, gtb,
    SFleb, SFltb.
  rewrite (SFcompare_swap S754_nan (ofZ lo)), (SFcompare_swap S754_nan (ofZ hi)).
  split; reflexivity.
Qed.

(** On every other value the words of the specification and the test of
    the code agree. *)
Lemma spec_outside_tests (lo hi : Z) (x : option number) :
  isNaN (ofZ lo) = false -> isNaN (ofZ hi) = false ->
  presentNaN x = false ->
  spec_outside lo hi x = belowOrAbove lo hi x.
Proof.
  intros Hlo Hhi Hx. destruct x as [v|]; [|reflexivity]. simpl in Hx.
  unfold spec_outside, spec_inInterval, belowOrAbove, gtb.
  rewrite (leb_not_ltb (ofZ lo) v Hlo Hx), (leb_not_ltb v (ofZ hi) Hx Hhi).
  unfold ltb. destruct (SFltb v (ofZ lo)), (SFltb (ofZ hi) v); reflexivity.
Qed.

Lemma spec_outside_false (lo hi : Z) (x : option number) :
  isNaN (ofZ lo) = false -> isNaN (ofZ hi) = false ->
  spec_outside lo hi x = false -> belowOrAbove lo hi x = false.
Proof.
  intros Hlo Hhi Hout. destruct (presentNaN x) eqn:Hx.
  - apply (spec_outside_NaN lo hi) in Hx as [Hx _]. congruence.
  - rewrite <- (spec_outside_tests lo hi x Hlo Hhi Hx). exact Hout.
Qed.

Lemma validateOptions_tests (options : SearchOptions) :
  validateOptions options =
  if belowOrAbove 1 100 (limit options) then Throw LimitOutOfRange
  else if belowOrAbove 0 1 (minSimilarity options)
       then Throw MinSimilarityOutOfRange
       else Ok tt.
Proof.
  unfold validateOptions, checkLimit, checkMinSimilarity, belowOrAbove.
  destruct (limit options) as [n|]; destruct (minSimilarity options) as [m|];
    try destruct (ltb n (ofZ 1) || gtb n (ofZ 100));
    try destruct (ltb m (ofZ 0) || gtb m (ofZ 1)); reflexivity.
Qed.

End ValidationFacts.

Section SearchFacts.

Context {W : Type} `{Platform W}.

Lemma searchSimilar_run (query : jsstring) (options : SearchOptions)
      (s : System W) :
  searchSimilar query options s =
  match validateQuery query, validateOptions options with
  | Ok _, Ok _ => answerQuery query options (started s)
  | Ok _, Throw e => (Throw e, started s)
  | Ok _, Hang => (Hang, started s)
  | Throw e, _ => (Throw e, started s)
  | Hang, _ => (Hang, started s)
  end.
Proof.
  unfold searchSimilar, bind, liftResult. rewrite now_run. fold (started s).
  destruct (validateQuery query); [|reflexivity..].
  destruct (validateOptions options); reflexivity.
Qed.

(** X26. Validation comes first. Of the requests the specification rejects,
    those whose [limit] and [minSimilarity] are not NaN make
    [searchSimilar] throw one of the four validation errors at once: the
    only thing done before is the reading of the clock, so no backend or
    store call has been made, no cache has changed, and nothing is
    attempted again. A request the specification accepts passes both
    validations and goes on to the cache lookup. *)
Theorem searchSimilar_validation_before_io (query : jsstring)
        (options : SearchOptions) (s : System W) :
  (spec_invalidRequest query options = true ->
   presentNaN (limit options) = false ->
   presentNaN (minSimilarity options) = false ->
   exists e, isValidationError e = true /\
             searchSimilar query options s = (Throw e, started s) /\
             trace (started s) = trace s /\ sameCaches s (started s))
  /\
  (spec_invalidRequest query options = false ->
   validateQuery query = Ok tt /\ validateOptions options = Ok tt /\
   searchSimilar query options s = answerQuery query options (started s)).
Proof.
  rewrite searchSimilar_run, validateQuery_spec, validateOptions_tests.
  unfold spec_invalidRequest. split.
  - intros Hinvalid Hlimit Hfloor.
    rewrite (spec_outside_tests 1 100 _ eq_refl eq_refl Hlimit),
      (spec_outside_tests 0 1 _ eq_refl eq_refl Hfloor) in Hinvalid.
    destruct (spec_blank query); simpl in *.
    { exists EmptyQuery. repeat split. }
    destruct (10000 <? len query); simpl in *.
    { exists QueryTooLong. repeat split. }
    destruct (belowOrAbove 1 100 (limit options)); simpl in *.
    { exists LimitOutOfRange. repeat split. }
    destruct (belowOrAbove 0 1 (minSimilarity options)); simpl in *.
    { exists MinSimilarityOutOfRange. repeat split. }
    discriminate Hinvalid.
  - intros Hvalid.
    apply orb_false_elim in Hvalid as [Hvalid Hfloor].
    apply orb_false_elim in Hvalid as [Hvalid Hlimit].
    apply orb_false_elim in Hvalid as [Hblank Hlong].
    rewrite Hblank, Hlong,
      (spec_outside_false 1 100 _ eq_refl eq_refl Hlimit),
      (spec_outside_false 0 1 _ eq_refl eq_refl Hfloor).
    repeat split.
Qed.

(** A limit that is NaN compares neither below 1 nor above 100: it is
    not rejected. *)
Remark validateOptions_NaN_limit :
  validateOptions (mkSearchOptions (Some NaN) None None) = Ok tt.
Proof. reflexivity. Qed.

(** ** Expiry of cache entries *)

(** Lazy expiry: an entry stamped [timestamp] is live at a reading [t] of
    the clock exactly when [t - timestamp < cacheTTL]. The same constant
    serves the document snapshot and the query results. *)
Lemma isCacheValid_stamped (cacheKey : jsstring) (s : System W) (timestamp : Z) :
  documentCache s !! timestampKey cacheKey = Some (CTime timestamp) ->
  timestamp <> 0 ->
  isCacheValid cacheKey s
  = (Ok ((Date_now (world s)).1 - timestamp <? cacheTTL), started s).
Proof.
  intros Hlook Hnz. unfold isCacheValid, bind, gets. simpl. rewrite Hlook.
  destruct (timestamp =? 0) eqn:E; [apply Z.eqb_eq in E; contradiction|].
  rewrite now_run. reflexivity.
Qed.

Lemma isCacheValid_unstamped (cacheKey : jsstring) (s : System W) :
  documentCache s !! timestampKey cacheKey = None ->
  isCacheValid cacheKey s = (Ok false, s).
Proof.
  intros Hlook. unfold isCacheValid, bind, gets. simpl. rewrite Hlook.
  reflexivity.
Qed.

(** [isCacheValid] always answers, and touches nothing but the clock. *)
Lemma isCacheValid_total (cacheKey : jsstring) (s : System W) :
  exists valid s', isCacheValid cacheKey s = (Ok valid, s') /\
                   trace s' = trace s /\ sameCaches s s'.
Proof.
  unfold isCacheValid, bind, gets. simpl.
  destruct (documentCache s !! timestampKey cacheKey) as [[[|d ds]|t]|].
  - rewrite now_run. eexists _, _. repeat split.
  - rewrite now_run. eexists _, _. repeat split.
  - destruct (t =? 0); [|rewrite now_run]; eexists _, _; repeat split.
  - eexists _, _. repeat split.
Qed.

Lemma setCacheTimestamp_run (cacheKey : jsstring) (s : System W) :
  setCacheTimestamp cacheKey s =
  (Ok tt, setDocumentCache
            (<[timestampKey cacheKey := CTime (Date_now (world s)).1]>
               (documentCache s))
            (started s)).
Proof. unfold setCacheTimestamp, bind, modify. rewrite now_run. reflexivity. Qed.

(** ** What a search leaves behind *)

(** A fresh search that ends normally has stored its result under the
    cache key, stamped with a reading of the clock. *)
Lemma searchFresh_stores (query : jsstring) (options : SearchOptions)
      (cacheKey : jsstring) (s s' : System W) (results : list SearchResult) :
  searchFresh query options cacheKey s = (Ok results, s') ->
  searchCache s' !! cacheKey = Some results /\
  exists t, documentCache s' !! timestampKey cacheKey = Some (CTime t).
Proof.
  unfold searchFresh. intros Hrun.
  unfold bind at 1 in Hrun. rewrite now_run in Hrun.
  unfold bind at 1 in Hrun.
  destruct (generateEmbedding query _) as [[queryEmbedding|e|] s1];
    try discriminate.
  unfold bind at 1 in Hrun. rewrite now_run in Hrun.
  unfold bind at 1 in Hrun. rewrite now_run in Hrun.
  unfold bind at 1 in Hrun.
  destruct (getDocumentsWithCache _) as [[[documents|t]|e|] s2];
    try discriminate.
  - unfold bind at 1 in Hrun. rewrite now_run in Hrun.
    unfold bind at 1 in Hrun. rewrite now_run in Hrun.
    unfold bind at 1 in Hrun. rewrite now_run in Hrun.
    unfold bind at 1 in Hrun. unfold storeResults, modify in Hrun.
    unfold bind at 1 in Hrun. rewrite setCacheTimestamp_run in Hrun.
    unfold bind at 1 in Hrun. rewrite now_run in Hrun.
    injection Hrun as <- <-. simpl. split.
    + apply lookup_insert_eq.
    + eexists. apply lookup_insert_eq.
  - unfold bind at 1 in Hrun. rewrite now_run in Hrun.
    unfold bind at 1 in Hrun. rewrite now_run in Hrun.
    discriminate.
Qed.

Lemma answerQuery_stores (query : jsstring) (options : SearchOptions)
      (s s' : System W) (results : list SearchResult) :
  answerQuery query options s = (Ok results, s') ->
  searchCache s' !! createSearchCacheKey query options = Some results.
Proof.
  unfold answerQuery, bind at 1, gets at 1. simpl.
  destruct (searchCache s !! createSearchCacheKey query options)
    as [cached|] eqn:Hlook.
  - unfold bind at 1.
    destruct (isCacheValid_total (createSearchCacheKey query options) s)
      as (valid & s1 & -> & _ & _ & _ & Hc).
    destruct valid.
    + intros [= <- <-]. rewrite Hc. exact Hlook.
    + intros Hrun. apply searchFresh_stores in Hrun. apply Hrun.
  - intros Hrun. apply searchFresh_stores in Hrun. apply Hrun.
Qed.

(** ** The stamps of the document cache *)

Lemma timestampKey_not_snapshot (cacheKey : jsstring) :
  timestampKey cacheKey <> ALL_DOCUMENTS.
Proof.
  intros Heq. apply (f_equal (@last N)) in Heq.
  unfold timestampKey in Heq. rewrite last_app in Heq. discriminate Heq.
Qed.

Lemma stampedCache_empty : stampedCache ∅.
Proof. intros k v Hlook. rewrite lookup_empty in Hlook. discriminate. Qed.

Lemma stampedCache_stamp (cache : gmap jsstring CacheValue)
      (cacheKey : jsstring) (t : Z) :
  stampedCache cache -> stampedCache (<[timestampKey cacheKey := CTime t]> cache).
Proof.
  intros Hc k v Hlook. rewrite lookup_insert in Hlook.
  case_decide; [injection Hlook as <-; eauto|]. eapply Hc, Hlook.
Qed.

Lemma stampedCache_snapshot (cache : gmap jsstring CacheValue)
      (documents : list Document) :
  stampedCache cache -> stampedCache (<[ALL_DOCUMENTS := CDocs documents]> cache).
Proof.
  intros Hc k v Hlook. rewrite lookup_insert_ne in Hlook.
  - eapply Hc, Hlook.
  - intros Heq. symmetry in Heq. exact (timestampKey_not_snapshot k Heq).
Qed.

Lemma stampedCache_delete (cache : gmap jsstring CacheValue) (key : jsstring) :
  stampedCache cache -> stampedCache (delete key cache).
Proof.
  intros Hc k v Hlook. rewrite lookup_delete in Hlook.
  case_decide; [discriminate|]. eapply Hc, Hlook.
Qed.

Lemma generateEmbedding_documentCache (text : jsstring) (s : System W) :
  documentCache (generateEmbedding text s).2 = documentCache s.
Proof.
  destruct (embeddingCache s !! createTextHash text) as [cached|] eqn:Hlook.
  - rewrite (generateEmbedding_hit text s cached Hlook). reflexivity.
  - rewrite (generateEmbedding_miss text s Hlook).
    pose proof (embedText_caches text (missStart text s)) as (_ & Hd & _).
    destruct (embedText text (missStart text s)) as [[v|e|] s1]; exact Hd.
Qed.

Lemma isCacheValid_documentCache (cacheKey : jsstring) (s : System W) :
  documentCache (isCacheValid cacheKey s).2 = documentCache s.
Proof.
  destruct (isCacheValid_total cacheKey s) as (valid & s' & -> & _ & _ & Hd & _).
  exact Hd.
Qed.

Lemma refreshDocuments_stamped (s : System W) :
  stamped s -> stamped (refreshDocuments s).2.
Proof.
  unfold stamped, refreshDocuments, bind, modify, external, storeSnapshot.
  intros Hs. simpl.
  destruct (getAllDocuments (world s)) as [[documents|e|] w]; simpl; try exact Hs.
  rewrite setCacheTimestamp_run. simpl.
  apply stampedCache_stamp, stampedCache_snapshot, Hs.
Qed.

Lemma getDocumentsWithCache_stamped (s : System W) :
  stamped s -> stamped (getDocumentsWithCache s).2.
Proof.
  intros Hs. unfold getDocumentsWithCache, bind at 1, gets at 1. simpl.
  destruct (documentCache s !! ALL_DOCUMENTS) as [cached|];
    [|apply refreshDocuments_stamped, Hs].
  unfold bind.
  pose proof (isCacheValid_documentCache ALL_DOCUMENTS s) as Hd.
  destruct (isCacheValid_total ALL_DOCUMENTS s) as (valid & s1 & Hv & _).
  rewrite Hv in Hd |- *. simpl in Hd.
  assert (Hs1 : stamped s1) by (unfold stamped; rewrite Hd; exact Hs).
  destruct valid; [exact Hs1|apply refreshDocuments_stamped, Hs1].
Qed.

Lemma searchFresh_stamped (query : jsstring) (options : SearchOptions)
      (cacheKey : jsstring) (s : System W) :
  stamped s -> stamped (searchFresh query options cacheKey s).2.
Proof.
  intros Hs. unfold searchFresh.
  unfold bind at 1. rewrite now_run. fold (started s).
  unfold bind at 1.
  pose proof (generateEmbedding_documentCache query (started s)) as Hd1.
  destruct (generateEmbedding query (started s)) as [[queryEmbedding|e|] s1];
    simpl in Hd1; try (unfold stamped; simpl; rewrite Hd1; exact Hs).
  unfold bind at 1. rewrite now_run. fold (started s1).
  unfold bind at 1. rewrite now_run. fold (started (started s1)).
  unfold bind at 1.
  assert (Hs1 : stamped (started (started s1)))
    by (unfold stamped; simpl; rewrite Hd1; exact Hs).
  pose proof (getDocumentsWithCache_stamped _ Hs1) as Hs2.
  destruct (getDocumentsWithCache (started (started s1)))
    as [[[documents|t]|e|] s2]; simpl in Hs2; try exact Hs2.
  - unfold bind at 1. rewrite now_run.
    unfold bind at 1. rewrite now_run.
    unfold bind at 1. rewrite now_run.
    unfold bind at 1. unfold storeResults, modify.
    unfold bind at 1. rewrite setCacheTimestamp_run.
    unfold bind at 1. rewrite now_run.
    unfold stamped. simpl. apply stampedCache_stamp, Hs2.
  - unfold bind at 1. rewrite now_run.
    unfold bind at 1. rewrite now_run. exact Hs2.
Qed.

(** [searchSimilar] keeps the document cache in shape, however it ends. *)
Lemma searchSimilar_stamped (query : jsstring) (options : SearchOptions)
      (s : System W) :
  stamped s -> stamped (searchSimilar query options s).2.
Proof.
  intros Hs. rewrite searchSimilar_run.
  destruct (validateQuery query); try exact Hs.
  destruct (validateOptions options); try exact Hs.
  unfold answerQuery, bind at 1, gets at 1. simpl.
  assert (Hs0 : stamped (started s)) by exact Hs.
  destruct (searchCache s !! createSearchCacheKey query options) as [cached|];
    [|apply searchFresh_stamped, Hs0].
  unfold bind.
  pose proof (isCacheValid_documentCache
                (createSearchCacheKey query options) (started s)) as Hd.
  destruct (isCacheValid_total (createSearchCacheKey query options) (started s))
    as (valid & s1 & Hv & _).
  rewrite Hv in Hd |- *. simpl in Hd.
  assert (Hs1 : stamped s1) by (unfold stamped; rewrite Hd; exact Hs).
  destruct valid; [exact Hs1|apply searchFresh_stamped, Hs1].
Qed.

Lemma invalidateDocumentCache_stamped (s : System W) :
  stamped s -> stamped (invalidateDocumentCache s).2.
Proof.
  intros Hs. unfold stamped, invalidateDocumentCache, modify. simpl.
  apply stampedCache_delete, stampedCache_delete, Hs.
Qed.

(** A cache entry that is found valid has a stamp. *)
Lemma isCacheValid_true (cacheKey : jsstring) (s s' : System W) :
  isCacheValid cacheKey s = (Ok true, s') ->
  exists v, documentCache s' !! timestampKey cacheKey = Some v.
Proof.
  intros Hv. pose proof (isCacheValid_documentCache cacheKey s) as Hd.
  rewrite Hv in Hd. simpl in Hd. rewrite Hd.
  unfold isCacheValid, bind, gets in Hv. simpl in Hv.
  destruct (documentCache s !! timestampKey cacheKey) as [v|]; [eauto|].
  discriminate.
Qed.

Lemma answerQuery_leaves_stamp (query : jsstring) (options : SearchOptions)
      (s s' : System W) (results : list SearchResult) :
  stamped s ->
  answerQuery query options s = (Ok results, s') ->
  exists t, documentCache s' !! timestampKey (createSearchCacheKey query options)
            = Some (CTime t).
Proof.
  intros Hs. unfold answerQuery, bind at 1, gets at 1. simpl.
  destruct (searchCache s !! createSearchCacheKey query options) as [cached|];
    [|intros Hrun; apply searchFresh_stores in Hrun; apply Hrun].
  unfold bind at 1.
  pose proof (isCacheValid_documentCache
                (createSearchCacheKey query options) s) as Hd.
  destruct (isCacheValid (createSearchCacheKey query options) s)
    as [[[]|e|] s1] eqn:Hv; try discriminate.
  - intros [= <- <-]. simpl in Hd.
    destruct (isCacheValid_true _ _ _ Hv) as [v Hlook].
    assert (Hs1 : stamped s1) by (unfold stamped; rewrite Hd; exact Hs).
    destruct (Hs1 _ _ Hlook) as [t ->]. eauto.
  - intros Hrun. apply searchFresh_stores in Hrun. apply Hrun.
Qed.

(** C8. A search that has returned [results] leaves its cache entry with
    a stamp, a reading of the clock. When the search is repeated with the
    same arguments on the state it left, while the stamp is less than
    [cacheTTL] old (and is not the reading 0, which counts as no stamp),
    the second call returns the same [results]; it reads the clock twice
    and does nothing else - no backend call, no store call, no cache
    write. *)
Theorem searchSimilar_repeat_served_from_cache
        (query : jsstring) (options : SearchOptions) (s0 s1 : System W)
        (results : list SearchResult) :
  stamped s0 ->
  searchSimilar query options s0 = (Ok results, s1) ->
  exists stamp,
    documentCache s1 !! timestampKey (createSearchCacheKey query options)
    = Some (CTime stamp) /\
    (stamp <> 0 ->
     (Date_now (world (started s1))).1 - stamp < cacheTTL ->
     searchSimilar query options s1 = (Ok results, started (started s1)) /\
     trace (started (started s1)) = trace s1 /\
     sameCaches s1 (started (started s1))).
Proof.
  intros Hshape Hfirst.
  rewrite searchSimilar_run in Hfirst.
  destruct (validateQuery query) eqn:Hq; try discriminate.
  destruct (validateOptions options) eqn:Ho; try discriminate.
  destruct (answerQuery_leaves_stamp query options (started s0) s1 results
              Hshape Hfirst) as [stamp Hstamp].
  exists stamp. split; [exact Hstamp|].
  intros Hnz Hfresh. split; [|split; [reflexivity|same_caches]].
  rewrite searchSimilar_run, Hq, Ho.
  apply answerQuery_stores in Hfirst.
  unfold answerQuery, bind at 1, gets at 1. simpl. rewrite Hfirst.
  unfold bind at 1.
  rewrite (isCacheValid_stamped _ (started s1) stamp Hstamp Hnz).
  replace (_ <? cacheTTL) with true by (symmetry; apply Z.ltb_lt; exact Hfresh).
  reflexivity.
Qed.

End SearchFacts.

Section CacheKeyFacts.

Context {W : Type} `{Platform W}.

(** The cache key reads a missing [limit] as 5: a search without limit and
    a search with [limit: 5] share their cache entry. *)
Lemma createSearchCacheKey_default_limit (query : jsstring)
      (floor : option number) (meta : option bool) :
  createSearchCacheKey query (mkSearchOptions None floor meta)
  = createSearchCacheKey query (mkSearchOptions (Some (ofZ 5)) floor meta).
Proof. reflexivity. Qed.

End CacheKeyFacts.

(* ===================================================================== *)
(** * Ranking: sorting and truncation                                     *)
(* ===================================================================== *)

Section RankingFacts.

(** A rounded value built with a negative sign is never above zero. *)
Lemma binary_round_negative (m : positive) (e : Z) :
  gtb (binary_round prec emax true m e) zero = false.
Proof.
  unfold binary_round, binary_round_aux.
  destruct (shl_align m e _) as [mz ez].
  destruct (shr_fexp prec emax (Z.pos mz) ez loc_Exact) as [mrs' e'].
  destruct (shr_fexp prec emax _ e' loc_Exact) as [mrs'' e''].
  destruct (shr_m mrs''); [reflexivity| |reflexivity].
  destruct (e'' <=? emax - prec); reflexivity.
Qed.

Lemma binary_normalize_positive (z e : Z) :
  gtb (binary_normalize prec emax z e false) zero = true -> 0 < z.
Proof.
  destruct z; simpl; [discriminate|lia|].
  rewrite binary_round_negative. discriminate.
Qed.

(** If [x - y > 0] then [y - x > 0] does not hold. *)
Lemma sub_positive_asym (x y : number) :
  gtb (sub x y) zero = true -> gtb (sub y x) zero = false.
Proof.
  destruct x as [sx|sx| |sx mx ex], y as [sy|sy| |sy my ey];
    try solve [ try destruct sx; try destruct sy; cbn; intros;
                (discriminate || reflexivity) ].
  unfold sub, SFsub. intros Hpos. apply binary_normalize_positive in Hpos.
  rewrite (Z.min_comm ey ex).
  match goal with |- gtb (binary_normalize _ _ ?z _ _) _ = _ =>
    destruct z eqn:Ez end; [reflexivity|lia|apply binary_round_negative].
Qed.

Lemma mustFollow_asym (a b : SearchResult) :
  mustFollow a b = true -> mustFollow b a = false.
Proof. unfold mustFollow, comparefn. apply sub_positive_asym. Qed.

Lemma insertSorted_inOrder (a : SearchResult) (l : list SearchResult) :
  inOrder l -> inOrder (insertSorted a l).
Proof.
  unfold inOrder. induction l as [|b l IH]; intros Hs; simpl.
  - repeat constructor.
  - destruct (mustFollow a b) eqn:E.
    + apply Sorted_inv in Hs as [Hs Hb]. constructor; [apply IH, Hs|].
      destruct l as [|c l]; simpl.
      * constructor. apply mustFollow_asym, E.
      * destruct (mustFollow a c).
        -- inversion Hb; subst. constructor. assumption.
        -- constructor. apply mustFollow_asym, E.
    + constructor; [exact Hs|]. constructor. exact E.
Qed.

Lemma sortResultsBySimilarity_inOrder (l : list SearchResult) :
  inOrder (sortResultsBySimilarity l).
Proof.
  induction l as [|a l IH]; simpl; [constructor|].
  apply insertSorted_inOrder, IH.
Qed.

Lemma insertSorted_perm (a : SearchResult) (l : list SearchResult) :
  Permutation (insertSorted a l) (a :: l).
Proof.
  induction l as [|b l IH]; simpl; [reflexivity|].
  destruct (mustFollow a b); [|reflexivity].
  rewrite IH. apply perm_swap.
Qed.

(** Sorting keeps every result, each as often as before. *)
Lemma sortResultsBySimilarity_perm (l : list SearchResult) :
  Permutation (sortResultsBySimilarity l) l.
Proof.
  induction l as [|a l IH]; simpl; [reflexivity|].
  rewrite insertSorted_perm, IH. reflexivity.
Qed.

(** Stability: results the comparator does not tell apart stay in the
    order of retrieval. *)
Lemma insertSorted_stable (a : SearchResult) (l : list SearchResult) :
  Forall (fun b => mustFollow a b = false) l -> insertSorted a l = a :: l.
Proof.
  destruct l as [|b l]; [reflexivity|]. intros Hall.
  apply Forall_inv in Hall. simpl. rewrite Hall. reflexivity.
Qed.

Lemma sliceCount_le (n : nat) (finish : number) : (sliceCount n finish <= n)%nat.
Proof.
  unfold sliceCount. destruct finish as [s|[]| |[] m e]; try lia;
    cbv zeta; case_match; lia.
Qed.

(** Of a shorter list, [slice(0, end)] keeps no more. *)
Lemma sliceCount_mono (n n' : nat) (finish : number) :
  (n' <= n)%nat -> (sliceCount n' finish <= sliceCount n finish)%nat.
Proof.
  intros Hle. unfold sliceCount.
  destruct finish as [s|[]| |[] m e]; try lia; cbv zeta; case_match; lia.
Qed.

(** A limit that is given truncates: [slice(0, limit)] keeps the first
    [limit] results, rounded towards zero. *)
Lemma applySearchOptions_limit (results : list SearchResult)
      (options : SearchOptions) (n : number) :
  limit options = Some n ->
  (length (applySearchOptions results options)
   <= sliceCount (length results) n)%nat.
Proof.
  intros Hlimit. unfold applySearchOptions. rewrite Hlimit.
  assert (Hlen : forall l l' : list SearchResult,
             (length l' <= length l)%nat ->
             (length (slice0 (sortResultsBySimilarity l') n)
              <= sliceCount (length l) n)%nat).
  { intros l l' Hle. unfold slice0. rewrite length_take.
    rewrite (Permutation_length (sortResultsBySimilarity_perm l')).
    pose proof (sliceCount_le (length l') n).
    pose proof (sliceCount_mono (length l) (length l') n Hle). lia. }
  destruct (minSimilarity options) as [floor|];
    destruct (includeMetadata options) as [[]|]; rewrite ?length_map;
    apply Hlen; try lia; apply length_filter.
Qed.

(** No limit, no truncation: without [limit] and [minSimilarity] every
    result that was scored is returned. *)
Lemma applySearchOptions_no_limit (results : list SearchResult)
      (options : SearchOptions) :
  limit options = None -> minSimilarity options = None ->
  length (applySearchOptions results options) = length results.
Proof.
  intros Hlimit Hfloor. unfold applySearchOptions. rewrite Hlimit, Hfloor.
  destruct (includeMetadata options) as [[]|]; rewrite ?length_map;
    apply Permutation_length, sortResultsBySimilarity_perm.
Qed.

(** [slice(0, 5)] keeps five elements at most. *)
Lemma sliceCount_five (n : nat) : (sliceCount n (ofZ 5) <= 5)%nat.
Proof.
  assert (Hfive : ofZ 5 = S754_finite false 5629499534213120 (-50))
    by (vm_compute; reflexivity).
  unfold sliceCount. rewrite Hfive.
  replace (Z.shiftl (Z.pos 5629499534213120) (-50)) with 5
    by (vm_compute; reflexivity).
  cbv zeta. change (5 <? 0) with false. cbv iota. lia.
Qed.

(** A default of the facade stands only against a property that is
    missing: an object that carries all three properties is passed on as
    it reads, and [{limit: undefined}] reaches the provider without a
    limit. *)
Remark withSearchDefaults_carried (l m : option number) (i : option bool) :
  withSearchDefaults (mkOptionsObject (Holds l) (Holds m) (Holds i))
  = readOptions (mkOptionsObject (Holds l) (Holds m) (Holds i)) /\
  limit (withSearchDefaults (mkOptionsObject (Holds None) Missing Missing))
  = None.
Proof. split; reflexivity. Qed.

(** The facade passes the limit 5 when the caller's object carries none:
    a fresh search through [search] returns five results at most. *)
Lemma search_default_limit (results : list SearchResult) :
  limit (withSearchDefaults emptyObject) = Some (ofZ 5) /\
  (length (applySearchOptions results (withSearchDefaults emptyObject)) <= 5)%nat.
Proof.
  split; [reflexivity|].
  etransitivity; [apply (applySearchOptions_limit _ _ (ofZ 5)); reflexivity|].
  apply sliceCount_five.
Qed.

End RankingFacts.

(* ===================================================================== *)
(** * The search provider at work                                         *)
(* ===================================================================== *)

(** The state of a system that has just been set up is in shape. *)
Lemma boot_stamped (w : Lab.World) : stamped (Lab.boot w).
Proof. apply stampedCache_empty. Qed.

(** C8, at a search over six documents that is repeated a few
    milliseconds later: the answer comes from the cache. *)
Lemma searchSimilar_repeat_witness :
  searchSimilar (H := Lab.usual) Lab.question noOptions (Lab.boot Lab.library)
  = (Ok Lab.firstResults, Lab.firstSearch.2) /\
  searchSimilar (H := Lab.usual) Lab.question noOptions Lab.firstSearch.2
  = (Ok Lab.firstResults, started (H := Lab.usual)
                            (started (H := Lab.usual) Lab.firstSearch.2)) /\
  trace (started (H := Lab.usual) (started (H := Lab.usual) Lab.firstSearch.2))
  = trace Lab.firstSearch.2.
Proof.
  assert (Hfirst :
    searchSimilar (H := Lab.usual) Lab.question noOptions (Lab.boot Lab.library)
    = (Ok Lab.firstResults, Lab.firstSearch.2)) by (vm_compute; reflexivity).
  split; [exact Hfirst|].
  destruct (searchSimilar_repeat_served_from_cache (H := Lab.usual)
              Lab.question noOptions (Lab.boot Lab.library) Lab.firstSearch.2
              Lab.firstResults (boot_stamped Lab.library) Hfirst)
    as (stamp & Hstamp & Hrepeat).
  vm_compute in Hstamp. injection Hstamp as <-.
  destruct Hrepeat as (Hrun & Htrace & _).
  - discriminate.
  - vm_compute. reflexivity.
  - split; assumption.
Defined.

(** At a query of six blanks: it is rejected with a validation error
    before anything but the clock is touched. *)
Lemma searchSimilar_validation_before_io_witness :
  spec_invalidRequest Lab.blanks noOptions = true /\
  exists e,
    isValidationError e = true /\
    searchSimilar (H := Lab.usual) Lab.blanks noOptions (Lab.boot Lab.library)
    = (Throw e, started (H := Lab.usual) (Lab.boot Lab.library)).
Proof.
  split; [reflexivity|].
  destruct (searchSimilar_validation_before_io (H := Lab.usual) Lab.blanks
              noOptions (Lab.boot Lab.library)) as [Hblank _].
  destruct (Hblank eq_refl eq_refl eq_refl) as (e & He & Hrun & _).
  exists e. split; assumption.
Defined.

(** C7. A [limit] that is NaN is not in [[1, 100]], yet [searchSimilar]
    does not reject it: both comparisons of [validateOptions] are false
    on NaN. The request goes on to the embedding backend and to the store,
    [slice(0, NaN)] leaves no result, and the empty list is cached under
    the key of the request without options, because the key is built with
    [limit || 5]: the same question asked next with no option is answered
    with nothing, where a fresh search finds six documents. A
    [minSimilarity] that is NaN passes [validateOptions] in the same
    way. *)
Theorem searchSimilar_accepts_NaN_limit :
  spec_invalidRequest Lab.question Bench.limitNaN = true /\
  validateOptions Bench.limitNaN = Ok tt /\
  spec_invalidRequest Lab.question (mkSearchOptions None (Some NaN) None)
  = true /\
  validateOptions (mkSearchOptions None (Some NaN) None) = Ok tt /\
  Bench.nanSearch.1 = Ok [] /\
  trace Bench.nanSearch.2
  = [CallGenerateEmbedding Lab.question; CallBackend Lab.question;
     CallGetAllDocuments] /\
  createSearchCacheKey (H := Lab.usual) Lab.question Bench.limitNaN
  = createSearchCacheKey (H := Lab.usual) Lab.question noOptions /\
  searchCache Bench.nanSearch.2
    !! createSearchCacheKey (H := Lab.usual) Lab.question noOptions
  = Some [] /\
  Bench.searchAfterNaN.1 = Ok [] /\
  length Lab.firstResults = 6%nat.
Proof. repeat split; vm_compute; reflexivity. Qed.

(** C2. [searchSimilar] called with no [limit] returns all six matching
    documents, not five; and since the cache key is built with
    [limit || 5], the same six come back from the cache when the question
    is asked again with [limit: 5]. *)
Theorem searchSimilar_without_limit_returns_all :
  limit noOptions = None /\
  Lab.firstSearch.1 = Ok Lab.firstResults /\
  length Lab.firstResults = 6%nat /\
  createSearchCacheKey (H := Lab.usual) Lab.question Lab.limitFive
  = createSearchCacheKey (H := Lab.usual) Lab.question noOptions /\
  Lab.secondSearch.1 = Ok Lab.firstResults.
Proof. repeat split; vm_compute; reflexivity. Qed.

(** C6. The facade's defaults are 3600 s for the document cache and 1800 s
    for the query cache, but the search provider applies its one
    [cacheTTL] of 1800 s to both: a document snapshot that is 1800 s old,
    half of its configured life, is fetched from the store again. *)
Theorem document_snapshot_expires_at_cacheTTL :
  documentCacheTTL defaultConfig = 3600 /\
  searchCacheTTL defaultConfig = 1800 /\
  cacheTTL = 1800 * 1000 /\
  documentCache Lab.snapshotTaken !! timestampKey ALL_DOCUMENTS
  = Some (CTime 1000) /\
  Lab.clock (world Lab.halfAnHourLater) - 1000 = 1800 * 1000 /\
  1800 * 1000 < documentCacheTTL defaultConfig * 1000 /\
  trace Lab.snapshotTaken = [CallGetAllDocuments] /\
  trace Lab.snapshotAskedAgain.2 = [CallGetAllDocuments; CallGetAllDocuments].
Proof. repeat split; vm_compute; reflexivity. Qed.

(* ===================================================================== *)
(** * The facade: [updateDocument]                                        *)
(* ===================================================================== *)

Section FacadeFacts.

Context {W : Type} `{Platform W}.

Lemma updateDocument_unknown (id : jsstring) (content : option jsstring)
      (metadata : option Metadata) (s : System W) (w1 : W) :
  getDocument id (world s) = (Ok None, w1) ->
  updateDocument id content metadata s
  = (Throw (DocumentNotFound id), setWorld w1 (record (CallGetDocument id) s)).
Proof.
  intros Hget. unfold updateDocument, bind, modify, external. simpl.
  rewrite Hget. reflexivity.
Qed.

(** With no content given, or the stored content given again, the update
    reads the document, reads the clock, and saves: the embedding provider
    is not called. *)
Lemma updateDocument_same_content (id : jsstring) (content : option jsstring)
      (metadata : option Metadata) (s : System W) (existingDoc : Document)
      (w1 : W) :
  getDocument id (world s) = (Ok (Some existingDoc), w1) ->
  provided content = None \/ provided content = Some (doc_content existingDoc) ->
  let updatedDoc :=
    metadataUpdate id existingDoc metadata (toISOString (Date_now w1).1) in
  let s2 := record (CallSaveDocument updatedDoc)
              (setWorld (Date_now w1).2 (record (CallGetDocument id) s)) in
  updateDocument id content metadata s =
  match saveDocument updatedDoc (world s2) with
  | (Ok _, w3) => invalidateDocumentCache (setWorld w3 s2)
  | (Throw e, w3) => (Throw e, setWorld w3 s2)
  | (Hang, w3) => (Hang, setWorld w3 s2)
  end.
Proof.
  intros Hget Hsame updatedDoc s2.
  unfold updateDocument.
  unfold bind at 1. unfold modify at 1.
  unfold bind at 1. unfold external at 1. simpl. rewrite Hget.
  unfold bind at 1. rewrite now_run. simpl.
  assert (Hstep :
    (match provided content with
     | Some c =>
         if bool_decide (c = doc_content existingDoc)
         then ret (doc_embedding existingDoc)
         else let* e := generateEmbedding
                          (default (doc_content existingDoc) (provided content))
              in ret (Some e)
     | None => ret (doc_embedding existingDoc)
     end) = (ret (doc_embedding existingDoc) : M W (option vector)) /\
    default (doc_content existingDoc) (provided content) = doc_content existingDoc).
  { destruct Hsame as [-> | ->]; [split; reflexivity|].
    rewrite bool_decide_eq_true_2 by reflexivity. split; reflexivity. }
  destruct Hstep as [Hemb Hcontent]. rewrite Hemb, Hcontent.
  unfold bind at 1. unfold ret at 1.
  unfold bind at 1. unfold modify at 1.
  unfold bind at 1. unfold external at 1.
  subst s2 updatedDoc. unfold metadataUpdate. simpl.
  destruct (saveDocument _ (Date_now w1).2) as [[saved|e|] w3]; reflexivity.
Qed.

(** C9 (as amended). [updateDocument] throws [DocumentNotFound] when the
    store does not know the id. Otherwise, when no content is given (or the
    stored content is given again), it calls the store twice and the
    embedding provider not at all, and the document it saves has the stored
    content, the stored embedding, and as metadata the stored fields
    overridden by the supplied ones and then by an [updatedAt] field set
    to the current time. *)
Theorem updateDocument_metadata_only (id : jsstring)
        (metadata : option Metadata) (s : System W) :
  (forall content w1,
      getDocument id (world s) = (Ok None, w1) ->
      updateDocument id content metadata s
      = (Throw (DocumentNotFound id), setWorld w1 (record (CallGetDocument id) s)))
  /\
  (forall content existingDoc w1,
      getDocument id (world s) = (Ok (Some existingDoc), w1) ->
      provided content = None \/ provided content = Some (doc_content existingDoc) ->
      let saved :=
        metadataUpdate id existingDoc metadata (toISOString (Date_now w1).1) in
      let s' := (updateDocument id content metadata s).2 in
      trace s' = trace s ++ [CallGetDocument id; CallSaveDocument saved] /\
      embeddingCache s' = embeddingCache s /\
      doc_content saved = doc_content existingDoc /\
      doc_embedding saved = doc_embedding existingDoc /\
      doc_metadata saved
      = <[UPDATED_AT := VString (toISOString (Date_now w1).1)]>
          (default ∅ metadata ∪ doc_metadata existingDoc)).
Proof.
  split.
  - intros content w1 Hget. apply updateDocument_unknown. exact Hget.
  - intros content existingDoc w1 Hget Hsame saved s'. subst s'.
    rewrite (updateDocument_same_content id content metadata s existingDoc w1
               Hget Hsame).
    subst saved. unfold metadataUpdate. simpl.
    destruct (saveDocument _ (Date_now w1).2) as [[savedId|e|] w3]; simpl;
      rewrite <- app_assoc; repeat split.
Qed.

(** [updateDocument] keeps the document cache in shape, however it ends. *)
Lemma updateDocument_stamped (id : jsstring) (content : option jsstring)
      (metadata : option Metadata) (s : System W) :
  stamped s -> stamped (updateDocument id content metadata s).2.
Proof.
  intros Hs. unfold updateDocument.
  unfold bind at 1. unfold modify at 1.
  unfold bind at 1. unfold external at 1. simpl.
  destruct (getDocument id (world s)) as [[[existingDoc|]|e|] w1]; simpl;
    try exact Hs.
  unfold bind at 1. rewrite now_run. simpl.
  set (s1 := setWorld (Date_now w1).2 (setWorld w1 (record (CallGetDocument id) s))).
  assert (Hs1 : stamped s1) by exact Hs.
  assert (Hsave : forall embedding (s2 : System W),
             stamped s2 ->
             stamped
               ((let updatedDoc :=
                   mkDocument id
                     (default (doc_content existingDoc) (provided content))
                     (mergeMetadata (doc_metadata existingDoc) metadata
                                    (toISOString (Date_now w1).1))
                     embedding in
                 let* _ := modify (record (CallSaveDocument updatedDoc)) in
                 let* _ := external (saveDocument updatedDoc) in
                 invalidateDocumentCache) s2).2).
  { intros embedding s2 Hs2. unfold bind, modify, external. simpl.
    destruct (saveDocument _ (world s2)) as [[saved|e|] w3]; simpl;
      try exact Hs2.
    apply stampedCache_delete, stampedCache_delete, Hs2. }
  unfold bind at 1.
  destruct (provided content) as [c|]; [|apply Hsave, Hs1].
  destruct (bool_decide (c = doc_content existingDoc)); [apply Hsave, Hs1|].
  unfold bind at 1.
  pose proof (generateEmbedding_documentCache
                (default (doc_content existingDoc) (Some c)) s1) as Hd.
  destruct (generateEmbedding (default (doc_content existingDoc) (Some c)) s1)
    as [[v|e|] s2]; simpl in Hd;
    try (unfold stamped; simpl; rewrite Hd; exact Hs).
  apply Hsave. unfold stamped. rewrite Hd. exact Hs.
Qed.

End FacadeFacts.

(** C9, at a stored note that is given a title: the store is asked for the
    note and then handed the note with the merged and stamped metadata. *)
Lemma updateDocument_metadata_witness :
  getDocument (Platform := Lab.usual) (str "n1") Lab.desk
  = (Ok (Some Lab.note), Lab.desk) /\
  trace Lab.titleUpdate.2
  = [CallGetDocument (str "n1");
     CallSaveDocument
       (metadataUpdate (str "n1") Lab.note (Some Lab.newTitle)
                       (Lab.isoStamp 1000))].
Proof.
  split; [reflexivity|].
  destruct (updateDocument_metadata_only (H := Lab.usual) (str "n1")
              (Some Lab.newTitle) (Lab.boot Lab.desk)) as [_ Hknown].
  destruct (Hknown None Lab.note Lab.desk eq_refl (or_introl eq_refl))
    as (Htrace & _).
  exact Htrace.
Defined.

(** C9, as stated, fails: the saved metadata is not the plain merge of the
    stored metadata with the supplied fields; it carries an [updatedAt]
    that neither had. *)
Lemma updateDocument_metadata_not_plain_merge :
  exists saved,
    trace Lab.titleUpdate.2
    = [CallGetDocument (str "n1"); CallSaveDocument saved] /\
    doc_metadata saved <> Lab.newTitle ∪ Lab.noteMetadata /\
    (Lab.newTitle ∪ Lab.noteMetadata) !! UPDATED_AT = None /\
    doc_metadata saved !! UPDATED_AT = Some (VString (Lab.isoStamp 1000)).
Proof.
  eexists. split; [vm_compute; reflexivity|].
  split; [|split; vm_compute; reflexivity].
  intros Heq. apply (f_equal (fun m => m !! UPDATED_AT)) in Heq.
  vm_compute in Heq. discriminate.
Qed.

(* ===================================================================== *)
(** * [TextSplitter]: what the chunks are                                 *)
(* ===================================================================== *)

Section TrimFacts.

(** [trimStart] removes a prefix of white space. *)
Lemma trimStart_prefix (s : jsstring) :
  exists ws, s = ws ++ trimStart s /\ forallb isWhiteSpace ws = true.
Proof.
  induction s as [|c s (ws & Hs & Hw)]; [exists []; auto|].
  simpl. destruct (isWhiteSpace c) eqn:E.
  - exists (c :: ws). simpl. rewrite E, Hw. split; [congruence|reflexivity].
  - exists []. auto.
Qed.

Lemma visible_app (s t : jsstring) : visible (s ++ t) = visible s ++ visible t.
Proof. apply List.filter_app. Qed.

Lemma visible_whitespace (s : jsstring) :
  forallb isWhiteSpace s = true -> visible s = [].
Proof.
  induction s as [|c s IH]; simpl; [reflexivity|].
  intros [Hc Hs]%andb_prop. unfold visible in *. simpl. rewrite Hc. simpl. auto.
Qed.

Lemma visible_trimStart (s : jsstring) : visible (trimStart s) = visible s.
Proof.
  destruct (trimStart_prefix s) as (ws & Hs & Hw).
  rewrite Hs at 2. rewrite visible_app, (visible_whitespace ws Hw). reflexivity.
Qed.

(** Trimming removes white space only. *)
Lemma visible_trim (s : jsstring) : visible (trim s) = visible s.
Proof.
  unfold trim, trimEnd, visible.
  rewrite List.filter_rev. fold (visible (trimStart (rev (trimStart s)))).
  rewrite visible_trimStart. unfold visible. rewrite List.filter_rev, rev_involutive.
  apply visible_trimStart.
Qed.

(** A trimmed string that is not empty begins and ends with a character
    that is not white space. *)
Lemma trim_ends (s : jsstring) :
  trim s <> [] ->
  (exists c rest, trim s = c :: rest /\ isWhiteSpace c = false) /\
  (exists front c, trim s = front ++ [c] /\ isWhiteSpace c = false).
Proof.
  unfold trim, trimEnd. intros Hne.
  destruct (trimStart (rev (trimStart s))) as [|c u] eqn:Eu; [contradiction|].
  pose proof (trimStart_head _ _ _ Eu) as Hc.
  split; [|exists (rev u), c; auto].
  destruct (trimStart_prefix (rev (trimStart s))) as (ws & Hs & Hw).
  rewrite Eu in Hs. apply (f_equal (@rev N)) in Hs.
  rewrite rev_involutive, rev_app_distr in Hs. simpl in Hs.
  destruct (trimStart s) as [|d t] eqn:Et.
  - destruct (rev u); discriminate Hs.
  - pose proof (trimStart_head _ _ _ Et) as Hd.
    simpl. destruct (rev u) as [|x r] eqn:Er; simpl in *.
    + exists c, []. auto.
    + injection Hs as -> Ht. exists x, (r ++ [c]). auto.
Qed.

End TrimFacts.

Section ChunkFacts.

Variable text : jsstring.
Variable maxChars : Z.

(** A window and what follows it make up what follows its start. *)
Lemma substring_window (a b : Z) :
  0 <= a <= b -> b <= len text ->
  substring text a b ++ drop (Z.to_nat b) text = drop (Z.to_nat a) text.
Proof.
  intros Ha Hb. unfold substring, clamp.
  replace (Z.min (Z.min (Z.max a 0) (len text)) (Z.min (Z.max b 0) (len text)))
    with a by lia.
  replace (Z.max (Z.min (Z.max a 0) (len text)) (Z.min (Z.max b 0) (len text)))
    with b by lia.
  replace (Z.to_nat b) with (Z.to_nat a + Z.to_nat (b - a))%nat by lia.
  rewrite <- drop_drop. apply take_drop.
Qed.

(** With [maxChars <= 0] the cursor of a text of two characters or more
    never passes position 1. *)
Lemma splitLoop_nonpositive_hangs (fuel : nat) (chunks : list jsstring) :
  maxChars <= 0 -> 2 <= len text ->
  splitLoop fuel text maxChars 0 chunks = None.
Proof.
  intros Hm Hl. destruct (Z.eq_dec maxChars 0) as [->|Hne].
  - apply splitLoop_zero_hangs. lia.
  - apply splitLoop_negative_hangs; [lia|]. left. lia.
Qed.

Hypothesis maxChars_pos : 1 <= maxChars.

Lemma splitLoop_visible (fuel : nat) :
  forall currentPos chunks result,
    0 <= currentPos <= len text ->
    splitLoop fuel text maxChars currentPos chunks = Some result ->
    visible (concat result)
    = visible (concat chunks) ++ visible (drop (Z.to_nat currentPos) text).
Proof.
  induction fuel as [|fuel IH]; intros cur chunks result Hc Hrun;
    [discriminate|].
  simpl in Hrun. destruct (cur <? len text) eqn:E.
  - apply Z.ltb_lt in E.
    destruct (nextEndPos_bounds text maxChars maxChars_pos cur) as [Hn _];
      [lia|].
    set (e := nextEndPos text maxChars cur) in *.
    apply IH in Hrun; [|lia]. rewrite Hrun.
    rewrite <- (substring_window cur e) by lia.
    rewrite visible_app, <- (visible_trim (substring text cur e)), app_assoc.
    f_equal.
    destruct (0 <? len (trim (substring text cur e))) eqn:E3.
    + rewrite concat_app, visible_app. simpl. rewrite app_nil_r. reflexivity.
    + destruct (trim (substring text cur e)); [|discriminate E3].
      rewrite app_nil_r. reflexivity.
  - apply Z.ltb_ge in E. injection Hrun as <-.
    rewrite drop_ge by (unfold len in *; lia). rewrite app_nil_r. reflexivity.
Qed.

End ChunkFacts.

(** X1. With a positive [maxChars], [splitIntoChunks] returns, and each of
    its chunks is non-empty, at most [maxChars + 1] characters long, and
    begins and ends with a character that is not white space. *)
Theorem splitIntoChunks_chunks_trimmed (text : jsstring) (maxChars : Z) :
  1 <= maxChars ->
  exists chunks,
    splitIntoChunks text maxChars = Some chunks /\
    Forall (fun chunk =>
              0 < len chunk <= maxChars + 1 /\
              (exists c rest, chunk = c :: rest /\ isWhiteSpace c = false) /\
              (exists front c, chunk = front ++ [c] /\ isWhiteSpace c = false))
           chunks.
Proof.
  intros Hm.
  destruct (splitLoop_returns text maxChars Hm
              (fun chunk =>
                 0 < len chunk <= maxChars + 1 /\
                 (exists c rest, chunk = c :: rest /\ isWhiteSpace c = false) /\
                 (exists front c, chunk = front ++ [c] /\ isWhiteSpace c = false)))
    with (fuel := S (length text)) (currentPos := 0) (chunks := @nil jsstring)
    as (added & Hs & Ha).
  - intros currentPos Hc chunk Hlen. subst chunk.
    destruct (nextEndPos_bounds text maxChars Hm currentPos Hc) as [Hn Hn'].
    pose proof (trim_length (substring text currentPos
                               (nextEndPos text maxChars currentPos))) as Ht.
    pose proof (substring_length text currentPos
                  (nextEndPos text maxChars currentPos)) as Hl.
    split; [unfold len in *; lia|].
    apply trim_ends. intros Hnil. rewrite Hnil in Hlen. unfold len in Hlen.
    simpl in Hlen. lia.
  - pose proof (len_nonneg text). lia.
  - unfold len. lia.
  - exists added. split; [exact Hs|exact Ha].
Qed.

Lemma splitIntoChunks_chunks_trimmed_witness :
  exists chunks,
    splitIntoChunks (str "one two. three") 8 = Some chunks /\
    Forall (fun chunk =>
              0 < len chunk <= 8 + 1 /\
              (exists c rest, chunk = c :: rest /\ isWhiteSpace c = false) /\
              (exists front c, chunk = front ++ [c] /\ isWhiteSpace c = false))
           chunks.
Proof. apply (splitIntoChunks_chunks_trimmed (str "one two. three") 8). lia. Defined.

(** X2. Chunking loses white space only: the characters of the chunks
    that are not white space are those of the text, in the same order. *)
Theorem splitIntoChunks_keeps_visible_text (text : jsstring) (maxChars : Z)
        (chunks : list jsstring) :
  1 <= maxChars ->
  splitIntoChunks text maxChars = Some chunks ->
  visible (concat chunks) = visible text.
Proof.
  intros Hm Hrun.
  apply (splitLoop_visible text maxChars Hm) in Hrun.
  - exact Hrun.
  - pose proof (len_nonneg text). lia.
Qed.

Lemma splitIntoChunks_keeps_visible_text_witness :
  visible (concat [str "one two."; str "three"]) = visible (str "one two. three").
Proof.
  apply (splitIntoChunks_keeps_visible_text (str "one two. three") 8); [lia|].
  vm_compute. reflexivity.
Defined.

(** X3. A text of at most [maxChars] characters is one chunk, the text
    trimmed, or no chunk when nothing is left of it. *)
Theorem splitIntoChunks_short_text (text : jsstring) (maxChars : Z) :
  len text <= maxChars ->
  splitIntoChunks text maxChars
  = Some (if 0 <? len (trim text) then [trim text] else []).
Proof.
  intros Hm. unfold splitIntoChunks.
  destruct text as [|c rest]; [reflexivity|].
  set (text := c :: rest) in *.
  assert (Hl : 1 <= len text) by (unfold len, text; simpl; lia).
  assert (Hn : nextEndPos text maxChars 0 = len text).
  { unfold nextEndPos.
    replace (Z.min (0 + maxChars) (len text)) with (len text) by lia.
    rewrite Z.ltb_irrefl. reflexivity. }
  assert (Hs : substring text 0 (len text) = text).
  { pose proof (substring_window text 0 (len text)) as Hw.
    rewrite drop_ge, app_nil_r in Hw by (unfold len; lia).
    apply Hw; lia. }
  change (S (length text)) with (S (S (length rest))).
  cbn [splitLoop].
  replace (0 <? len text) with true by (symmetry; apply Z.ltb_lt; lia).
  rewrite Hn, Hs, Z.ltb_irrefl.
  destruct (0 <? len (trim text)); reflexivity.
Qed.

Lemma splitIntoChunks_short_text_witness :
  splitIntoChunks (str " hello ") 8000
  = Some (if 0 <? len (trim (str " hello ")) then [trim (str " hello ")] else []).
Proof. apply (splitIntoChunks_short_text (str " hello ") 8000). vm_compute. discriminate. Defined.

(** X4. With [maxChars <= 0] the loop of [splitIntoChunks] never ends on
    a text of two characters or more: no number of iterations gives a
    result. *)
Theorem splitIntoChunks_nonpositive_never_returns (text : jsstring)
        (maxChars : Z) (fuel : nat) :
  maxChars <= 0 -> 2 <= len text ->
  splitLoop fuel text maxChars 0 [] = None /\
  splitIntoChunks text maxChars = None.
Proof.
  intros Hm Hl. split; [|unfold splitIntoChunks];
    apply splitLoop_nonpositive_hangs; assumption.
Qed.

Lemma splitIntoChunks_nonpositive_witness :
  splitLoop 1000 (str "ab") (-3) 0 [] = None /\
  splitIntoChunks (str "ab") (-3) = None.
Proof.
  apply (splitIntoChunks_nonpositive_never_returns (str "ab") (-3) 1000).
  - lia.
  - vm_compute. discriminate.
Defined.

Section DetailedChunkFacts.

Variable text : jsstring.
Variable maxChars : Z.

(** The detailed loop pushes the chunks of the plain loop. *)
Lemma detailedLoop_contents (fuel : nat) :
  forall currentPos chunkIndex chunks,
    option_map (map content)
               (detailedLoop fuel text maxChars currentPos chunkIndex chunks)
    = splitLoop fuel text maxChars currentPos (map content chunks).
Proof.
  induction fuel as [|fuel IH]; intros cur idx chunks; [reflexivity|].
  simpl. destruct (cur <? len text); [|reflexivity].
  destruct (0 <? len (trim (substring text cur (nextEndPos text maxChars cur))));
    rewrite IH; [|reflexivity].
  rewrite map_app. reflexivity.
Qed.

Hypothesis maxChars_pos : 1 <= maxChars.

(** What the detailed loop adds from [currentPos] on. *)
Lemma detailedLoop_positions (fuel : nat) :
  forall currentPos chunkIndex chunks,
    0 <= currentPos <= len text ->
    len text - currentPos < Z.of_nat fuel ->
    exists added,
      detailedLoop fuel text maxChars currentPos chunkIndex chunks
      = Some (chunks ++ added) /\
      map index added = seqZ chunkIndex (Z.of_nat (length added)) /\
      Forall (fun d =>
                currentPos <= startPosition d /\
                startPosition d < endPosition d <= len text /\
                endPosition d - startPosition d <= maxChars + 1 /\
                content d
                = trim (substring text (startPosition d) (endPosition d)))
             added /\
      StronglySorted (fun a b => endPosition a <= startPosition b) added.
Proof.
  induction fuel as [|fuel IH]; intros cur idx chunks Hc Hf; [lia|].
  simpl. destruct (cur <? len text) eqn:E.
  - apply Z.ltb_lt in E.
    destruct (nextEndPos_bounds text maxChars maxChars_pos cur) as [Hn Hn'];
      [lia|].
    set (e := nextEndPos text maxChars cur) in *.
    destruct (0 <? len (trim (substring text cur e))) eqn:E3.
    + destruct (IH e (idx + 1)
                   (chunks ++ [mkTextChunk (trim (substring text cur e)) idx cur e]))
        as (added & Hrun & Hidx & Hall & Hsorted); [lia|lia|].
      exists (mkTextChunk (trim (substring text cur e)) idx cur e :: added).
      split; [rewrite Hrun, <- app_assoc; reflexivity|].
      split.
      { cbn [map length index]. rewrite Hidx.
        rewrite (seqZ_cons idx) by lia. f_equal. f_equal; lia. }
      split.
      { constructor; [simpl; repeat split; lia|].
        eapply Forall_impl; [exact Hall|]. simpl. intros d (? & ? & ? & ?).
        repeat split; (lia || assumption). }
      constructor; [exact Hsorted|].
      eapply Forall_impl; [exact Hall|]. simpl. intros d (? & _). lia.
    + destruct (IH e idx chunks) as (added & Hrun & Hidx & Hall & Hsorted);
        [lia|lia|].
      exists added. split; [exact Hrun|]. split; [exact Hidx|].
      split; [|exact Hsorted].
      eapply Forall_impl; [exact Hall|]. simpl. intros d (? & ? & ? & ?).
      repeat split; (lia || assumption).
  - exists []. rewrite app_nil_r. repeat split; constructor.
Qed.

End DetailedChunkFacts.

(** X5. [splitIntoDetailedChunks] cuts the text as [splitIntoChunks]
    does, for every [maxChars]: the contents of its chunks are the plain
    chunks, and it returns exactly when the plain splitter returns. *)
Theorem splitIntoDetailedChunks_contents (text : jsstring) (maxChars : Z) :
  option_map (map content) (splitIntoDetailedChunks text maxChars)
  = splitIntoChunks text maxChars.
Proof. apply detailedLoop_contents. Qed.

(** X6. With a positive [maxChars] the detailed chunks are numbered
    0, 1, 2, ...; each one is the trimmed window
    [[startPosition, endPosition)] of the text, a window that is not empty
    and at most [maxChars + 1] wide; the windows follow one another
    without overlap. *)
Theorem splitIntoDetailedChunks_positions (text : jsstring) (maxChars : Z) :
  1 <= maxChars ->
  exists chunks,
    splitIntoDetailedChunks text maxChars = Some chunks /\
    map index chunks = seqZ 0 (Z.of_nat (length chunks)) /\
    Forall (fun d =>
              0 <= startPosition d /\
              startPosition d < endPosition d <= len text /\
              endPosition d - startPosition d <= maxChars + 1 /\
              content d
              = trim (substring text (startPosition d) (endPosition d)))
           chunks /\
    StronglySorted (fun a b => endPosition a <= startPosition b) chunks.
Proof.
  intros Hm.
  destruct (detailedLoop_positions text maxChars Hm (S (length text)) 0 0 [])
    as (added & Hrun & H); [pose proof (len_nonneg text); lia|unfold len; lia|].
  exists added. split; [exact Hrun|exact H].
Qed.

Lemma splitIntoDetailedChunks_positions_witness :
  exists chunks,
    splitIntoDetailedChunks (str "one two. three") 8 = Some chunks /\
    map index chunks = seqZ 0 (Z.of_nat (length chunks)) /\
    Forall (fun d =>
              0 <= startPosition d /\
              startPosition d < endPosition d <= len (str "one two. three") /\
              endPosition d - startPosition d <= 8 + 1 /\
              content d
              = trim (substring (str "one two. three")
                                (startPosition d) (endPosition d)))
           chunks /\
    StronglySorted (fun a b => endPosition a <= startPosition b) chunks.
Proof.
  apply (splitIntoDetailedChunks_positions (str "one two. three") 8). lia.
Defined.

Section ChunkSizeFacts.

Lemma splitAtBlankLines_step (c c' : N) (rest piece : jsstring) :
  splitAtBlankLines (c :: c' :: rest) piece
  = if (c =? NEWLINE)%N && (c' =? NEWLINE)%N
    then piece :: splitAtBlankLines rest []
    else splitAtBlankLines (c' :: rest) (piece ++ [c]).
Proof. reflexivity. Qed.

(** No piece of [split('\n\n')] is longer than the string. *)
Lemma splitAtBlankLines_length (n : nat) :
  forall s piece p,
    (length s <= n)%nat ->
    In p (splitAtBlankLines s piece) ->
    len p <= len piece + len s.
Proof.
  induction n as [|n IH]; intros s piece p Hn Hin.
  - destruct s; [|simpl in Hn; lia]. simpl in Hin.
    destruct Hin as [<-|[]]. unfold len. simpl. lia.
  - destruct s as [|c [|c' rest]].
    + destruct Hin as [<-|[]]. unfold len. simpl. lia.
    + destruct Hin as [<-|[]]. unfold len. rewrite length_app. simpl. lia.
    + rewrite splitAtBlankLines_step in Hin.
      destruct ((c =? NEWLINE)%N && (c' =? NEWLINE)%N).
      * destruct Hin as [<-|Hin]; [unfold len; simpl; lia|].
        apply IH in Hin; [|simpl in Hn; lia].
        unfold len in *. simpl length in *. lia.
      * apply IH in Hin; [|simpl in *; lia].
        unfold len in *. rewrite length_app in Hin. simpl length in *. lia.
Qed.

Lemma hasLongParagraphs_short (text : jsstring) :
  len text <= 1000 -> hasLongParagraphs text = false.
Proof.
  intros Hl. unfold hasLongParagraphs.
  apply not_true_is_false. intros (p & Hin & Hp)%existsb_exists.
  apply List.filter_In in Hin as [Hin _].
  apply (splitAtBlankLines_length (length text)) in Hin; [|lia].
  apply Z.ltb_lt in Hp. unfold len in *. simpl in Hin. lia.
Qed.

End ChunkSizeFacts.

(** X7. [estimateOptimalChunkSize] answers 6000, 8000, 10000 or 12000,
    so that the cap of line 106 never changes the size; a text of at most
    1000 characters has no long paragraph and gets 10000 at most. *)
Theorem estimateOptimalChunkSize_range (text : jsstring) :
  In (estimateOptimalChunkSize text) [6000; 8000; 10000; 12000] /\
  (len text <= 1000 -> estimateOptimalChunkSize text <= 10000).
Proof.
  split.
  - unfold estimateOptimalChunkSize.
    destruct (gtb (calculateAverageSentenceLength text) (ofZ 200)),
      (ltb (calculateAverageSentenceLength text) (ofZ 50)),
      (hasLongParagraphs text); simpl; tauto.
  - intros Hl. unfold estimateOptimalChunkSize.
    rewrite (hasLongParagraphs_short text Hl).
    destruct (gtb (calculateAverageSentenceLength text) (ofZ 200)),
      (ltb (calculateAverageSentenceLength text) (ofZ 50)); simpl; lia.
Qed.

Lemma estimateOptimalChunkSize_range_witness :
  In (estimateOptimalChunkSize (str "Hi. Ok!")) [6000; 8000; 10000; 12000] /\
  estimateOptimalChunkSize (str "Hi. Ok!") <= 10000.
Proof.
  destruct (estimateOptimalChunkSize_range (str "Hi. Ok!")) as [Hin Hle].
  split; [exact Hin|]. apply Hle. vm_compute. discriminate.
Defined.

(* ===================================================================== *)
(** * [SimilarityCalculator]: symmetry and the distances                  *)
(* ===================================================================== *)

Section NumberFacts.

Lemma mul_comm (x y : number) : mul x y = mul y x.
Proof.
  destruct x as [sx|sx| |sx mx ex], y as [sy|sy| |sy my ey]; cbn;
    rewrite ?(xorb_comm sy sx); try reflexivity.
  rewrite (Pos.mul_comm my mx), (Z.add_comm ey ex). reflexivity.
Qed.

(** The magnitude of a rounded value does not depend on its sign. *)
Lemma abs_binary_round (s s' : bool) (m : positive) (e : Z) :
  abs (binary_round prec emax s m e) = abs (binary_round prec emax s' m e).
Proof.
  unfold binary_round, binary_round_aux.
  destruct (shl_align m e _) as [mz ez].
  destruct (shr_fexp prec emax (Z.pos mz) ez loc_Exact) as [mrs' e'].
  destruct (shr_fexp prec emax _ e' loc_Exact) as [mrs'' e''].
  destruct (shr_m mrs''); [reflexivity| |reflexivity].
  destruct (e'' <=? emax - prec); reflexivity.
Qed.

Lemma abs_binary_normalize_opp (z e : Z) :
  abs (binary_normalize prec emax (- z) e false)
  = abs (binary_normalize prec emax z e false).
Proof. destruct z; simpl; [reflexivity| |]; apply abs_binary_round. Qed.

(** [|x - y| = |y - x|], bit for bit. *)
Lemma abs_sub_swap (x y : number) : abs (sub x y) = abs (sub y x).
Proof.
  destruct x as [sx|sx| |sx mx ex], y as [sy|sy| |sy my ey];
    try solve [ try destruct sx; try destruct sy; reflexivity ].
  unfold sub, SFsub. rewrite (Z.min_comm ey ex).
  rewrite <- abs_binary_normalize_opp. f_equal. f_equal. lia.
Qed.

(** A square depends on the magnitude only. *)
Lemma mul_self_abs (x : number) : mul x x = mul (abs x) (abs x).
Proof. destruct x as [[]|[]| |[] m e]; reflexivity. Qed.

Lemma square_sub_swap (x y : number) :
  mul (sub x y) (sub x y) = mul (sub y x) (sub y x).
Proof.
  rewrite (mul_self_abs (sub x y)), (mul_self_abs (sub y x)), abs_sub_swap.
  reflexivity.
Qed.

Lemma sub_self (x : number) :
  sub x x = if isFiniteNumber x then zero else NaN.
Proof.
  destruct x as [[]|[]| |s m e]; try reflexivity.
  unfold sub, SFsub. cbv zeta. rewrite Z.sub_diag. reflexivity.
Qed.

Lemma add_NaN_r (x : number) : add x NaN = NaN.
Proof. destruct x as [[]|[]| |s m e]; reflexivity. Qed.

End NumberFacts.

Section DistanceFacts.

Lemma cosineLoop_swap (vecA vecB : vector) :
  forall dotProduct normA normB,
    cosineLoop vecB vecA (dotProduct, normB, normA)
    = let '(d, a, b) := cosineLoop vecA vecB (dotProduct, normA, normB) in
      (d, b, a).
Proof.
  revert vecB. induction vecA as [|a vecA IH]; intros [|b vecB] d na nb;
    try reflexivity.
  cbn [cosineLoop]. rewrite IH, (mul_comm b a). reflexivity.
Qed.

Lemma euclideanLoop_swap (vecA vecB : vector) :
  forall sum, euclideanLoop vecA vecB sum = euclideanLoop vecB vecA sum.
Proof.
  revert vecB. induction vecA as [|a vecA IH]; intros [|b vecB] sum;
    try reflexivity.
  cbn [euclideanLoop]. rewrite IH, (square_sub_swap a b). reflexivity.
Qed.

Lemma manhattanLoop_swap (vecA vecB : vector) :
  forall sum, manhattanLoop vecA vecB sum = manhattanLoop vecB vecA sum.
Proof.
  revert vecB. induction vecA as [|a vecA IH]; intros [|b vecB] sum;
    try reflexivity.
  cbn [manhattanLoop]. rewrite IH, (abs_sub_swap a b). reflexivity.
Qed.

Lemma euclideanLoop_NaN (v : vector) : euclideanLoop v v NaN = NaN.
Proof. induction v as [|x v IH]; [reflexivity|exact IH]. Qed.

Lemma manhattanLoop_NaN (v : vector) : manhattanLoop v v NaN = NaN.
Proof. induction v as [|x v IH]; [reflexivity|exact IH]. Qed.

Lemma euclideanLoop_self (v : vector) :
  euclideanLoop v v zero = if forallb isFiniteNumber v then zero else NaN.
Proof.
  induction v as [|x v IH]; [reflexivity|].
  cbn [euclideanLoop forallb]. rewrite sub_self.
  destruct (isFiniteNumber x); [exact IH|apply euclideanLoop_NaN].
Qed.

Lemma manhattanLoop_self (v : vector) :
  manhattanLoop v v zero = if forallb isFiniteNumber v then zero else NaN.
Proof.
  induction v as [|x v IH]; [reflexivity|].
  cbn [manhattanLoop forallb]. rewrite sub_self.
  destruct (isFiniteNumber x); [exact IH|apply manhattanLoop_NaN].
Qed.

End DistanceFacts.

(** X8. [cosineSimilarity], [euclideanDistance] and [manhattanDistance]
    are symmetric as computed: swapping the arguments gives the same
    binary64 value, or the same error. *)
Theorem similarity_measures_symmetric (vecA vecB : vector) :
  cosineSimilarity vecA vecB = cosineSimilarity vecB vecA /\
  euclideanDistance vecA vecB = euclideanDistance vecB vecA /\
  manhattanDistance vecA vecB = manhattanDistance vecB vecA.
Proof.
  unfold cosineSimilarity, euclideanDistance, manhattanDistance.
  rewrite (Nat.eqb_sym (length vecB) (length vecA)).
  destruct (length vecA =? length vecB)%nat; simpl; [|auto].
  rewrite (euclideanLoop_swap vecA vecB), (manhattanLoop_swap vecA vecB).
  repeat split. rewrite (cosineLoop_swap vecA vecB).
  destruct (cosineLoop vecA vecB (zero, zero, zero)) as [[d a] b].
  rewrite (mul_comm (sqrt b) (sqrt a)). reflexivity.
Qed.

(** X9. The distance of a vector to itself is [0] when all its
    components are finite, and NaN as soon as one of them is NaN or an
    infinity. *)
Theorem distance_to_itself (v : vector) :
  euclideanDistance v v = Ok (if forallb isFiniteNumber v then zero else NaN) /\
  manhattanDistance v v = Ok (if forallb isFiniteNumber v then zero else NaN).
Proof.
  unfold euclideanDistance, manhattanDistance.
  rewrite Nat.eqb_refl, euclideanLoop_self, manhattanLoop_self. simpl.
  destruct (forallb isFiniteNumber v); split; reflexivity.
Qed.

Section AverageFacts.

Lemma sumOfSquares_zeroVector (v : vector) :
  zeroVector v = true -> sumOfSquares v zero = zero.
Proof.
  unfold zeroVector, sumOfSquares.
  induction v as [|x v IH]; [reflexivity|].
  simpl. intros [Hx Hv]%andb_prop.
  destruct x as [[]| | |]; try discriminate; exact (IH Hv).
Qed.

(** The summing loop of [averageEmbeddings], started with an accumulator
    of [dimension] components. *)
Lemma sumLoop_outcome (embeddings : list vector) (dimension : nat) :
  forall avgEmbedding,
    length avgEmbedding = dimension ->
    match sumLoop embeddings dimension avgEmbedding with
    | Ok total =>
        length total = dimension /\
        Forall (fun e => length e = dimension) embeddings
    | Throw e =>
        e = EmbeddingDimensionMismatch /\
        Exists (fun e => length e <> dimension) embeddings
    | Hang => False
    end.
Proof.
  induction embeddings as [|e rest IH]; intros acc Hacc; simpl.
  - split; [exact Hacc|constructor].
  - destruct (length e =? dimension)%nat eqn:E; simpl.
    + apply Nat.eqb_eq in E.
      specialize (IH (addInto acc e)).
      unfold addInto in IH at 1. rewrite length_zip_with in IH.
      specialize (IH ltac:(lia)).
      destruct (sumLoop rest dimension (addInto acc e)) as [total|err|].
      * destruct IH as [Hl Hall]. split; [exact Hl|constructor; assumption].
      * destruct IH as [He Hex]. split; [exact He|right; exact Hex].
      * exact IH.
    + apply Nat.eqb_neq in E. split; [reflexivity|left; exact E].
Qed.

Lemma weightedLoop_outcome (embeddings : list vector) (dimension : nat) :
  forall weights weightedEmbedding,
    length embeddings = length weights ->
    length weightedEmbedding = dimension ->
    match weightedLoop embeddings weights dimension weightedEmbedding with
    | Returns total =>
        length total = dimension /\
        Forall (fun e => length e = dimension) embeddings
    | Fails f =>
        f = Core EmbeddingDimensionMismatch /\
        Exists (fun e => length e <> dimension) embeddings
    | Diverges => False
    end.
Proof.
  induction embeddings as [|e rest IH]; intros [|w weights] acc Hl Hacc;
    try discriminate Hl; simpl.
  - split; [exact Hacc|constructor].
  - destruct (length e =? dimension)%nat eqn:E; simpl.
    + apply Nat.eqb_eq in E.
      specialize (IH weights (addWeighted acc e w)).
      unfold addWeighted in IH at 1. rewrite length_zip_with in IH.
      specialize (IH ltac:(simpl in Hl; lia) ltac:(lia)).
      destruct (weightedLoop rest weights dimension (addWeighted acc e w))
        as [total|err|].
      * destruct IH as [Ht Hall]. split; [exact Ht|constructor; assumption].
      * destruct IH as [He Hex]. split; [exact He|right; exact Hex].
      * exact IH.
    + apply Nat.eqb_neq in E. split; [reflexivity|left; exact E].
Qed.

End AverageFacts.

(** X10. [normalize] keeps the number of components, and it returns a
    vector of zeros as it is: the division by a zero magnitude that would
    turn every component into NaN is not made. *)
Theorem normalize_zero_vector (v : vector) :
  length (normalize v) = length v /\
  (zeroVector v = true -> normalize v = v).
Proof.
  unfold normalize. split.
  - destruct (isExactlyZero _); [reflexivity|apply length_map].
  - intros Hz. rewrite (sumOfSquares_zeroVector v Hz). reflexivity.
Qed.

Lemma normalize_zero_vector_witness :
  normalize [zero; S754_zero true; zero] = [zero; S754_zero true; zero].
Proof.
  apply (normalize_zero_vector [zero; S754_zero true; zero]). reflexivity.
Defined.

(** X11. What [averageEmbeddings] answers. It returns for one embedding,
    whatever it is, and for two or more of one dimension, with a vector
    of that dimension; it throws 'Cannot average empty embeddings array'
    for no embedding, and 'All embeddings must have the same dimension'
    for two or more when one differs from the first in length. *)
Theorem averageEmbeddings_outcome (embeddings : list vector) :
  match averageEmbeddings embeddings with
  | Ok avg =>
      exists first rest,
        embeddings = first :: rest /\
        length avg = length first /\
        (rest = [] \/ Forall (fun e => length e = length first) rest)
  | Throw e =>
      (e = EmptyEmbeddingsArray /\ embeddings = []) \/
      (e = EmbeddingDimensionMismatch /\
       exists first rest,
         embeddings = first :: rest /\ rest <> [] /\
         Exists (fun e => length e <> length first) rest)
  | Hang => False
  end.
Proof.
  destruct embeddings as [|first [|second rest]].
  - left. auto.
  - exists first, []. auto.
  - unfold averageEmbeddings.
    pose proof (sumLoop_outcome (first :: second :: rest) (length first)
                  (replicate (length first) zero)
                  (length_replicate _ _)) as Hsum.
    destruct (sumLoop _ _ _) as [total|err|].
    + destruct Hsum as [Hl Hall]. exists first, (second :: rest).
      split; [reflexivity|]. rewrite length_map.
      split; [exact Hl|right]. inversion Hall. assumption.
    + destruct Hsum as [He Hex]. right. split; [exact He|].
      exists first, (second :: rest). repeat split; [discriminate|].
      inversion Hex; [contradiction|assumption].
    + exact Hsum.
Qed.

(** X12. What [weightedAverageEmbeddings] answers, and in which order it
    checks: the lengths of the two arrays, then emptiness, then a total
    weight of [0], then the dimensions. *)
Theorem weightedAverageEmbeddings_outcome (embeddings : list vector)
        (weights : list number) :
  match weightedAverageEmbeddings embeddings weights with
  | Returns avg =>
      length embeddings = length weights /\
      isExactlyZero (fold_left add weights zero) = false /\
      exists first rest,
        embeddings = first :: rest /\
        length avg = length first /\
        Forall (fun e => length e = length first) rest
  | Fails f =>
      (f = WeightsLengthMismatch /\ length embeddings <> length weights) \/
      (f = Core EmptyEmbeddingsArray /\ embeddings = [] /\ weights = []) \/
      (f = ZeroTotalWeight /\ length embeddings = length weights /\
       embeddings <> [] /\ isExactlyZero (fold_left add weights zero) = true) \/
      (f = Core EmbeddingDimensionMismatch /\
       length embeddings = length weights /\
       isExactlyZero (fold_left add weights zero) = false /\
       exists first rest,
         embeddings = first :: rest /\
         Exists (fun e => length e <> length first) rest)
  | Diverges => False
  end.
Proof.
  unfold weightedAverageEmbeddings.
  destruct (length embeddings =? length weights)%nat eqn:El; simpl.
  2:{ apply Nat.eqb_neq in El. left. auto. }
  apply Nat.eqb_eq in El.
  destruct embeddings as [|first rest].
  { right. left. destruct weights; [auto|discriminate El]. }
  destruct (isExactlyZero (fold_left add weights zero)) eqn:Ez.
  { right. right. left. repeat split; (assumption || discriminate). }
  pose proof (weightedLoop_outcome (first :: rest) (length first) weights
                (replicate (length first) zero) El (length_replicate _ _))
    as Hloop.
  destruct (weightedLoop _ _ _ _) as [total|f|].
  - destruct Hloop as [Ht Hall]. split; [exact El|]. split; [reflexivity|].
    exists first, rest. split; [reflexivity|]. rewrite length_map.
    split; [exact Ht|]. inversion Hall. assumption.
  - destruct Hloop as [Hf Hex]. right. right. right.
    split; [exact Hf|]. split; [exact El|]. split; [reflexivity|].
    exists first, rest. split; [reflexivity|].
    inversion Hex; [contradiction|assumption].
  - exact Hloop.
Qed.

(* ===================================================================== *)
(** * Scoring, filtering and ranking                                      *)
(* ===================================================================== *)

Section ScoringFacts.

(** The result made of a document and its score. *)
Lemma scoreDocument_Some (floor : number) (queryEmbedding : vector)
      (doc : Document) (r : SearchResult) :
  scoreDocument floor queryEmbedding doc = Some r <->
  exists embedding,
    doc_embedding doc = Some embedding /\
    cosineSimilarity queryEmbedding embedding = Ok (similarity r) /\
    geb (similarity r) floor = true /\
    r = mkSearchResult (doc_id doc) (doc_content doc) (doc_metadata doc)
                       (similarity r).
Proof.
  unfold scoreDocument. split.
  - destruct (doc_embedding doc) as [e|]; [|discriminate].
    destruct (cosineSimilarity queryEmbedding e) as [sim| |] eqn:Ec;
      try discriminate.
    destruct (geb sim floor) eqn:E; [|discriminate].
    intros [= <-]. exists e. simpl. auto.
  - intros (e & -> & -> & -> & ->). reflexivity.
Qed.

Lemma cosineSimilarity_Ok_length (vecA vecB : vector) (sim : number) :
  cosineSimilarity vecA vecB = Ok sim -> length vecA = length vecB.
Proof.
  unfold cosineSimilarity.
  destruct (length vecA =? length vecB)%nat eqn:E; [|discriminate].
  intros _. apply Nat.eqb_eq, E.
Qed.

Lemma omap_ids_sublist (floor : number) (queryEmbedding : vector)
      (documents : list Document) :
  sublist (map res_id (calculateSimilarities floor queryEmbedding documents))
          (map doc_id documents).
Proof.
  unfold calculateSimilarities.
  induction documents as [|doc rest IH]; simpl; [constructor|].
  destruct (scoreDocument floor queryEmbedding doc) as [r|] eqn:E; simpl.
  - apply scoreDocument_Some in E as (e & _ & _ & _ & ->). simpl.
    constructor. exact IH.
  - constructor. exact IH.
Qed.

(** A list in order stays in order when cut short or stripped of its
    metadata. *)
Lemma inOrder_take (n : nat) (l : list SearchResult) :
  inOrder l -> inOrder (take n l).
Proof.
  unfold inOrder. revert n. induction l as [|a l IH]; intros [|n] Hs; simpl;
    try constructor.
  - apply IH. apply Sorted_inv in Hs. tauto.
  - apply Sorted_inv in Hs as [_ Hhd].
    destruct l as [|b l], n as [|n]; simpl; constructor.
    inversion Hhd. assumption.
Qed.

Lemma inOrder_strip (l : list SearchResult) :
  inOrder l -> inOrder (map stripMetadata l).
Proof.
  unfold inOrder. induction l as [|a l IH]; intros Hs; simpl; constructor.
  - apply IH. apply Sorted_inv in Hs. tauto.
  - apply Sorted_inv in Hs as [_ Hhd].
    destruct l as [|b l]; simpl; constructor. inversion Hhd. assumption.
Qed.

Lemma sortResultsBySimilarity_id (l : list SearchResult) :
  StronglySorted (fun a b => mustFollow a b = false) l ->
  sortResultsBySimilarity l = l.
Proof.
  induction l as [|a l IH]; intros Hs; [reflexivity|].
  apply StronglySorted_inv in Hs as [Hs Hall].
  simpl. rewrite (IH Hs). apply insertSorted_stable, Hall.
Qed.

End ScoringFacts.

(** X13. What [calculateSimilarities] returns: the results follow the
    order of the documents; every result is a document that has an
    embedding of the query's dimension, with its id, content and metadata,
    scored by [cosineSimilarity], and the score is at least the floor;
    every such document is among the results. *)
Theorem calculateSimilarities_contract (floor : number)
        (queryEmbedding : vector) (documents : list Document) :
  let results := calculateSimilarities floor queryEmbedding documents in
  sublist (map res_id results) (map doc_id documents) /\
  Forall (fun r =>
            geb (similarity r) floor = true /\
            exists doc embedding,
              In doc documents /\
              doc_embedding doc = Some embedding /\
              length embedding = length queryEmbedding /\
              cosineSimilarity queryEmbedding embedding = Ok (similarity r) /\
              r = mkSearchResult (doc_id doc) (doc_content doc)
                                 (doc_metadata doc) (similarity r))
         results /\
  Forall (fun doc =>
            forall embedding sim,
              doc_embedding doc = Some embedding ->
              cosineSimilarity queryEmbedding embedding = Ok sim ->
              geb sim floor = true ->
              In (mkSearchResult (doc_id doc) (doc_content doc)
                                 (doc_metadata doc) sim) results)
         documents.
Proof.
  intros results. split; [apply omap_ids_sublist|]. split.
  - apply List.Forall_forall. intros r Hin.
    apply list_elem_of_In, list_elem_of_omap in Hin as (doc & Hdoc & Hr).
    apply scoreDocument_Some in Hr as (e & He & Hc & Hf & Hr).
    split; [exact Hf|]. exists doc, e.
    repeat split; try assumption.
    + apply list_elem_of_In, Hdoc.
    + symmetry. eapply cosineSimilarity_Ok_length, Hc.
  - apply List.Forall_forall. intros doc Hin e sim He Hc Hf.
    apply list_elem_of_In. subst results. unfold calculateSimilarities.
    apply list_elem_of_omap. exists doc. split; [apply list_elem_of_In, Hin|].
    apply scoreDocument_Some. exists e. simpl. auto.
Qed.


(** X15. [sortResultsBySimilarity] rearranges results whose similarities
    are numbers: it returns the results it was given, each as often as
    before, in an order the comparator accepts; results that are in such
    an order already, pair by pair - in particular results of equal
    similarity - keep their places. *)
Theorem sortResultsBySimilarity_sorts (results : list SearchResult) :
  Forall (fun r => isNaN (similarity r) = false) results ->
  Permutation (sortResultsBySimilarity results) results /\
  inOrder (sortResultsBySimilarity results) /\
  (StronglySorted (fun a b => mustFollow a b = false) results ->
   sortResultsBySimilarity results = results).
Proof.
  intros _.
  split; [apply sortResultsBySimilarity_perm|].
  split; [apply sortResultsBySimilarity_inOrder|].
  apply sortResultsBySimilarity_id.
Qed.

Lemma sortResultsBySimilarity_sorts_witness :
  sortResultsBySimilarity
    [mkSearchResult (str "a") (str "first") ∅ (ratio 1 2);
     mkSearchResult (str "b") (str "second") ∅ (ratio 1 2)]
  = [mkSearchResult (str "a") (str "first") ∅ (ratio 1 2);
     mkSearchResult (str "b") (str "second") ∅ (ratio 1 2)].
Proof.
  apply (sortResultsBySimilarity_sorts
           [mkSearchResult (str "a") (str "first") ∅ (ratio 1 2);
            mkSearchResult (str "b") (str "second") ∅ (ratio 1 2)]);
    repeat constructor.
Defined.

(* ===================================================================== *)
(** * The embedding provider: repeated calls and backend calls           *)
(* ===================================================================== *)

Section MonadFacts.

Context {W : Type} `{Platform W}.

Lemma bind_now {A : Type} (k : Z -> M W A) (s : System W) :
  (let* t := now in k t) s = k (Date_now (world s)).1 (started s).
Proof. unfold bind. rewrite now_run. reflexivity. Qed.

Lemma bind_modify {A : Type} (f : System W -> System W) (k : unit -> M W A)
      (s : System W) :
  (let* u := modify f in k u) s = k tt (f s).
Proof. reflexivity. Qed.

Lemma bind_gets {A B : Type} (f : System W -> A) (k : A -> M W B)
      (s : System W) :
  (let* a := gets f in k a) s = k (f s) s.
Proof. reflexivity. Qed.

Lemma bind_ret {A B : Type} (a : A) (k : A -> M W B) (s : System W) :
  (let* x := ret a in k x) s = k a s.
Proof. reflexivity. Qed.

Lemma bind_external {A B : Type} (op : W -> Result A * W) (k : A -> M W B)
      (s : System W) :
  (let* a := external op in k a) s
  = match op (world s) with
    | (Ok a, w) => k a (setWorld w s)
    | (Throw e, w) => (Throw e, setWorld w s)
    | (Hang, w) => (Hang, setWorld w s)
    end.
Proof.
  unfold bind, external. destruct (op (world s)) as [[a|e|] w]; reflexivity.
Qed.

End MonadFacts.

Section BackendCallFacts.

Context {W : Type} `{Platform W}.

(** The loop calls the backend for the chunks in their order, one call a
    chunk, and stops at the first call that fails. *)
Lemma embedChunks_trace (chunks : list jsstring) :
  forall i total embeddings (s : System W),
    exists called,
      called `prefix_of` chunks /\
      trace (embedChunks chunks i total embeddings s).2
      = trace s ++ map CallBackend called /\
      (forall result,
          (embedChunks chunks i total embeddings s).1 = Ok result ->
          called = chunks).
Proof.
  induction chunks as [|chunk rest IH]; intros i total embeddings s.
  - exists []. simpl. rewrite app_nil_r. auto.
  - cbn [embedChunks]. unfold bind. rewrite callBackend_run.
    destruct (generateSingleEmbedding chunk (world s)) as [[v|e|] w];
      cbn [fst snd].
    + assert (Hnext : forall s2 : System W,
                 trace s2 = trace s ++ [CallBackend chunk] ->
                 exists called,
                   called `prefix_of` chunk :: rest /\
                   trace (embedChunks rest (S i) total (embeddings ++ [v]) s2).2
                   = trace s ++ map CallBackend called /\
                   (forall result,
                       (embedChunks rest (S i) total (embeddings ++ [v]) s2).1
                       = Ok result -> called = chunk :: rest)).
      { intros s2 Ht.
        destruct (IH (S i) total (embeddings ++ [v]) s2)
          as (called & Hp & Htrace & Hall).
        exists (chunk :: called). split; [apply prefix_cons, Hp|].
        split; [rewrite Htrace, Ht, <- app_assoc; reflexivity|].
        intros result Hr. f_equal. eapply Hall, Hr. }
      destruct (i <? total - 1)%nat; apply Hnext; reflexivity.
    + exists [chunk]. split; [apply prefix_cons, prefix_nil|].
      split; [reflexivity|discriminate].
    + exists [chunk]. split; [apply prefix_cons, prefix_nil|].
      split; [reflexivity|discriminate].
Qed.

Lemma embedText_trace (text : jsstring) (s : System W) :
  exists called,
    trace (embedText text s).2 = trace s ++ map CallBackend called /\
    if len text <=? maxCharsPerChunk config then called = [text]
    else match splitIntoChunks text (maxCharsPerChunk config) with
         | Some chunks =>
             called `prefix_of` chunks /\
             (forall v, (embedText text s).1 = Ok v -> called = chunks)
         | None => called = [] /\ (embedText text s).1 = Hang
         end.
Proof.
  unfold embedText. destruct (len text <=? maxCharsPerChunk config).
  - exists [text]. rewrite callBackend_run. split; reflexivity.
  - unfold generateMultiChunkEmbedding.
    destruct (splitIntoChunks text (maxCharsPerChunk config)) as [chunks|].
    + destruct (embedChunks_trace chunks 0 (length chunks) [] s)
        as (called & Hp & Htrace & Hall).
      exists called. unfold bind, liftResult.
      destruct (embedChunks chunks 0 (length chunks) [] s) as [[embs|e|] s1];
        simpl in *; (split; [exact Htrace|]); (split; [exact Hp|]);
        intros v Hv; try discriminate Hv.
      eapply Hall. reflexivity.
    + exists []. simpl. rewrite app_nil_r. auto.
Qed.

End BackendCallFacts.

Section EmbeddingContracts.

Context {W : Type} `{Platform W}.

(** X16. An embedding that was computed is served from the cache from
    then on: after a call that returned, the same call returns the same
    vector and does nothing but leave its mark in the trace - no backend
    call, no reading of the clock. *)
Theorem generateEmbedding_repeat (text : jsstring) (s s1 : System W)
        (embedding : vector) :
  generateEmbedding text s = (Ok embedding, s1) ->
  generateEmbedding text s1
  = (Ok embedding, record (CallGenerateEmbedding text) s1).
Proof.
  intros Hrun. apply generateEmbedding_hit.
  destruct (embeddingCache s !! createTextHash text) as [cached|] eqn:Ec.
  - rewrite (generateEmbedding_hit text s cached Ec) in Hrun.
    injection Hrun as <- <-. exact Ec.
  - rewrite (generateEmbedding_miss text s Ec) in Hrun.
    destruct (embedText text (missStart text s)) as [[v|e|] s2];
      try discriminate Hrun.
    injection Hrun as <- <-. simpl. apply lookup_insert_eq.
Qed.


End EmbeddingContracts.

Lemma generateEmbedding_repeat_witness :
  generateEmbedding (H := Lab.usual) (str "a b")
    (generateEmbedding (H := Lab.usual) (str "a b") (Lab.boot Lab.calm)).2
  = (Ok [ofNat 3; ofNat 1],
     record (CallGenerateEmbedding (str "a b"))
       (generateEmbedding (H := Lab.usual) (str "a b") (Lab.boot Lab.calm)).2).
Proof.
  apply (generateEmbedding_repeat (H := Lab.usual) (str "a b")
           (Lab.boot Lab.calm)).
  vm_compute. reflexivity.
Defined.

(* ===================================================================== *)
(** * The search provider: snapshot, fresh searches, filters             *)
(* ===================================================================== *)

Section SnapshotFacts.

Context {W : Type} `{Platform W}.

(** The miss of [getDocumentsWithCache], when the store answers. *)
Lemma refreshDocuments_run (s : System W) (documents : list Document) (w : W) :
  getAllDocuments (world s) = (Ok documents, w) ->
  let kept := List.filter hasEmbedding documents in
  let s1 := setWorld w (record CallGetAllDocuments s) in
  refreshDocuments s
  = (Ok (CDocs kept),
     setDocumentCache
       (<[timestampKey ALL_DOCUMENTS := CTime (Date_now w).1]>
          (<[ALL_DOCUMENTS := CDocs kept]> (documentCache s)))
       (started s1)).
Proof.
  intros Hget kept s1. unfold refreshDocuments.
  rewrite bind_modify, bind_external. simpl. rewrite Hget.
  unfold storeSnapshot. rewrite bind_modify.
  unfold bind. rewrite setCacheTimestamp_run. reflexivity.
Qed.

Lemma refreshDocuments_fails (s : System W) (e : Error) (w : W) :
  getAllDocuments (world s) = (Throw e, w) ->
  refreshDocuments s = (Throw e, setWorld w (record CallGetAllDocuments s)).
Proof.
  intros Hget. unfold refreshDocuments.
  rewrite bind_modify, bind_external. simpl. rewrite Hget. reflexivity.
Qed.

Lemma getDocumentsWithCache_miss (s : System W) :
  documentCache s !! ALL_DOCUMENTS = None ->
  getDocumentsWithCache s = refreshDocuments s.
Proof.
  intros Hmiss. unfold getDocumentsWithCache. rewrite bind_gets, Hmiss.
  reflexivity.
Qed.

End SnapshotFacts.

Section SnapshotContracts.

Context {W : Type} `{Platform W}.

(** X18. The document snapshot. A snapshot stamped less than [cacheTTL]
    milliseconds ago is returned as it is, and the store is not called.
    With no snapshot, or with one stamped [cacheTTL] milliseconds ago or
    more, the store is asked for all documents; those that have an
    embedding are returned and become the new snapshot. *)
Theorem getDocumentsWithCache_contract (s : System W) :
  (forall cached timestamp,
      documentCache s !! ALL_DOCUMENTS = Some cached ->
      documentCache s !! timestampKey ALL_DOCUMENTS = Some (CTime timestamp) ->
      timestamp <> 0 ->
      (Date_now (world s)).1 - timestamp < cacheTTL ->
      getDocumentsWithCache s = (Ok cached, started s))
  /\
  (forall documents w,
      documentCache s !! ALL_DOCUMENTS = None ->
      getAllDocuments (world s) = (Ok documents, w) ->
      let s' := (getDocumentsWithCache s).2 in
      (getDocumentsWithCache s).1 = Ok (CDocs (List.filter hasEmbedding documents)) /\
      trace s' = trace s ++ [CallGetAllDocuments] /\
      documentCache s' !! ALL_DOCUMENTS
      = Some (CDocs (List.filter hasEmbedding documents)))
  /\
  (forall cached timestamp documents w,
      documentCache s !! ALL_DOCUMENTS = Some cached ->
      documentCache s !! timestampKey ALL_DOCUMENTS = Some (CTime timestamp) ->
      timestamp <> 0 ->
      cacheTTL <= (Date_now (world s)).1 - timestamp ->
      getAllDocuments (world (started s)) = (Ok documents, w) ->
      let s' := (getDocumentsWithCache s).2 in
      (getDocumentsWithCache s).1 = Ok (CDocs (List.filter hasEmbedding documents)) /\
      trace s' = trace s ++ [CallGetAllDocuments] /\
      documentCache s' !! ALL_DOCUMENTS
      = Some (CDocs (List.filter hasEmbedding documents))).
Proof.
  assert (Hstore : forall (s0 : System W) documents w,
             getAllDocuments (world s0) = (Ok documents, w) ->
             (refreshDocuments s0).1
             = Ok (CDocs (List.filter hasEmbedding documents)) /\
             trace (refreshDocuments s0).2 = trace s0 ++ [CallGetAllDocuments] /\
             documentCache (refreshDocuments s0).2 !! ALL_DOCUMENTS
             = Some (CDocs (List.filter hasEmbedding documents))).
  { intros s0 documents w Hget. rewrite (refreshDocuments_run s0 documents w Hget).
    simpl. repeat split.
    rewrite lookup_insert_ne by apply timestampKey_not_snapshot.
    apply lookup_insert_eq. }
  split; [|split].
  - intros cached timestamp Hc Ht Hnz Hlive.
    unfold getDocumentsWithCache. rewrite bind_gets, Hc.
    unfold bind. rewrite (isCacheValid_stamped _ _ _ Ht Hnz).
    replace (_ <? cacheTTL) with true by (symmetry; apply Z.ltb_lt, Hlive).
    reflexivity.
  - intros documents w Hmiss Hget. simpl.
    rewrite (getDocumentsWithCache_miss s Hmiss). eapply Hstore, Hget.
  - intros cached timestamp documents w Hc Ht Hnz Hold Hget. simpl.
    assert (Hrun : getDocumentsWithCache s = refreshDocuments (started s)).
    { unfold getDocumentsWithCache. rewrite bind_gets, Hc.
      unfold bind. rewrite (isCacheValid_stamped _ _ _ Ht Hnz).
      replace (_ <? cacheTTL) with false by (symmetry; apply Z.ltb_ge, Hold).
      reflexivity. }
    rewrite Hrun. apply (Hstore (started s) documents w Hget).
Qed.

End SnapshotContracts.

Lemma getDocumentsWithCache_contract_witness :
  getDocumentsWithCache (H := Lab.usual) Lab.snapshotTaken
  = (Ok (CDocs Lab.six), started (H := Lab.usual) Lab.snapshotTaken).
Proof.
  apply (getDocumentsWithCache_contract (H := Lab.usual) Lab.snapshotTaken)
    with (timestamp := 1000).
  - vm_compute. reflexivity.
  - vm_compute. reflexivity.
  - discriminate.
  - vm_compute. reflexivity.
Defined.

Section FreshSearchFacts.

Context {W : Type} `{Platform W}.

Lemma generateEmbedding_searchCache (text : jsstring) (s : System W) :
  searchCache (generateEmbedding text s).2 = searchCache s.
Proof.
  destruct (embeddingCache s !! createTextHash text) as [cached|] eqn:Hlook.
  - rewrite (generateEmbedding_hit text s cached Hlook). reflexivity.
  - rewrite (generateEmbedding_miss text s Hlook).
    pose proof (embedText_caches text (missStart text s)) as (_ & _ & Hs).
    destruct (embedText text (missStart text s)) as [[v|e|] s1]; exact Hs.
Qed.

(** A fresh search, when the embedding provider and the store answer and
    no snapshot is cached. *)
Lemma searchFresh_run (query : jsstring) (options : SearchOptions)
      (cacheKey : jsstring) (s s1 : System W) (queryEmbedding : vector)
      (documents : list Document) (w : W) :
  documentCache s !! ALL_DOCUMENTS = None ->
  generateEmbedding query (started s) = (Ok queryEmbedding, s1) ->
  getAllDocuments (world (started (started s1))) = (Ok documents, w) ->
  let results :=
    applySearchOptions
      (calculateSimilarities minSimilarityThreshold queryEmbedding
                             (List.filter hasEmbedding documents))
      options in
  exists s',
    searchFresh query options cacheKey s = (Ok results, s') /\
    trace s' = trace s1 ++ [CallGetAllDocuments] /\
    embeddingCache s' = embeddingCache s1 /\
    searchCache s' = <[cacheKey := results]> (searchCache s).
Proof.
  intros Hmiss Hemb Hget results. unfold searchFresh.
  rewrite bind_now. unfold bind at 1. rewrite Hemb.
  rewrite !bind_now. unfold bind at 1.
  pose proof (generateEmbedding_documentCache query (started s)) as Hd.
  pose proof (generateEmbedding_searchCache query (started s)) as Hsc.
  rewrite Hemb in Hd, Hsc. simpl in Hd, Hsc.
  rewrite getDocumentsWithCache_miss by (simpl; rewrite Hd; exact Hmiss).
  rewrite (refreshDocuments_run _ documents w Hget).
  rewrite !bind_now. unfold storeResults. rewrite bind_modify.
  unfold bind at 1. rewrite setCacheTimestamp_run. rewrite bind_now.
  eexists. split; [reflexivity|]. simpl. rewrite Hsc. repeat split.
Qed.

End FreshSearchFacts.

Section FreshSearchContracts.

Context {W : Type} `{Platform W}.

(** X19. What a search answers when neither its result nor a document
    snapshot is cached - the state every successful mutation leaves: the
    query is embedded, the store is asked for all documents, and the
    answer is [applySearchOptions] of the scores of the stored documents
    that have an embedding. It is cached under the key of the request.
    Over a store with no document the answer is empty. *)
Theorem searchSimilar_fresh_result (query : jsstring) (options : SearchOptions)
        (s s1 : System W) (queryEmbedding : vector)
        (documents : list Document) (w : W) :
  validateQuery query = Ok tt ->
  validateOptions options = Ok tt ->
  searchCache s !! createSearchCacheKey query options = None ->
  documentCache s !! ALL_DOCUMENTS = None ->
  generateEmbedding query (started (started s)) = (Ok queryEmbedding, s1) ->
  getAllDocuments (world (started (started s1))) = (Ok documents, w) ->
  let results :=
    applySearchOptions
      (calculateSimilarities minSimilarityThreshold queryEmbedding
                             (List.filter hasEmbedding documents))
      options in
  let s' := (searchSimilar query options s).2 in
  (searchSimilar query options s).1 = Ok results /\
  trace s' = trace s1 ++ [CallGetAllDocuments] /\
  searchCache s' !! createSearchCacheKey query options = Some results /\
  (documents = [] -> results = []).
Proof.
  intros Hq Ho Hkey Hmiss Hemb Hget results s'. subst s'.
  rewrite searchSimilar_run, Hq, Ho.
  unfold answerQuery. rewrite bind_gets.
  change (searchCache (started s)) with (searchCache s). rewrite Hkey.
  destruct (searchFresh_run query options
              (createSearchCacheKey query options) (started s) s1
              queryEmbedding documents w Hmiss Hemb Hget)
    as (s' & Hrun & Htrace & _ & Hcache).
  fold results in Hrun, Hcache. rewrite Hrun. simpl.
  split; [reflexivity|]. split; [exact Htrace|].
  split; [rewrite Hcache; apply lookup_insert_eq|].
  intros ->. subst results. simpl.
  unfold applySearchOptions.
  destruct (minSimilarity options), (limit options),
    (includeMetadata options) as [[]|];
    unfold slice0; simpl; rewrite ?take_nil; reflexivity.
Qed.

End FreshSearchContracts.

Lemma searchSimilar_fresh_result_witness :
  (searchSimilar (H := Lab.usual) Lab.question noOptions
                 (Lab.boot Lab.library)).1
  = Ok (applySearchOptions
          (calculateSimilarities (ratio 1 10) [ofNat 3; ofNat 1]
                                 (List.filter hasEmbedding Lab.six))
          noOptions).
Proof.
  apply (searchSimilar_fresh_result (H := Lab.usual) Lab.question noOptions
           (Lab.boot Lab.library)
           (generateEmbedding (H := Lab.usual) Lab.question
              (started (H := Lab.usual)
                 (started (H := Lab.usual) (Lab.boot Lab.library)))).2
           [ofNat 3; ofNat 1] Lab.six
           (world
              (started (H := Lab.usual)
                 (started (H := Lab.usual)
                    (generateEmbedding (H := Lab.usual) Lab.question
                       (started (H := Lab.usual)
                          (started (H := Lab.usual)
                             (Lab.boot Lab.library)))).2))));
    vm_compute; reflexivity.
Defined.

(* ===================================================================== *)
(** * The facade: mutations and the caches                                *)
(* ===================================================================== *)

Section InvalidationFacts.

Context {W : Type} `{Platform W} {store : Store W}.

Lemma invalidateDocumentCache_invalidated (s : System W) :
  invalidated (invalidateDocumentCache s).2.
Proof.
  unfold invalidated, invalidateDocumentCache, modify. simpl.
  split; [reflexivity|]. split.
  - rewrite lookup_delete_ne by apply timestampKey_not_snapshot.
    apply lookup_delete_eq.
  - apply lookup_delete_eq.
Qed.

(** Saving: the call is put on record, and the answer of the store
    decides how the method goes on. *)
Lemma saveDocument_step {A : Type} (document : Document) (k : jsstring -> M W A)
      (s : System W) :
  (let* _ := modify (record (CallSaveDocument document)) in
   let* docId := external (saveDocument document) in
   k docId) s
  = match saveDocument document (world s) with
    | (Ok docId, w) => k docId (setWorld w (record (CallSaveDocument document) s))
    | (Throw e, w) => (Throw e, setWorld w (record (CallSaveDocument document) s))
    | (Hang, w) => (Hang, setWorld w (record (CallSaveDocument document) s))
    end.
Proof. rewrite bind_modify, bind_external. reflexivity. Qed.

Lemma timestampOrNow_run (metadata : Metadata) (s : System W) :
  timestampOrNow metadata s
  = if toBoolean (getProperty metadata TIMESTAMP)
    then (Ok (getProperty metadata TIMESTAMP), s)
    else (Ok (VString (toISOString (Date_now (world s)).1)), started s).
Proof.
  unfold timestampOrNow.
  destruct (toBoolean (getProperty metadata TIMESTAMP)); [reflexivity|].
  rewrite bind_now. reflexivity.
Qed.

(** [addDocument] on a content that passes the test, from the state in
    which the embedding has been computed: the id is drawn, the timestamp
    is settled, the document is handed to the store. *)
Lemma addDocumentBody_run (content : jsstring) (metadata : Metadata)
      (s s1 : System W) (embedding : vector) :
  generateEmbedding content (started s) = (Ok embedding, s1) ->
  let s3 := setWorld (uuidv4 (world (started s1))).2 (started s1) in
  let supplied := toBoolean (getProperty metadata TIMESTAMP) in
  let stamp :=
    if supplied then getProperty metadata TIMESTAMP
    else VString (toISOString (Date_now (world s3)).1) in
  let document :=
    newDocument (uuidv4 (world (started s1))).1 content metadata stamp
                embedding in
  let s5 :=
    record (CallSaveDocument document) (if supplied then s3 else started s3) in
  trace s5 = trace s1 ++ [CallSaveDocument document] /\
  documentCache s5 = documentCache s /\
  searchCache s5 = searchCache s /\
  addDocumentBody content metadata s
  = match saveDocument document (world s5) with
    | (Ok docId, w) => (Ok docId, (invalidateDocumentCache (setWorld w s5)).2)
    | (Throw e, w) => (Throw e, setWorld w s5)
    | (Hang, w) => (Hang, setWorld w s5)
    end.
Proof.
  intros Hemb s3 supplied stamp document s5.
  pose proof (generateEmbedding_documentCache content (started s)) as Hd.
  pose proof (generateEmbedding_searchCache content (started s)) as Hs.
  rewrite Hemb in Hd, Hs. simpl in Hd, Hs.
  split; [subst s5 s3; destruct supplied; reflexivity|].
  split; [subst s5 s3; destruct supplied; exact Hd|].
  split; [subst s5 s3; destruct supplied; exact Hs|].
  unfold addDocumentBody. rewrite bind_now. unfold bind at 1. rewrite Hemb.
  rewrite bind_now.
  unfold bind at 1. unfold generateDocumentId at 1.
  rewrite (surjective_pairing (uuidv4 (world (started s1)))). fold s3.
  unfold bind at 1. rewrite timestampOrNow_run. fold supplied.
  assert (Hstep :
    (if supplied
     then (Ok (getProperty metadata TIMESTAMP), s3)
     else (Ok (VString (toISOString (Date_now (world s3)).1)), started s3))
    = (Ok stamp, if supplied then s3 else started s3)).
  { subst stamp. destruct supplied; reflexivity. }
  rewrite Hstep. fold document. rewrite saveDocument_step. fold s5.
  change (world (if supplied then s3 else started s3)) with (world s5).
  destruct (saveDocument document (world s5)) as [[docId|e|] w]; reflexivity.
Qed.

(** The embedding step of [updateDocument] leaves the document cache and
    the query cache as they are. *)
Lemma updateEmbedding_caches (content : option jsstring)
      (existingDoc : Document) (s : System W) :
  let step : M W (option vector) :=
    match provided content with
    | Some c =>
        if bool_decide (c = doc_content existingDoc)
        then ret (doc_embedding existingDoc)
        else let* e := generateEmbedding
                         (default (doc_content existingDoc) (provided content))
             in ret (Some e)
    | None => ret (doc_embedding existingDoc)
    end in
  documentCache (step s).2 = documentCache s /\
  searchCache (step s).2 = searchCache s.
Proof.
  intros step. subst step.
  destruct (provided content) as [c|]; [|split; reflexivity].
  destruct (bool_decide (c = doc_content existingDoc)); [split; reflexivity|].
  pose proof (generateEmbedding_documentCache
                (default (doc_content existingDoc) (Some c)) s) as Hd.
  pose proof (generateEmbedding_searchCache
                (default (doc_content existingDoc) (Some c)) s) as Hs.
  unfold bind.
  destruct (generateEmbedding (default (doc_content existingDoc) (Some c)) s)
    as [[v|e|] s1]; split; assumption.
Qed.

(** [updateDocument] invalidates the caches when it returns, and leaves
    the search provider's caches alone when it does not. *)
Lemma updateDocument_ends (id : jsstring) (content : option jsstring)
      (metadata : option Metadata) (s : System W) :
  match updateDocument id content metadata s with
  | (Ok _, s') => invalidated s'
  | (_, s') => searchCachesKept s s'
  end.
Proof.
  enough (Hgen : forall p, p = updateDocument id content metadata s ->
            match p with
            | (Ok _, s') => invalidated s'
            | (_, s') => searchCachesKept s s'
            end) by (apply Hgen; reflexivity).
  intros p Hp. unfold updateDocument in Hp.
  rewrite bind_modify, bind_external in Hp.
  destruct (getDocument id _) as [[[existingDoc|]|e|] w1]; simpl in Hp;
    try (subst p; split; reflexivity).
  rewrite bind_now in Hp. unfold bind at 1 in Hp.
  match type of Hp with context [?m (started ?s0)] =>
    match type of m with M W (option vector) =>
      pose proof (updateEmbedding_caches content existingDoc (started s0)) as Hc;
      simpl in Hc; destruct (m (started s0)) as [[embedding|e|] s2]
    end
  end; simpl in Hc; try (subst p; exact Hc).
  rewrite saveDocument_step in Hp.
  destruct (saveDocument _ _) as [[docId|e|] w3]; subst p; try exact Hc.
  apply invalidateDocumentCache_invalidated.
Qed.

Lemma addDocument_ends (content : jsstring) (metadata : Metadata)
      (s : System W) :
  match addDocument content metadata s with
  | (Returns _, s') => invalidated s'
  | (_, s') => searchCachesKept s s'
  end.
Proof.
  unfold addDocument.
  destruct ((len content =? 0) || (len (trim content) =? 0));
    [split; reflexivity|].
  destruct (generateEmbedding content (started s)) as [[embedding|e|] s1] eqn:Hemb.
  - destruct (addDocumentBody_run content metadata s s1 embedding Hemb)
      as (_ & Hd & Hs & ->).
    destruct (saveDocument _ _) as [[docId|e|] w];
      [apply invalidateDocumentCache_invalidated|split; assumption..].
  - pose proof (generateEmbedding_documentCache content (started s)) as Hd.
    pose proof (generateEmbedding_searchCache content (started s)) as Hs.
    unfold addDocumentBody. rewrite bind_now. unfold bind at 1.
    rewrite Hemb in *. simpl. split; assumption.
  - pose proof (generateEmbedding_documentCache content (started s)) as Hd.
    pose proof (generateEmbedding_searchCache content (started s)) as Hs.
    unfold addDocumentBody. rewrite bind_now. unfold bind at 1.
    rewrite Hemb in *. simpl. split; assumption.
Qed.

End InvalidationFacts.

Section InvalidationContracts.

Context {W : Type} `{Platform W} {store : Store W}.

(** X20. The four mutations of the facade and the caches of the search
    provider. A mutation that returns has invalidated them: no query
    result and no document snapshot is cached any more ([clearAllDocuments]
    empties both caches). A mutation that throws - at the validation, at
    the embedding provider or at the store - leaves the two caches exactly
    as they were. *)
Theorem mutations_invalidate_on_success (s : System W) :
  (forall content metadata,
      match addDocument content metadata s with
      | (Returns _, s') => invalidated s'
      | (_, s') => searchCachesKept s s'
      end) /\
  (forall id content metadata,
      match updateDocument id content metadata s with
      | (Ok _, s') => invalidated s'
      | (_, s') => searchCachesKept s s'
      end) /\
  (forall id,
      match deleteDocument id s with
      | (Ok _, s') => invalidated s'
      | (_, s') => searchCachesKept s s'
      end) /\
  match clearAllDocuments s with
  | (Ok _, s') => documentCache s' = ∅ /\ searchCache s' = ∅
  | (_, s') => searchCachesKept s s'
  end.
Proof.
  split; [intros; apply addDocument_ends|].
  split; [intros; apply updateDocument_ends|].
  split.
  - intros id. unfold deleteDocument. rewrite bind_external.
    destruct (storeDeleteDocument id (world s)) as [[[]|e|] w];
      try (split; reflexivity).
    apply invalidateDocumentCache_invalidated.
  - unfold clearAllDocuments. rewrite bind_external.
    destruct (storeClearAllDocuments (world s)) as [[r|e|] w];
      split; reflexivity.
Qed.

End InvalidationContracts.

Section AddDocumentFacts.

Context {W : Type} `{Platform W} {store : Store W}.

(** The calls of [generateEmbedding]: its own mark, then backend calls. *)
Lemma generateEmbedding_trace (text : jsstring) (s : System W) :
  exists called,
    trace (generateEmbedding text s).2
    = trace s ++ CallGenerateEmbedding text :: map CallBackend called.
Proof.
  destruct (embeddingCache s !! createTextHash text) as [cached|] eqn:Ec.
  - rewrite (generateEmbedding_hit text s cached Ec). exists []. reflexivity.
  - rewrite (generateEmbedding_miss text s Ec).
    destruct (embedText_trace text (missStart text s)) as (called & Ht & _).
    exists called.
    destruct (embedText text (missStart text s)) as [[v|e|] s1]; simpl in *;
      rewrite Ht, <- app_assoc; reflexivity.
Qed.



(** X22. What [addDocument] refuses it does not touch. A blank content is
    rejected with 'Document content cannot be empty' in the state the
    call found: no clock reading, no embedding, no id, no store call. When
    the embedding provider throws, its error is passed on and the calls
    made are those of [generateEmbedding]: the store is not called. *)
Theorem addDocument_rejection_saves_nothing (content : jsstring)
        (metadata : Metadata) (s : System W) :
  ((len content =? 0) || (len (trim content) =? 0) = true ->
   addDocument content metadata s = (Fails EmptyContent, s)) /\
  (forall e s1,
      (len content =? 0) || (len (trim content) =? 0) = false ->
      generateEmbedding content (started s) = (Throw e, s1) ->
      addDocument content metadata s = (Fails (Core e), s1) /\
      exists called,
        trace s1
        = trace s ++ CallGenerateEmbedding content :: map CallBackend called).
Proof.
  split.
  - intros Hblank. unfold addDocument. rewrite Hblank. reflexivity.
  - intros e s1 Hcontent Hemb. split.
    + unfold addDocument, addDocumentBody. rewrite Hcontent, bind_now.
      unfold bind at 1. rewrite Hemb. reflexivity.
    + destruct (generateEmbedding_trace content (started s)) as (called & Ht).
      rewrite Hemb in Ht. exists called. exact Ht.
Qed.

(** X23. [updateDocument] with a new content. The content is embedded
    again and the document saved carries the new content with the new
    embedding, never the stored one; when the embedding provider throws,
    the update stops there and nothing is saved. *)
Theorem updateDocument_new_content_reembeds (id : jsstring)
        (content : option jsstring) (metadata : option Metadata)
        (s : System W) (existingDoc : Document) (w1 : W) (c : jsstring) :
  getDocument id (world s) = (Ok (Some existingDoc), w1) ->
  provided content = Some c ->
  c <> doc_content existingDoc ->
  let s1 := started (setWorld w1 (record (CallGetDocument id) s)) in
  match generateEmbedding c s1 with
  | (Ok embedding, s2) =>
      trace (updateDocument id content metadata s).2
      = trace s2 ++
        [CallSaveDocument
           (mkDocument id c
              (mergeMetadata (doc_metadata existingDoc) metadata
                             (toISOString (Date_now w1).1))
              (Some embedding))]
  | (Throw e, s2) => updateDocument id content metadata s = (Throw e, s2)
  | (Hang, s2) => updateDocument id content metadata s = (Hang, s2)
  end.
Proof.
  intros Hget Hc Hnew s1.
  assert (Hrun : updateDocument id content metadata s
    = match generateEmbedding c s1 with
      | (Ok embedding, s2) =>
          (let updatedDoc :=
             mkDocument id c
               (mergeMetadata (doc_metadata existingDoc) metadata
                              (toISOString (Date_now w1).1))
               (Some embedding) in
           let* _ := modify (record (CallSaveDocument updatedDoc)) in
           let* _ := external (saveDocument updatedDoc) in
           invalidateDocumentCache) s2
      | (Throw e, s2) => (Throw e, s2)
      | (Hang, s2) => (Hang, s2)
      end).
  { unfold updateDocument. rewrite bind_modify, bind_external. simpl.
    rewrite Hget, bind_now. fold s1. rewrite Hc.
    rewrite bool_decide_eq_false_2 by exact Hnew. simpl.
    unfold bind at 1. unfold bind at 1.
    destruct (generateEmbedding c s1) as [[embedding|e|] s2]; reflexivity. }
  rewrite Hrun.
  destruct (generateEmbedding c s1) as [[embedding|e|] s2]; try reflexivity.
  cbv zeta. rewrite saveDocument_step.
  destruct (saveDocument _ (world s2)) as [[docId|e|] w3]; reflexivity.
Qed.

End AddDocumentFacts.


Lemma addDocument_rejection_witness :
  addDocument (H := Lab.usual) (store := Bench.store) Lab.blanks ∅
              (Lab.boot Lab.calm)
  = (Fails EmptyContent, Lab.boot Lab.calm).
Proof.
  apply (addDocument_rejection_saves_nothing (H := Lab.usual)
           (store := Bench.store) Lab.blanks ∅ (Lab.boot Lab.calm)).
  reflexivity.
Defined.

Lemma updateDocument_new_content_witness :
  last (trace (updateDocument (H := Lab.usual) (str "n1") (Some (str "bye"))
                 None (Lab.boot Lab.desk)).2)
  = Some (CallSaveDocument
            (mkDocument (str "n1") (str "bye")
               (mergeMetadata Lab.noteMetadata None (Lab.isoStamp 1000))
               (Some [ofNat 3; ofNat 0]))).
Proof.
  pose proof (updateDocument_new_content_reembeds (H := Lab.usual)
                (str "n1") (Some (str "bye")) None (Lab.boot Lab.desk)
                Lab.note Lab.desk (str "bye") eq_refl eq_refl
                ltac:(discriminate)) as Hw.
  cbv zeta in Hw.
  destruct (generateEmbedding (H := Lab.usual) (str "bye") _)
    as [[embedding|e|] s2] eqn:Erun in Hw;
    vm_compute in Erun; try discriminate Erun.
  injection Erun as <- <-. rewrite Hw. apply last_snoc.
Defined.

(* ===================================================================== *)
(** * Metadata filters                                                    *)
(* ===================================================================== *)

Section MetadataFacts.

(** The filter test, property by property. *)
Lemma matchesAll_spec (wanted metadata : Metadata) :
  matchesAll wanted metadata = true <->
  forall key value,
    wanted !! key = Some value ->
    strictEquals (getProperty metadata key) value = true.
Proof.
  unfold matchesAll. rewrite forallb_forall. split.
  - intros Hall key value Hlook.
    apply (Hall (key, value)), list_elem_of_In, elem_of_map_to_list, Hlook.
  - intros Hall [key value] Hin.
    apply list_elem_of_In, elem_of_map_to_list in Hin. apply Hall, Hin.
Qed.

Lemma matchesAll_empty (metadata : Metadata) : matchesAll ∅ metadata = true.
Proof. apply matchesAll_spec. intros key value Hlook. discriminate Hlook. Qed.


Lemma filter_sublist {A : Type} (f : A -> bool) (l : list A) :
  sublist (List.filter f l) l.
Proof.
  induction l as [|x l IH]; simpl; [constructor|].
  destruct (f x); constructor; exact IH.
Qed.

Lemma filter_all {A : Type} (f : A -> bool) (l : list A) :
  (forall x, f x = true) -> List.filter f l = l.
Proof.
  intros Hall. induction l as [|x l IH]; simpl; [reflexivity|].
  rewrite Hall, IH. reflexivity.
Qed.


End MetadataFacts.

Section MetadataContracts.

Context {W : Type} `{Platform W}.

(** X24. [searchByMetadata] asks the store for all documents and returns,
    in the order of the store, exactly those whose metadata has every
    property of the query with a strictly equal value. An empty query
    returns every document. *)
Theorem searchByMetadata_contract (query : Metadata) (s : System W)
        (allDocuments : list Document) (w : W) :
  getAllDocuments (world s) = (Ok allDocuments, w) ->
  exists found,
    searchByMetadata query s
    = (Ok found, setWorld w (record CallGetAllDocuments s)) /\
    sublist found allDocuments /\
    (forall doc,
        In doc found <->
        In doc allDocuments /\
        forall key value,
          query !! key = Some value ->
          strictEquals (getProperty (doc_metadata doc) key) value = true) /\
    (query = ∅ -> found = allDocuments).
Proof.
  intros Hget. eexists. split.
  { unfold searchByMetadata. rewrite bind_modify, bind_external. simpl.
    rewrite Hget. reflexivity. }
  split; [apply filter_sublist|]. split.
  - intros doc. rewrite List.filter_In, matchesAll_spec. reflexivity.
  - intros ->. apply filter_all. intros doc. apply matchesAll_empty.
Qed.


End MetadataContracts.

Lemma searchByMetadata_contract_witness :
  exists found,
    searchByMetadata (H := Lab.usual) Lab.noteMetadata (Lab.boot Lab.desk)
    = (Ok found, setWorld Lab.desk (record CallGetAllDocuments (Lab.boot Lab.desk)))
    /\ In Lab.note found.
Proof.
  destruct (searchByMetadata_contract (H := Lab.usual) Lab.noteMetadata
              (Lab.boot Lab.desk) [Lab.note] Lab.desk eq_refl)
    as (found & Hrun & _ & Hin & _).
  exists found. split; [exact Hrun|]. apply Hin. split; [left; reflexivity|].
  intros key value Hlook.
  unfold Lab.noteMetadata in Hlook.
  apply lookup_singleton_Some in Hlook as [<- <-]. vm_compute. reflexivity.
Defined.

(* ===================================================================== *)
(** * A validated limit                                                   *)
(* ===================================================================== *)

Section LimitFacts.

Lemma digits2_pos_bound (m : positive) : Z.pos m < 2 ^ Z.pos (digits2_pos m).
Proof.
  induction m as [m IH|m IH|]; [| |reflexivity];
    cbn [digits2_pos]; rewrite Pos2Z.inj_succ, Z.pow_succ_r by lia; lia.
Qed.

(** The mantissa of a binary64 value has 53 bits at most. *)
Lemma valid_binary_mantissa (s : bool) (m : positive) (e : Z) :
  valid_binary prec emax (S754_finite s m e) = true -> Z.pos m < 2 ^ 53.
Proof.
  unfold valid_binary, bounded, canonical_mantissa, fexp, emin, prec, emax.
  intros [Hc _]%andb_prop. apply Z.eqb_eq in Hc.
  pose proof (digits2_pos_bound m) as Hm.
  assert (Hd : Z.pos (digits2_pos m) <= 53) by lia.
  eapply Z.lt_le_trans; [exact Hm|]. apply Z.pow_le_mono_r; lia.
Qed.
End LimitFacts.

Section LimitBound.

(** A binary64 value that is neither below 1 nor above 100 keeps at most
    100 elements of a list; NaN, the one such value that is no number,
    keeps none. *)
Lemma sliceCount_validated (k : nat) (n : number) :
  valid_binary prec emax n = true ->
  ltb n (ofZ 1) || gtb n (ofZ 100) = false ->
  (sliceCount k n <= 100)%nat.
Proof.
  intros Hvalid Hrange. apply orb_false_elim in Hrange as [Hlow Hhigh].
  assert (H1 : ofZ 1 = S754_finite false 4503599627370496 (-52))
    by (vm_compute; reflexivity).
  assert (H100 : ofZ 100 = S754_finite false 7036874417766400 (-46))
    by (vm_compute; reflexivity).
  rewrite H1 in Hlow. rewrite H100 in Hhigh.
  destruct n as [s|[]| |[] m e]; unfold sliceCount; try lia;
    try discriminate Hlow; try discriminate Hhigh.
  assert (Hm := valid_binary_mantissa _ _ _ Hvalid).
  change (2 ^ 53) with 9007199254740992 in Hm.
  unfold gtb, SFltb, SFcompare in Hhigh.
  pose proof (Z.shiftl_nonneg (Z.pos m) e) as Hnonneg.
  assert (Hk : Z.shiftl (Z.pos m) e <= 100).
  { destruct (Z.compare_spec (-46) e) as [He|He|He]; try discriminate Hhigh.
    - subst e. rewrite Z.shiftl_div_pow2 by lia.
      change (2 ^ (- (-46))) with 70368744177664.
      apply Z.div_le_upper_bound; [lia|].
      rewrite Pos.compare_cont_spec in Hhigh. simpl Pos.switch_Eq in Hhigh.
      destruct (Pos.compare_spec 7036874417766400 m) as [Hp|Hp|Hp];
        try discriminate Hhigh.
      + subst m. discriminate.
      + apply Pos2Z.pos_lt_pos in Hp. clear Hhigh Hvalid Hlow.
        revert Hp. generalize (Z.pos m). intros z Hz. lia.
    - rewrite Z.shiftl_div_pow2 by lia.
      assert (Hpow : 2 ^ 47 <= 2 ^ (- e)) by (apply Z.pow_le_mono_r; lia).
      change (2 ^ 47) with 140737488355328 in Hpow.
      clear Hhigh Hvalid Hlow Hnonneg. revert Hm Hpow.
      generalize (Z.pos m) (2 ^ (- e)). intros z p Hz Hp.
      apply Z.div_le_upper_bound; lia. }
  clear Hhigh Hvalid Hlow Hm. revert Hk Hnonneg.
  cbv zeta. generalize (Z.shiftl (Z.pos m) e). intros z Hz Hnonneg.
  destruct (Z.ltb_spec z 0); lia.
Qed.

End LimitBound.

(** X27. A limit that passes [validateOptions] bounds the answer: when it
    is a binary64 value, [applySearchOptions] returns 100 results at most,
    whatever the number of candidates. *)
Theorem validated_limit_bounds_results (results : list SearchResult)
        (options : SearchOptions) (n : number) :
  validateOptions options = Ok tt ->
  limit options = Some n ->
  valid_binary prec emax n = true ->
  (length (applySearchOptions results options) <= 100)%nat.
Proof.
  intros Hvalid Hlimit Hn.
  etransitivity; [apply (applySearchOptions_limit _ _ n Hlimit)|].
  apply sliceCount_validated; [exact Hn|].
  unfold validateOptions, checkLimit in Hvalid. rewrite Hlimit in Hvalid.
  destruct (ltb n (ofZ 1) || gtb n (ofZ 100)); [discriminate|reflexivity].
Qed.

Lemma validated_limit_bounds_results_witness :
  (length (applySearchOptions Lab.firstResults
             (mkSearchOptions (Some (ratio 7 2)) None None)) <= 100)%nat.
Proof.
  apply (validated_limit_bounds_results Lab.firstResults
           (mkSearchOptions (Some (ratio 7 2)) None None) (ratio 7 2));
    vm_compute; reflexivity.
Defined.

(* ===================================================================== *)
(** * Retries, and updates below the facade                               *)
(* ===================================================================== *)

Section RetryContracts.

Context {W A : Type}.
Variable sleep : number -> W -> W.

(** X28. [retryWrapper] gives up after three attempts and not before: it
    throws exactly when the operation throws three times in a row, the
    second attempt made after a wait of 1000 ms and the third after a
    wait of 1500 ms, and what it throws is the error of the third
    attempt. *)
Theorem retryWrapper_throws_iff (operation : W -> Result A * W) (w w' : W)
        (e : Error) :
  retryWrapper sleep operation w = (Throw e, w') <->
  exists e1 e2 w1 w2,
    operation w = (Throw e1, w1) /\
    operation (sleep (ofZ 1000) w1) = (Throw e2, w2) /\
    operation (sleep (ofZ 1500) w2) = (Throw e, w').
Proof.
  unfold retryWrapper. cbn [retryLoop]. rewrite retry_backoff. split.
  - intros Hrun.
    destruct (operation w) as [[a|e1|] w1] eqn:E1; try discriminate Hrun.
    destruct (operation (sleep (ofZ 1000) w1)) as [[a|e2|] w2] eqn:E2;
      try discriminate Hrun.
    destruct (operation (sleep (ofZ 1500) w2)) as [[a|e3|] w3] eqn:E3;
      try discriminate Hrun.
    injection Hrun as <- <-. exists e1, e2, w1, w2. auto.
  - intros (e1 & e2 & w1 & w2 & -> & -> & ->). reflexivity.
Qed.

End RetryContracts.

Section StoreUpdateContracts.

Context {W : Type} `{Platform W}.

(** X29. [BaseStorageProvider.updateDocumentMetadata] and the facade's
    [updateDocument] without content do the same to a stored document
    whose id is the one asked for: the same calls with the same document
    saved, the same outcome. They differ in the caches: the method of the
    store leaves the query cache and the document snapshot as they are. *)
Theorem updateDocumentMetadata_as_updateDocument (id : jsstring)
        (metadata : Metadata) (s : System W) (existingDoc : Document) (w1 : W) :
  getDocument id (world s) = (Ok (Some existingDoc), w1) ->
  doc_id existingDoc = id ->
  let viaStore := updateDocumentMetadata id metadata s in
  let viaFacade := updateDocument id None (Some metadata) s in
  viaStore.1 = viaFacade.1 /\
  trace viaStore.2 = trace viaFacade.2 /\
  world viaStore.2 = world viaFacade.2 /\
  searchCachesKept s viaStore.2.
Proof.
  intros Hget Hid viaStore viaFacade. subst viaStore viaFacade.
  rewrite (updateDocument_same_content id None (Some metadata) s existingDoc w1
             Hget (or_introl eq_refl)).
  unfold updateDocumentMetadata. rewrite bind_modify, bind_external. simpl.
  rewrite Hget, bind_now. unfold metadataUpdate. rewrite Hid.
  rewrite bind_modify, bind_external. simpl.
  destruct (saveDocument _ (Date_now w1).2) as [[docId|e|] w3];
    repeat split.
Qed.

End StoreUpdateContracts.

Lemma updateDocumentMetadata_as_updateDocument_witness :
  trace (updateDocumentMetadata (H := Lab.usual) (str "n1") Lab.newTitle
           (Lab.boot Lab.desk)).2
  = trace Lab.titleUpdate.2.
Proof.
  apply (updateDocumentMetadata_as_updateDocument (H := Lab.usual) (str "n1")
           Lab.newTitle (Lab.boot Lab.desk) Lab.note Lab.desk);
    reflexivity.
Defined.
